(** * Cluster lifecycle orchestration: a shallow embedding of
      [multi-node/aws/pkg/cluster/cluster.go] and its verification.

    The file has three layers.
    - [net]: the part of Go's standard [net] package that
      [validateExistingVPC] relies on ([ParseCIDR], [IPNet.Contains],
      [IPNet.String]), at the level of byte slices, as the library has it.
    - the provider interface: requests, responses and error values of the
      CloudFormation and EC2 clients, and a regular-expression engine
      interface for [regexp.MustCompile] / [Regexp.Match].
    - [cluster]: the methods of [*Cluster] ([ValidateStack],
      [validateExistingVPC], [Create], [Info]), followed by the theorems. *)

From Stdlib Require Import String Ascii DecimalString HexadecimalString.
From Stdlib Require Import ZArith List Bool Lia.
Import ListNotations.

Local Open Scope string_scope.
Local Open Scope list_scope.
Local Open Scope Z_scope.

(** ** Go strings: byte sequences with slicing *)

Definition len (s : string) : nat := String.length s.

(** [s[n:]] *)
Fixpoint drop (n : nat) (s : string) : string :=
  match n, s with
  | O, _ => s
  | S n', String _ s' => drop n' s'
  | S _, EmptyString => EmptyString
  end.

(** [s[:n]] *)
Fixpoint take (n : nat) (s : string) : string :=
  match n, s with
  | O, _ => EmptyString
  | S n', String c s' => String c (take n' s')
  | S _, EmptyString => EmptyString
  end.

(** [s[i]], for [i < len(s)] *)
Definition at_ (s : string) (i : nat) : ascii :=
  match String.get i s with Some c => c | None => Ascii.zero end.

Definition code (c : ascii) : Z := Z.of_N (N_of_ascii c).

Definition uitoa (n : Z) : string := DecimalString.NilZero.string_of_uint (N.to_uint (Z.to_N n)).

(** [strings.IndexByte]-style search: offset of the first [c] in [s]. *)
Fixpoint byteIndex (s : string) (c : ascii) : option nat :=
  match s with
  | EmptyString => None
  | String d s' =>
      if Ascii.eqb d c then Some O
      else match byteIndex s' c with Some i => Some (S i) | None => None end
  end.

(** ** The [net] package *)
Module net.

(** An [IP] and an [IPMask] are byte slices.  A nil slice is the empty list:
    every non-nil slice these functions build is non-empty. *)
Definition IP := list Z.
Definition IPMask := list Z.

Record IPNet := mkIPNet { IPNet_IP : IP; IPNet_Mask : IPMask }.

Definition IPv4len : nat := 4.
Definition IPv6len : nat := 16.

Definition v4InV6Prefix : list Z := [0; 0; 0; 0; 0; 0; 0; 0; 0; 0; 255; 255].

Definition IPv4 (a b c d : Z) : IP := v4InV6Prefix ++ [a; b; c; d].

Definition is_nil (p : list Z) : bool := match p with [] => true | _ => false end.

Definition isZeros (p : list Z) : bool := forallb (Z.eqb 0) p.
Definition allFF (p : list Z) : bool := forallb (Z.eqb 255) p.

Fixpoint bytesEqual (a b : list Z) : bool :=
  match a, b with
  | [], [] => true
  | x :: a', y :: b' => (x =? y) && bytesEqual a' b'
  | _, _ => false
  end.

(** [p[i]] *)
Definition idx (p : list Z) (i : nat) : Z := nth i p 0.

(** [p[i:j]] *)
Definition slice (p : list Z) (i j : nat) : list Z := firstn (j - i) (skipn i p).

Definition To4 (ip : IP) : IP :=
  if (length ip =? IPv4len)%nat then ip
  else if (length ip =? IPv6len)%nat && isZeros (slice ip 0 10)
          && (idx ip 10 =? 255) && (idx ip 11 =? 255)
       then slice ip 12 16
       else [].

Fixpoint andBytes (a b : list Z) : list Z :=
  match a, b with
  | x :: a', y :: b' => Z.land x y :: andBytes a' b'
  | _, _ => []
  end.

Definition IP_Mask (ip : IP) (mask : IPMask) : IP :=
  let mask :=
    if (length mask =? IPv6len)%nat && (length ip =? IPv4len)%nat
       && allFF (slice mask 0 12)
    then skipn 12 mask else mask in
  let ip :=
    if (length mask =? IPv4len)%nat && (length ip =? IPv6len)%nat
       && bytesEqual (slice ip 0 12) v4InV6Prefix
    then skipn 12 ip else ip in
  if negb (length ip =? length mask)%nat then []
  else andBytes ip mask.

Fixpoint CIDRMask_loop (l : nat) (n : Z) : list Z :=
  match l with
  | O => []
  | S l' =>
      if 8 <=? n then 255 :: CIDRMask_loop l' (n - 8)
      else Z.lxor 255 (Z.shiftr 255 n) :: CIDRMask_loop l' 0
  end.

Definition CIDRMask (ones bits : Z) : IPMask :=
  if negb (bits =? 8 * 4) && negb (bits =? 8 * 16) then []
  else if (ones <? 0) || (bits <? ones) then []
  else CIDRMask_loop (Z.to_nat (bits / 8)) ones.

Definition networkNumberAndMask (n : IPNet) : IP * IPMask :=
  let ip4 := To4 (IPNet_IP n) in
  if is_nil ip4 && negb (length (IPNet_IP n) =? IPv6len)%nat then ([], [])
  else
    let ip := if is_nil ip4 then IPNet_IP n else ip4 in
    let m := IPNet_Mask n in
    if (length m =? IPv4len)%nat then
      if negb (length ip =? IPv4len)%nat then ([], []) else (ip, m)
    else if (length m =? IPv6len)%nat then
      if (length ip =? IPv4len)%nat then (ip, skipn 12 m) else (ip, m)
    else ([], []).

Definition Contains (n : IPNet) (ip : IP) : bool :=
  let '(nn, m) := networkNumberAndMask n in
  let ip := if is_nil (To4 ip) then ip else To4 ip in
  let l := length ip in
  if negb (l =? length nn)%nat then false
  else forallb (fun i => Z.land (idx nn i) (idx m i) =? Z.land (idx ip i) (idx m i))
               (seq 0 l).

(** *** Parsing *)

Definition big : Z := 16777215. (* 0xFFFFFF *)

Definition isDigit (c : ascii) : bool := (code "0" <=? code c) && (code c <=? code "9").

(** Decimal to integer: the value, the number of bytes consumed, success. *)
Fixpoint dtoi_loop (s : string) (n : Z) (i : nat) : Z * nat * bool :=
  match s with
  | String c s' =>
      if isDigit c then
        let n' := n * 10 + (code c - code "0") in
        if big <=? n' then (big, i, false) else dtoi_loop s' n' (S i)
      else (n, i, true)
  | EmptyString => (n, i, true)
  end.

Definition dtoi (s : string) : Z * nat * bool :=
  let '(n, i, ok) := dtoi_loop s 0 O in
  if negb ok then (n, i, false)
  else if (i =? 0)%nat then (0, O, false)
  else (n, i, true).

Definition hexval (c : ascii) : option Z :=
  if (code "0" <=? code c) && (code c <=? code "9") then Some (code c - code "0")
  else if (code "a" <=? code c) && (code c <=? code "f") then Some (code c - code "a" + 10)
  else if (code "A" <=? code c) && (code c <=? code "F") then Some (code c - code "A" + 10)
  else None.

(** Hexadecimal to integer: the value, the number of bytes consumed, success. *)
Fixpoint xtoi_loop (s : string) (n : Z) (i : nat) : Z * nat * bool :=
  match s with
  | String c s' =>
      match hexval c with
      | Some d =>
          let n' := n * 16 + d in
          if big <=? n' then (0, i, false) else xtoi_loop s' n' (S i)
      | None => (n, i, true)
      end
  | EmptyString => (n, i, true)
  end.

Definition xtoi (s : string) : Z * nat * bool :=
  let '(n, i, ok) := xtoi_loop s 0 O in
  if negb ok then (n, i, false)
  else if (i =? 0)%nat then (0, i, false)
  else (n, i, true).

(** The loop of [parseIPv4]: [k] octets left to read, [i] the loop index,
    [p] the octets read so far.  [None] is the nil result. *)
Fixpoint parseIPv4_loop (k i : nat) (s : string) (p : list Z) : option (string * list Z) :=
  match k with
  | O => Some (s, p)
  | S k' =>
      if (len s =? 0)%nat then None
      else
        let dot_ok := (i =? 0)%nat || Ascii.eqb (at_ s 0) "." in
        if negb dot_ok then None
        else
          let s := if (0 <? i)%nat then drop 1 s else s in
          let '(n, c, ok) := dtoi s in
          if negb ok || (255 <? n) then None
          else parseIPv4_loop k' (S i) (drop c s) (p ++ [n])
  end.

Definition parseIPv4 (s : string) : option IP :=
  match parseIPv4_loop 4 0 s [] with
  | Some (s', p) =>
      if negb (len s' =? 0)%nat then None
      else Some (IPv4 (idx p 0) (idx p 1) (idx p 2) (idx p 3))
  | None => None
  end.

(** The main loop of [parseIPv6].  [ip] holds the [i] bytes stored so far and
    [ellipsis] the position of the [::], if one was seen.  The loop runs while
    [i < IPv6len] and every round that continues stores two bytes, so eight
    rounds exhaust it.  [None] is the nil result. *)
Fixpoint parseIPv6_loop (rounds : nat) (s : string) (i : nat) (ip : list Z)
    (ellipsis : option nat) : option (string * nat * list Z * option nat) :=
  if negb (i <? IPv6len)%nat then Some (s, i, ip, ellipsis)
  else
    match rounds with
    | O => Some (s, i, ip, ellipsis)
    | S rounds' =>
        let '(n, c, ok) := xtoi s in
        if negb ok || (65535 <? n) then None
        else if (c <? len s)%nat && Ascii.eqb (at_ s c) "." then
          (* trailing dotted-quad *)
          if (match ellipsis with None => true | Some _ => false end)
             && negb (i =? IPv6len - IPv4len)%nat then None
          else if (IPv6len <? i + IPv4len)%nat then None
          else
            match parseIPv4 s with
            | None => None
            | Some ip4 =>
                Some (EmptyString, (i + IPv4len)%nat,
                      ip ++ [idx ip4 12; idx ip4 13; idx ip4 14; idx ip4 15],
                      ellipsis)
            end
        else
          let ip := ip ++ [Z.land (Z.shiftr n 8) 255; Z.land n 255] in
          let i := (i + 2)%nat in
          let s := drop c s in
          if (len s =? 0)%nat then Some (s, i, ip, ellipsis)
          else if negb (Ascii.eqb (at_ s 0) ":") || (len s =? 1)%nat then None
          else
            let s := drop 1 s in
            if Ascii.eqb (at_ s 0) ":" then
              match ellipsis with
              | Some _ => None
              | None =>
                  let s := drop 1 s in
                  if (len s =? 0)%nat then Some (s, i, ip, Some i)
                  else parseIPv6_loop rounds' s i ip (Some i)
              end
            else parseIPv6_loop rounds' s i ip ellipsis
    end.

Definition zeros (n : nat) : list Z := repeat 0 n.

Definition parseIPv6 (s : string) : option IP :=
  let lead := (2 <=? len s)%nat && Ascii.eqb (at_ s 0) ":" && Ascii.eqb (at_ s 1) ":" in
  let ellipsis := if lead then Some O else None in
  let s := if lead then drop 2 s else s in
  if lead && (len s =? 0)%nat then Some (zeros IPv6len)
  else
    match parseIPv6_loop 8 s 0 [] ellipsis with
    | None => None
    | Some (s, i, ip, ellipsis) =>
        if negb (len s =? 0)%nat then None
        else if (i <? IPv6len)%nat then
          match ellipsis with
          | None => None
          | Some e => Some (firstn e ip ++ zeros (IPv6len - i) ++ skipn e ip)
          end
        else
          match ellipsis with
          | Some _ => None
          | None => Some ip
          end
    end.

(** [ParseCIDR] returns the address and the network it implies, or an error
    ([inl] carries the error message of [*net.ParseError]). *)
Definition ParseError (text : string) : string :=
  ("invalid CIDR address: " ++ text)%string.

Definition ParseCIDR (s : string) : string + (IP * IPNet) :=
  match byteIndex s "/" with
  | None => inl (ParseError s)
  | Some i =>
      let addr := take i s in
      let mask := drop (S i) s in
      let ip4 := parseIPv4 addr in
      let iplen := match ip4 with Some _ => IPv4len | None => IPv6len end in
      let ip := match ip4 with Some _ => ip4 | None => parseIPv6 addr end in
      let '(n, j, ok) := dtoi mask in
      match ip with
      | None => inl (ParseError s)
      | Some ip =>
          if negb ok || negb (j =? len mask)%nat || (n <? 0)
             || (8 * Z.of_nat iplen <? n)
          then inl (ParseError s)
          else
            let m := CIDRMask n (8 * Z.of_nat iplen) in
            inr (ip, mkIPNet (IP_Mask ip m) m)
      end
  end.

(** *** Printing *)

Definition hexDigit (d : Z) : string :=
  String (at_ "0123456789abcdef" (Z.to_nat d)) EmptyString.

(** [appendHex]: lower-case hexadecimal, no leading zeros, ["0"] for zero. *)
Definition appendHex (v : Z) : string :=
  if v =? 0 then "0"
  else
    let ds := [Z.land (Z.shiftr v 12) 15; Z.land (Z.shiftr v 8) 15;
               Z.land (Z.shiftr v 4) 15; Z.land v 15] in
    let fix go (l : list Z) (started : bool) : string :=
      match l with
      | [] => EmptyString
      | d :: l' =>
          if negb started && (d =? 0) then go l' false
          else (hexDigit d ++ go l' true)%string
      end in
    go ds false.

Definition hexString (b : list Z) : string :=
  fold_right (fun v acc => (hexDigit (Z.shiftr v 4) ++ hexDigit (Z.land v 15) ++ acc)%string)
             EmptyString b.

(** Length of the run of zero 16-bit groups starting at byte offset [i]:
    the offset just behind it. *)
Fixpoint zeroRunEnd (rounds : nat) (p : list Z) (j : nat) : nat :=
  match rounds with
  | O => j
  | S r =>
      if (j <? IPv6len)%nat && (idx p j =? 0) && (idx p (j + 1) =? 0)
      then zeroRunEnd r p (j + 2)
      else j
  end.

(** The search for the longest run of zeros in [IP.String]; [e0], [e1] are
    [-1] until a run is found. *)
Fixpoint longestZeros (rounds : nat) (p : list Z) (i : nat) (e0 e1 : Z) : Z * Z :=
  match rounds with
  | O => (e0, e1)
  | S r =>
      if negb (i <? IPv6len)%nat then (e0, e1)
      else
        let j := zeroRunEnd 8 p i in
        if (i <? j)%nat && (e1 - e0 <? Z.of_nat j - Z.of_nat i)
        then longestZeros r p (j + 2) (Z.of_nat i) (Z.of_nat j)
        else longestZeros r p (i + 2) e0 e1
  end.

Fixpoint printGroups (rounds : nat) (p : list Z) (i : nat) (e0 e1 : Z) : string :=
  match rounds with
  | O => EmptyString
  | S r =>
      if negb (i <? IPv6len)%nat then EmptyString
      else if Z.of_nat i =? e0 then
        let i' := Z.to_nat e1 in
        if (IPv6len <=? i')%nat then "::"
        else ("::" ++ appendHex (Z.lor (Z.shiftl (idx p i') 8) (idx p (i' + 1)))
                   ++ printGroups r p (i' + 2) e0 e1)%string
      else
        ((if (0 <? i)%nat then ":" else "")
           ++ appendHex (Z.lor (Z.shiftl (idx p i) 8) (idx p (i + 1)))
           ++ printGroups r p (i + 2) e0 e1)%string
  end.

Definition IP_String (ip : IP) : string :=
  if (length ip =? 0)%nat then "<nil>"
  else
    let p4 := To4 ip in
    if (length p4 =? IPv4len)%nat then
      (uitoa (idx p4 0) ++ "." ++ uitoa (idx p4 1) ++ "."
         ++ uitoa (idx p4 2) ++ "." ++ uitoa (idx p4 3))%string
    else if negb (length ip =? IPv6len)%nat then ("?" ++ hexString ip)%string
    else
      let '(e0, e1) := longestZeros 8 ip 0 (-1) (-1) in
      let '(e0, e1) := if e1 - e0 <=? 2 then (-1, -1) else (e0, e1) in
      printGroups 9 ip 0 e0 e1.

Definition IPMask_String (m : IPMask) : string :=
  if (length m =? 0)%nat then "<nil>" else hexString m.

(** Leading one bits of a byte, and what is left after shifting them out. *)
Fixpoint leadingOnes (rounds : nat) (v : Z) (n : Z) : Z * Z :=
  match rounds with
  | O => (n, v)
  | S r =>
      if negb (Z.land v 128 =? 0) then leadingOnes r (Z.land (Z.shiftl v 1) 255) (n + 1)
      else (n, v)
  end.

Fixpoint simpleMaskLength_loop (mask : list Z) (n : Z) : Z :=
  match mask with
  | [] => n
  | v :: rest =>
      if v =? 255 then simpleMaskLength_loop rest (n + 8)
      else
        let '(n, v) := leadingOnes 8 v n in
        if negb (v =? 0) then -1
        else if isZeros rest then n else -1
  end.

Definition simpleMaskLength (mask : IPMask) : Z := simpleMaskLength_loop mask 0.

Definition IPNet_String (n : IPNet) : string :=
  let '(nn, m) := networkNumberAndMask n in
  if is_nil nn || is_nil m then "<nil>"
  else
    let l := simpleMaskLength m in
    if l =? -1 then (IP_String nn ++ "/" ++ IPMask_String m)%string
    else (IP_String nn ++ "/" ++ uitoa l)%string.

End net.

(** ** Errors, pointers and the provider's types *)

(** A Go [error] is modelled by the text its [Error()] method returns; the
    nil error is [None] of [option error]. *)
Definition error := string.

Module aws.
(** [aws.StringValue]: the pointed-to string, or the empty string for nil. *)
Definition StringValue (p : option string) : string :=
  match p with Some s => s | None => "" end.
End aws.

(** Modelled from the spec: the request and response types and the status
    names of the vendored CloudFormation client (its sources are not under
    src/).  Records keep the fields this package reads or writes.  A field of
    pointer type is an [option]; a slice of pointers is a list of records, the
    client never putting a nil element in one.  Status names carry the string
    values the client defines for them. *)
Module cloudformation.

Definition ResourceStatusCreateComplete : string := "CREATE_COMPLETE".
Definition ResourceStatusCreateFailed : string := "CREATE_FAILED".
Definition ResourceStatusCreateInProgress : string := "CREATE_IN_PROGRESS".
Definition CapabilityCapabilityIam : string := "CAPABILITY_IAM".

Record ValidateTemplateInput := { vti_TemplateBody : option string }.

(** Only the [String()] rendering of a validation report is used. *)
Record ValidateTemplateOutput := { vto_String : string }.

Record DescribeStacksInput := { dsi_StackName : option string }.

Record Stack := {
  StackStatus : option string;
  StackStatusReason : option string
}.

Record DescribeStacksOutput := { Stacks : list Stack }.

Record CreateStackInput := {
  csi_StackName : option string;
  csi_OnFailure : option string;
  csi_Capabilities : list (option string);
  csi_TemplateBody : option string
}.

Record CreateStackOutput := { cso_StackId : option string }.

Record ListStackResourcesInput := {
  lsri_StackName : option string;
  lsri_NextToken : option string
}.

Record StackResourceSummary := {
  LogicalResourceId : option string;
  PhysicalResourceId : option string
}.

Record ListStackResourcesOutput := {
  StackResourceSummaries : list StackResourceSummary;
  lsro_NextToken : option string
}.

End cloudformation.

(** Modelled from the spec: the request and response types of the vendored
    EC2 client (its sources are not under src/), with the fields
    [validateExistingVPC] sets and reads: the request of the subnet listing
    is its filters, the answer is the list of subnets. *)
Module ec2.

Record DescribeVpcsInput := { VpcIds : list (option string) }.

Record Vpc := {
  VpcId : option string;
  vpc_CidrBlock : option string
}.

Record DescribeVpcsOutput := { Vpcs : list Vpc }.

Record Filter := {
  f_Name : option string;
  f_Values : list (option string)
}.

Record DescribeSubnetsInput := { Filters : list Filter }.

Record Subnet := {
  SubnetId : option string;
  CidrBlock : option string
}.

Record DescribeSubnetsOutput := { Subnets : list Subnet }.

End ec2.

Import cloudformation ec2.

(** ** The regular-expression engine

    [regexp.MustCompile] and [Regexp.Match] belong to Go's standard library.
    The cluster code is embedded over any engine with this interface:
    [Compile] fails with an error text or yields a compiled expression, and
    [Match] reports whether a byte string contains a match. *)
Class RegexpEngine := {
  Regexp : Type;
  Compile : string -> error + Regexp;
  Match : Regexp -> string -> bool
}.

(** ** Observable events, panics and the sequencing of calls *)

Inductive Event :=
| ValidateTemplateCall (i : ValidateTemplateInput)
| DescribeStacksCall (i : DescribeStacksInput)
| DescribeVpcsCall (i : DescribeVpcsInput)
| DescribeSubnetsCall (i : DescribeSubnetsInput)
| CreateStackCall (i : CreateStackInput)
| ListStackResourcesCall (i : ListStackResourcesInput)
| Println (line : string)
| Sleep (nanoseconds : Z).

Inductive PanicReason :=
| NilDereference
| MustCompileFailed (pattern : string) (why : error).

Inductive outcome (A : Type) :=
| Return (a : A)
| Panic (r : PanicReason).
Arguments Return {A} a.
Arguments Panic {A} r.

(** A computation yields the events it caused, in order, and how it ended. *)
Definition M (A : Type) : Type := list Event * outcome A.

Definition ret {A} (a : A) : M A := ([], Return a).

Definition bind {A B} (m : M A) (k : A -> M B) : M B :=
  match m with
  | (t, Return a) => let '(t', o) := k a in (t ++ t', o)
  | (t, Panic r) => (t, Panic r)
  end.

Definition emit (e : Event) : M unit := ([e], Return tt).
Definition panic {A} (r : PanicReason) : M A := ([], Panic r).

(** [*p] *)
Definition deref {A} (p : option A) : M A :=
  match p with Some a => ret a | None => panic NilDereference end.

Notation "x <- m ;; k" := (bind m (fun x => k))
  (at level 61, m at next level, right associativity).
Notation "m ;;; k" := (bind m (fun _ => k))
  (at level 61, right associativity).

Definition trace {A} (m : M A) : list Event := fst m.
Definition result {A} (m : M A) : outcome A := snd m.

(** The answers of the provider to the calls an operation makes once. *)
Record Services := {
  ValidateTemplate : ValidateTemplateInput -> error + ValidateTemplateOutput;
  DescribeStacks : DescribeStacksInput -> error + DescribeStacksOutput;
  DescribeVpcs : DescribeVpcsInput -> error + DescribeVpcsOutput;
  DescribeSubnets : DescribeSubnetsInput -> error + DescribeSubnetsOutput;
  CreateStack : CreateStackInput -> error + CreateStackOutput
}.

(** [time.Second], in nanoseconds. *)
Definition Second : Z := 1000000000.

(** *** Loops that wait on the provider

    [Create] and [Info] call the provider in a loop.  Such a loop is embedded
    as a function of the sequence of answers the provider gives to its
    successive calls: it returns the events it caused, how far it got, and
    the answers it did not consume.  When the answers run out the loop has
    issued its next call and waits for the answer. *)

Inductive Progress (A : Type) :=
| Finished (a : A)
| AwaitingResponse.
Arguments Finished {A} a.
Arguments AwaitingResponse {A}.

Definition Run (R A : Type) : Type := list Event * Progress A * list R.

(** ** The cluster package *)

(** Modelled from the spec: [config.Cluster] (its source is not under src/),
    with the fields of the spec's ClusterConfig. *)
Record Cluster := {
  ClusterName : string;
  Region : string;
  VPCID : string;
  VPCCIDR : string;
  InstanceCIDR : string
}.

Record ClusterInfo := {
  Name : string;
  ControllerIP : string
}.

Definition neqb (a b : string) : bool := negb (String.eqb a b).

Section WithProvider.

Context {RE : RegexpEngine}.
Variable svc : Services.

(** [regexp.MustCompile] *)
Definition MustCompile (str : string) : M Regexp :=
  match Compile str with
  | inr re => ret re
  | inl why => panic (MustCompileFailed str why)
  end.

(** The two-way containment test of the subnet loop. *)
Definition overlaps (existingSubnetIP : net.IP) (existingSubnetNet : net.IPNet)
    (subnetIP : net.IP) (subnetNet : net.IPNet) : bool :=
  net.Contains existingSubnetNet subnetIP || net.Contains subnetNet existingSubnetIP.

(** The loop over [subnetOutput.Subnets] in [validateExistingVPC]. *)
Fixpoint scanSubnets (subnetIP : net.IP) (subnetNet : net.IPNet)
    (subnets : list Subnet) : M (option error) :=
  match subnets with
  | [] => ret None
  | existingSubnet :: rest =>
      cidr <- deref (CidrBlock existingSubnet) ;;
      match net.ParseCIDR cidr with
      | inl err =>
          ret (Some ("error parsing existing subnet cidr " ++ cidr ++ " : " ++ err)%string)
      | inr (existingSubnetIP, existingSubnetNet) =>
          if overlaps existingSubnetIP existingSubnetNet subnetIP subnetNet then
            id <- deref (SubnetId existingSubnet) ;;
            ret (Some ("instance cidr (" ++ net.IPNet_String subnetNet
                         ++ ") conflicts with existing subnet " ++ id
                         ++ ", cidr=" ++ net.IPNet_String existingSubnetNet)%string)
          else scanSubnets subnetIP subnetNet rest
      end
  end.

Definition validateExistingVPC (c : Cluster) : M (option error) :=
  let describeVpcsInput := {| VpcIds := [Some (VPCID c)] |} in
  emit (DescribeVpcsCall describeVpcsInput) ;;;
  match DescribeVpcs svc describeVpcsInput with
  | inl err => ret (Some ("error describing existing vpc: " ++ err)%string)
  | inr vpcOutput =>
      match Vpcs vpcOutput with
      | [] =>
          ret (Some ("could not find vpc " ++ VPCID c ++ " in region " ++ Region c)%string)
      | _ :: _ :: _ =>
          ret (Some ("found more than one vpc with id " ++ VPCID c
                       ++ ". this is NOT NORMAL.")%string)
      | [existingVPC] =>
          liveCidr <- deref (vpc_CidrBlock existingVPC) ;;
          if neqb liveCidr (VPCCIDR c) then
            ret (Some ("configured vpcCidr (" ++ VPCCIDR c
                         ++ ") does not match actual existing vpc cidr ("
                         ++ liveCidr ++ ")")%string)
          else
            let describeSubnetsInput :=
              {| Filters := [ {| f_Name := Some "vpc-id";
                                 f_Values := [VpcId existingVPC] |} ] |} in
            emit (DescribeSubnetsCall describeSubnetsInput) ;;;
            match DescribeSubnets svc describeSubnetsInput with
            | inl err => ret (Some ("error describing subnets for vpc: " ++ err)%string)
            | inr subnetOutput =>
                match net.ParseCIDR (InstanceCIDR c) with
                | inl err =>
                    ret (Some ("error parsing instances cidr " ++ InstanceCIDR c
                                 ++ " : " ++ err)%string)
                | inr (subnetIP, subnetNet) =>
                    scanSubnets subnetIP subnetNet (Subnets subnetOutput)
                end
            end
      end
  end.

Definition stackNotExistPattern (clusterName : string) : string :=
  ("^ValidationError: Stack with id " ++ clusterName ++ " does not exist")%string.

(** The block of [ValidateStack] that settles [stackExists] from the answer
    of [DescribeStacks]: [inr] is the value of [stackExists], [inl] the error
    [ValidateStack] returns at once. *)
Definition stackExistsOf (c : Cluster) (stackNotExistExpr : Regexp)
    (described : error + DescribeStacksOutput) : error + bool :=
  match described with
  | inl err =>
      if Match stackNotExistExpr err then inr false
      else inl ("error describing stack: " ++ err)%string
  | inr describeStacksOutput =>
      if (1 <? length (Stacks describeStacksOutput))%nat then
        inl ("expected error: found more the one stack with name " ++ ClusterName c)%string
      else inr true
  end.

Definition ValidateStack (c : Cluster) (stackBody : string) : M (string * option error) :=
  let validateInput := {| vti_TemplateBody := Some stackBody |} in
  emit (ValidateTemplateCall validateInput) ;;;
  match ValidateTemplate svc validateInput with
  | inl err => ret ("", Some ("invalid cloudformation stack: " ++ err)%string)
  | inr validationReport =>
      let describeStacksInput := {| dsi_StackName := Some (ClusterName c) |} in
      stackNotExistExpr <- MustCompile (stackNotExistPattern (ClusterName c)) ;;
      emit (DescribeStacksCall describeStacksInput) ;;;
      match stackExistsOf c stackNotExistExpr (DescribeStacks svc describeStacksInput) with
      | inl err => ret ("", Some err)
      | inr stackExists =>
          if neqb (VPCID c) "" && negb stackExists then
            emit (Println "Existing VPC detected. Will validate for subnet cidr conflicts") ;;;
            err <- validateExistingVPC c ;;
            match err with
            | Some err => ret ("", Some err)
            | None => ret (vto_String validationReport, None)
            end
          else ret (vto_String validationReport, None)
      end
  end.

(** The polling loop of [Create]. *)
Fixpoint Create_poll (req : DescribeStacksInput)
    (responses : list (error + DescribeStacksOutput))
    : Run (error + DescribeStacksOutput) (option error) :=
  match responses with
  | [] => ([DescribeStacksCall req], AwaitingResponse, [])
  | inl err :: rest => ([DescribeStacksCall req], Finished (Some err), rest)
  | inr resp :: rest =>
      match Stacks resp with
      | [] => ([DescribeStacksCall req], Finished (Some "stack not found"), rest)
      | stack0 :: _ =>
          let statusString := aws.StringValue (StackStatus stack0) in
          if String.eqb statusString ResourceStatusCreateComplete then
            ([DescribeStacksCall req], Finished None, rest)
          else if String.eqb statusString ResourceStatusCreateFailed then
            let errMsg := ("Stack creation failed: " ++ statusString ++ " : "
                             ++ aws.StringValue (StackStatusReason stack0))%string in
            ([DescribeStacksCall req], Finished (Some errMsg), rest)
          else if String.eqb statusString ResourceStatusCreateInProgress then
            let '(t, p, rest') := Create_poll req rest in
            (DescribeStacksCall req :: Sleep (3 * Second) :: t, p, rest')
          else
            ([DescribeStacksCall req],
             Finished (Some ("unexpected stack status: " ++ statusString)%string), rest)
      end
  end.

Definition Create (c : Cluster) (stackBody : string)
    (responses : list (error + DescribeStacksOutput))
    : Run (error + DescribeStacksOutput) (option error) :=
  let creq := {| csi_StackName := Some (ClusterName c);
                 csi_OnFailure := Some "DO_NOTHING";
                 csi_Capabilities := [Some CapabilityCapabilityIam];
                 csi_TemplateBody := Some stackBody |} in
  match CreateStack svc creq with
  | inl err => ([CreateStackCall creq], Finished (Some err), responses)
  | inr resp =>
      let req := {| dsi_StackName := cso_StackId resp |} in
      let '(t, p, rest) := Create_poll req responses in
      (CreateStackCall creq :: t, p, rest)
  end.

(** The listing loop of [Info]: [nextToken] is [req.NextToken], [resources]
    the summaries gathered so far. *)
Fixpoint Info_list (c : Cluster) (nextToken : option string)
    (resources : list StackResourceSummary)
    (responses : list (error + ListStackResourcesOutput))
    : Run (error + ListStackResourcesOutput) (error + list StackResourceSummary) :=
  let req := {| lsri_StackName := Some (ClusterName c); lsri_NextToken := nextToken |} in
  match responses with
  | [] => ([ListStackResourcesCall req], AwaitingResponse, [])
  | inl err :: rest => ([ListStackResourcesCall req], Finished (inl err), rest)
  | inr resp :: rest =>
      let resources := resources ++ StackResourceSummaries resp in
      if String.eqb (aws.StringValue (lsro_NextToken resp)) "" then
        ([ListStackResourcesCall req], Finished (inr resources), rest)
      else
        let '(t, p, rest') := Info_list c (lsro_NextToken resp) resources rest in
        (ListStackResourcesCall req :: t, p, rest')
  end.

(** The scan of the gathered resources in [Info]; the pair is the
    info pointer and the error that [Info] returns. *)
Fixpoint Info_scan (info : ClusterInfo) (resources : list StackResourceSummary)
    : option ClusterInfo * option error :=
  match resources with
  | [] => (Some info, None)
  | r :: rest =>
      if String.eqb (aws.StringValue (LogicalResourceId r)) "EIPController" then
        match PhysicalResourceId r with
        | Some physical =>
            Info_scan {| Name := Name info; ControllerIP := physical |} rest
        | None => (None, Some "unable to get public IP of controller instance")
        end
      else Info_scan info rest
  end.

Definition Info (c : Cluster) (responses : list (error + ListStackResourcesOutput))
    : Run (error + ListStackResourcesOutput) (option ClusterInfo * option error) :=
  match Info_list c None [] responses with
  | (t, Finished (inl err), rest) => (t, Finished (None, Some err), rest)
  | (t, Finished (inr resources), rest) =>
      (t, Finished (Info_scan {| Name := ""; ControllerIP := "" |} resources), rest)
  | (t, AwaitingResponse, rest) => (t, AwaitingResponse, rest)
  end.

End WithProvider.


(** ** A reference engine for anchored literal-and-dot patterns

    Patterns of the shape [^] followed by plain bytes and dots are enough to
    run [ValidateStack] on concrete cluster names.  [DotLiteralSound] says
    that an engine agrees with Go's semantics on that fragment, for ASCII
    subjects: a plain byte matches itself, a dot matches any byte but a line
    feed, and a match must start at the beginning of the text. *)

Definition isMeta (c : ascii) : bool :=
  existsb (Ascii.eqb c)
    ["\"; "."; "+"; "*"; "?"; "("; ")"; "|"; "["; "]"; "{"; "}"; "^"; "$"]%char.

Definition isASCII (c : ascii) : bool := code c <? 128.

Fixpoint allBytes (p : ascii -> bool) (s : string) : bool :=
  match s with
  | EmptyString => true
  | String c s' => p c && allBytes p s'
  end.

Definition plainOrDot (c : ascii) : bool :=
  Ascii.eqb c "." || (isASCII c && negb (isMeta c)).

Definition LF : ascii := ascii_of_nat 10.

Fixpoint prefixDot (body subject : string) : bool :=
  match body, subject with
  | EmptyString, _ => true
  | String p body', String c subject' =>
      (if Ascii.eqb p "." then negb (Ascii.eqb c LF) else Ascii.eqb c p)
      && prefixDot body' subject'
  | String _ _, EmptyString => false
  end.

Definition DotLiteralSound (RE : RegexpEngine) : Prop :=
  forall body, allBytes plainOrDot body = true ->
    exists re, Compile (String "^" body) = inr re /\
      forall subject, allBytes isASCII subject = true ->
        Match re subject = prefixDot body subject.

Definition fragmentCompile (pattern : string) : error + string :=
  match pattern with
  | String "^" body =>
      if allBytes plainOrDot body then inr body
      else inl "pattern outside the literal-and-dot fragment"
  | _ => inl "pattern outside the literal-and-dot fragment"
  end.

Definition fragmentEngine : RegexpEngine :=
  {| Regexp := string; Compile := fragmentCompile; Match := prefixDot |}.


(** ** Vocabulary of the statements *)

(** The status string [Create] reads off an answer of [DescribeStacks]: that
    of the first stack, when the call succeeded and returned one. *)
Definition statusOf (r : error + DescribeStacksOutput) : option string :=
  match r with
  | inr resp =>
      match Stacks resp with
      | stack0 :: _ => Some (aws.StringValue (StackStatus stack0))
      | [] => None
      end
  | inl _ => None
  end.

Definition reasonOf (r : error + DescribeStacksOutput) : string :=
  match r with
  | inr resp =>
      match Stacks resp with
      | stack0 :: _ => aws.StringValue (StackStatusReason stack0)
      | [] => ""
      end
  | inl _ => ""
  end.

Definition inProgress (r : error + DescribeStacksOutput) : Prop :=
  statusOf r = Some ResourceStatusCreateInProgress.

(** One poll followed by one three-second delay, for every answer in [pre]. *)
Definition pollAndSleep (req : DescribeStacksInput)
    (pre : list (error + DescribeStacksOutput)) : list Event :=
  flat_map (fun _ => [DescribeStacksCall req; Sleep (3 * Second)]) pre.

Definition isSleep (e : Event) : bool :=
  match e with Sleep _ => true | _ => false end.

Definition isPoll (e : Event) : bool :=
  match e with DescribeStacksCall _ => true | _ => false end.

Definition delays (t : list Event) : nat := length (filter isSleep t).
Definition polls (t : list Event) : nat := length (filter isPoll t).

Definition stackWithStatus (status reason : string) : error + DescribeStacksOutput :=
  inr {| Stacks := [ {| StackStatus := Some status;
                        StackStatusReason := Some reason |} ] |}.

(** A successful listing: pages that announce a successor, then a final page
    without continuation token. *)
Definition morePages (p : ListStackResourcesOutput) : Prop :=
  aws.StringValue (lsro_NextToken p) <> "".

Definition finalPage (p : ListStackResourcesOutput) : Prop :=
  aws.StringValue (lsro_NextToken p) = "".

Definition listing (pages : list ListStackResourcesOutput)
    (final : ListStackResourcesOutput) : list (error + ListStackResourcesOutput) :=
  map inr pages ++ [inr final].

Definition listed (pages : list ListStackResourcesOutput)
    (final : ListStackResourcesOutput) : list StackResourceSummary :=
  flat_map StackResourceSummaries (pages ++ [final]).

(** The calls [Info] issues for such a listing: the first without token,
    each further one with the token of the page before. *)
Definition listingCalls (c : Cluster) (first : option string)
    (pages : list ListStackResourcesOutput) : list Event :=
  map (fun token => ListStackResourcesCall
                      {| lsri_StackName := Some (ClusterName c);
                         lsri_NextToken := token |})
      (first :: map lsro_NextToken pages).

Definition isController (r : StackResourceSummary) : bool :=
  String.eqb (aws.StringValue (LogicalResourceId r)) "EIPController".

Definition IncompleteStackError : error :=
  "unable to get public IP of controller instance".

Definition resource (logical : string) (physical : option string) : StackResourceSummary :=
  {| LogicalResourceId := Some logical; PhysicalResourceId := physical |}.

Definition page (resources : list StackResourceSummary) (next : option string)
    : ListStackResourcesOutput :=
  {| StackResourceSummaries := resources; lsro_NextToken := next |}.

Definition mycluster : Cluster :=
  {| ClusterName := "mycluster"; Region := "us-west-1"; VPCID := "";
     VPCCIDR := "10.0.0.0/16"; InstanceCIDR := "10.0.0.0/24" |}.

(** The conflict check shows in the events as its lookup of the VPC, the
    call [validateExistingVPC] opens with and nothing else issues. *)
Definition isVpcLookup (e : Event) : bool :=
  match e with DescribeVpcsCall _ => true | _ => false end.

Definition isSubnetListing (e : Event) : bool :=
  match e with DescribeSubnetsCall _ => true | _ => false end.

Definition conflictCheckInvoked (t : list Event) : bool := existsb isVpcLookup t.

Definition validateTemplateCall (stackBody : string) : Event :=
  ValidateTemplateCall {| vti_TemplateBody := Some stackBody |}.

Definition describeByNameCall (c : Cluster) : Event :=
  DescribeStacksCall {| dsi_StackName := Some (ClusterName c) |}.

Definition describeVpcsCall (c : Cluster) : Event :=
  DescribeVpcsCall {| VpcIds := [Some (VPCID c)] |}.

Definition existingVpcNotice : Event :=
  Println "Existing VPC detected. Will validate for subnet cidr conflicts".

Section Classification.

Context {RE : RegexpEngine}.
Variable svc : Services.
Variables (c : Cluster) (stackBody : string).

(** The template validated, the pattern compiled, and the describe-by-name
    call failed with an error whose text matches the pattern: [stackExists]
    is false. *)
Definition classifiedAbsent (report : ValidateTemplateOutput) : Prop :=
  ValidateTemplate svc {| vti_TemplateBody := Some stackBody |} = inr report /\
  exists re err,
    Compile (stackNotExistPattern (ClusterName c)) = inr re /\
    DescribeStacks svc {| dsi_StackName := Some (ClusterName c) |} = inl err /\
    Match re err = true.

(** The template validated, the pattern compiled, and the describe-by-name
    call returned at most one stack: [stackExists] is true. *)
Definition classifiedPresent (report : ValidateTemplateOutput) : Prop :=
  ValidateTemplate svc {| vti_TemplateBody := Some stackBody |} = inr report /\
  exists re described,
    Compile (stackNotExistPattern (ClusterName c)) = inr re /\
    DescribeStacks svc {| dsi_StackName := Some (ClusterName c) |} = inr described /\
    (length (Stacks described) <= 1)%nat.

End Classification.

(** What [ValidateStack] returns once the conflict check has ended. *)
Definition afterConflictCheck (report : ValidateTemplateOutput)
    (o : outcome (option error)) : outcome (string * option error) :=
  match o with
  | Return (Some err) => Return ("", Some err)
  | Return None => Return (vto_String report, None)
  | Panic r => Panic r
  end.

(** The errors of the conflict check that the statements name. *)
Definition StaleTopologyError (c : Cluster) (liveCidr : string) : error :=
  ("configured vpcCidr (" ++ VPCCIDR c
     ++ ") does not match actual existing vpc cidr (" ++ liveCidr ++ ")")%string.

Definition SubnetConflictError (subnetNet : net.IPNet) (subnetId : string)
    (existingSubnetNet : net.IPNet) : error :=
  ("instance cidr (" ++ net.IPNet_String subnetNet
     ++ ") conflicts with existing subnet " ++ subnetId
     ++ ", cidr=" ++ net.IPNet_String existingSubnetNet)%string.

(** The one subnet listing [validateExistingVPC] requests: filtered by the
    id of the VPC found. *)
Definition subnetsInput (existingVPC : Vpc) : DescribeSubnetsInput :=
  {| Filters := [ {| f_Name := Some "vpc-id"; f_Values := [VpcId existingVPC] |} ] |}.

(** An existing subnet that the loop passes over: its CIDR is there, parses,
    and does not overlap the instance CIDR. *)
Definition clearOf (subnetIP : net.IP) (subnetNet : net.IPNet) (s : Subnet) : Prop :=
  exists cidr existingSubnetIP existingSubnetNet,
    CidrBlock s = Some cidr /\
    net.ParseCIDR cidr = inr (existingSubnetIP, existingSubnetNet) /\
    overlaps existingSubnetIP existingSubnetNet subnetIP subnetNet = false.

(** *** The scan order the spec describes

    Subnets sorted by subnet id (byte-wise string order) before the scan. *)
Definition subnetIdLeb (a b : Subnet) : bool :=
  String.leb (aws.StringValue (SubnetId a)) (aws.StringValue (SubnetId b)).

Fixpoint insertBySubnetId (s : Subnet) (sorted : list Subnet) : list Subnet :=
  match sorted with
  | [] => [s]
  | x :: rest =>
      if subnetIdLeb s x then s :: sorted else x :: insertBySubnetId s rest
  end.

Definition sortBySubnetId (subnets : list Subnet) : list Subnet :=
  fold_right insertBySubnetId [] subnets.

(** *** Sample providers and clusters *)

Definition subnet (id cidr : string) : Subnet :=
  {| SubnetId := Some id; CidrBlock := Some cidr |}.

Definition provider (described : error + DescribeStacksOutput)
    (vpcs : list Vpc) (subnets : DescribeSubnetsInput -> error + DescribeSubnetsOutput)
    : Services :=
  {| ValidateTemplate := fun _ => inr {| vto_String := "{ Description: kubernetes }" |};
     DescribeStacks := fun _ => described;
     DescribeVpcs := fun _ => inr {| Vpcs := vpcs |};
     DescribeSubnets := subnets;
     CreateStack := fun i => inr {| cso_StackId := csi_StackName i |} |}.

(** A provider that answers every subnet listing with the same subnets. *)
Definition unpaged (subnets : list Subnet) : DescribeSubnetsInput -> error + DescribeSubnetsOutput :=
  fun _ => inr {| Subnets := subnets |}.

Definition notFound (name : string) : error + DescribeStacksOutput :=
  inl ("ValidationError: Stack with id " ++ name ++ " does not exist")%string.

Definition vpc1 (cidr : string) : Vpc :=
  {| VpcId := Some "vpc-1"; vpc_CidrBlock := Some cidr |}.

Definition inVpc (vpcCidr instanceCidr : string) : Cluster :=
  {| ClusterName := "mycluster"; Region := "us-west-1"; VPCID := "vpc-1";
     VPCCIDR := vpcCidr; InstanceCIDR := instanceCidr |}.

Definition twoSubnets : list Subnet :=
  [subnet "subnet-2" "10.0.1.0/24"; subnet "subnet-1" "10.0.2.0/24"].

(** What a scan of the subnets in sorted subnet-id order would report. *)
Definition sortedScan (instanceCidr : string) (subnets : list Subnet)
    : outcome (option error) :=
  match net.ParseCIDR instanceCidr with
  | inr (subnetIP, subnetNet) =>
      result (scanSubnets subnetIP subnetNet (sortBySubnetId subnets))
  | inl err =>
      Return (Some ("error parsing instances cidr " ++ instanceCidr ++ " : " ++ err)%string)
  end.

Definition dottedCluster : Cluster :=
  {| ClusterName := "my.cluster"; Region := "us-west-1"; VPCID := "";
     VPCCIDR := ""; InstanceCIDR := "10.0.0.0/24" |}.

(** *** Networks and their address ranges *)

(** The address is an IPv4 address in its IPv6-mapped form, written as an
    IPv6 text, under a prefix shorter than the 96 bits of the mapping
    prefix. *)
Definition mappedBelow96 (ip : net.IP) (n : net.IPNet) : bool :=
  negb (net.is_nil (net.To4 ip))
  && (length (net.IPNet_Mask n) =? net.IPv6len)%nat
  && (net.simpleMaskLength (net.IPNet_Mask n) <? 96).

Definition isByte (b : Z) : Prop := 0 <= b <= 255.

(** The address [Contains] compares: the four-byte form when there is one. *)
Definition norm (ip : net.IP) : net.IP :=
  if net.is_nil (net.To4 ip) then ip else net.To4 ip.

(** *** The address range of a prefix

    Addresses are taken in the one space of 128 bits, the IPv4 address
    a.b.c.d being ::ffff:a.b.c.d there, which is also the sixteen-byte form
    in which [ParseCIDR] returns it.  Bit 0 of an address is the most
    significant bit of its first byte. *)
Definition addressBit (x : net.IP) (k : nat) : bool :=
  Z.testbit (net.idx x (k / 8)) (7 - Z.of_nat (k mod 8)).

(** The length of a network's prefix in that space: the leading ones of its
    mask, behind the 96 bits of ::ffff:0:0/96 when the mask is the four-byte
    mask of a dotted quad. *)
Definition prefixLength (n : net.IPNet) : Z :=
  net.simpleMaskLength (net.IPNet_Mask n)
  + (if (length (net.IPNet_Mask n) =? net.IPv4len)%nat then 96 else 0).

(** The address range of the CIDR with address [ip] and network [n]: the
    addresses, of sixteen bytes, whose first [prefixLength n] bits are those
    of [ip]. *)
Definition inPrefix (ip : net.IP) (n : net.IPNet) (x : net.IP) : Prop :=
  length x = net.IPv6len /\ Forall isByte x /\
  forall k : nat, Z.of_nat k < prefixLength n -> addressBit x k = addressBit ip k.

Definition prefixesIntersect (ipA : net.IP) (netA : net.IPNet)
    (ipB : net.IP) (netB : net.IPNet) : Prop :=
  exists x, inPrefix ipA netA x /\ inPrefix ipB netB x.

(** Two parsed addresses are of one family: both IPv4, written as a dotted
    quad or as an IPv4-mapped IPv6 address, or both IPv6 outside
    ::ffff:0:0/96. *)
Definition sameFamily (ipA ipB : net.IP) : bool :=
  Bool.eqb (net.bytesEqual (firstn 12 ipA) net.v4InV6Prefix)
           (net.bytesEqual (firstn 12 ipB) net.v4InV6Prefix).

(** The first [k] bits of two addresses, compared one by one. *)
Definition sameBits (k : nat) (x y : net.IP) : bool :=
  forallb (fun i => Bool.eqb (addressBit x i) (addressBit y i)) (seq 0 k).

(** *** Vocabulary of the facts about [net] *)

Module netDefs.
Import net.

(** What the main loop of [parseIPv6] keeps true of the bytes stored. *)
Definition stored (i : nat) (ip : list Z) : Prop :=
  length ip = i /\ Nat.Even i /\ (i <= 16)%nat /\ Forall isByte ip.

(** A parsed CIDR: a sixteen-byte address, and the network obtained by
    masking it with the mask of [p] leading ones, of 32 bits for a dotted
    quad and of 128 bits otherwise. *)
Definition parsedAs (ip : IP) (n : IPNet) (bits p : Z) : Prop :=
  0 <= p <= bits /\
  n = mkIPNet (IP_Mask ip (CIDRMask p bits)) (CIDRMask p bits) /\
  length ip = 16%nat /\ Forall isByte ip.

(** The prefix lengths [0..k]. *)
Definition upTo (k : nat) : list Z := map Z.of_nat (seq 0 (S k)).

(** Checks on the mask of [p] leading ones, run over all prefix lengths. *)
Definition maskCheck32 (p : Z) : bool :=
  (length (CIDRMask p 32) =? 4)%nat.

Definition maskCheck128 (p : Z) : bool :=
  let m := CIDRMask p 128 in
  (length m =? 16)%nat && (simpleMaskLength m =? p)
  && (if 96 <=? p then bytesEqual m (repeat 255 12 ++ CIDRMask (p - 96) 32)
      else (0 <=? idx m 11) && (idx m 11 <? 255)).

(** The mask byte with [n] leading ones, [n < 8]. *)
Definition partialByte (n : Z) : Z := Z.lxor 255 (Z.shiftr 255 n).

(** How [Contains] sees a parsed CIDR: the address in the form [norm] gives
    it, [len] bytes long, and the network number that address has under the
    mask of [q] leading ones. *)
Definition seenAs (ip : IP) (n : IPNet) (len : nat) (bits q : Z) : Prop :=
  networkNumberAndMask n
    = (andBytes (norm ip) (CIDRMask q bits), CIDRMask q bits) /\
  length (norm ip) = len /\
  length (CIDRMask q bits) = len /\
  ((len = 4%nat /\ bits = 32) \/ (len = 16%nat /\ bits = 128)) /\
  0 <= q <= bits.

End netDefs.

(** ** [Update] and [Destroy] *)

(** Modelled from the spec: the update and delete requests and responses,
    and the update status names, of the vendored CloudFormation client (its
    sources are not under src/), with the string values the client defines.
    Of an update response only the stack id and the [String()] rendering are
    used; of a delete response nothing is. *)
Definition ResourceStatusUpdateComplete : string := "UPDATE_COMPLETE".
Definition ResourceStatusUpdateFailed : string := "UPDATE_FAILED".
Definition ResourceStatusUpdateInProgress : string := "UPDATE_IN_PROGRESS".
Definition StackStatusUpdateRollbackComplete : string := "UPDATE_ROLLBACK_COMPLETE".
Definition StackStatusUpdateRollbackFailed : string := "UPDATE_ROLLBACK_FAILED".

Record UpdateStackInput := {
  usi_Capabilities : list (option string);
  usi_StackName : option string;
  usi_TemplateBody : option string
}.

Record UpdateStackOutput := {
  uso_StackId : option string;
  uso_String : string
}.

Record DeleteStackInput := { dli_StackName : option string }.

Record DeleteStackOutput := { }.

(** The answers of the provider to the submissions of [Update] and
    [Destroy]. *)
Record StackServices := {
  UpdateStack : UpdateStackInput -> error + UpdateStackOutput;
  DeleteStack : DeleteStackInput -> error + DeleteStackOutput
}.

(** The events of [Update] and [Destroy]: those of the polling loop, and the
    two submissions. *)
Inductive StackEvent :=
| Polling (e : Event)
| UpdateStackCall (i : UpdateStackInput)
| DeleteStackCall (i : DeleteStackInput).

(** The polling loop of [Update], as a function of the answers of
    [DescribeStacks]; [updateOutput] is what [UpdateStack] returned. *)
Fixpoint Update_poll (updateOutput : UpdateStackOutput) (req : DescribeStacksInput)
    (responses : list (error + DescribeStacksOutput))
    : Run (error + DescribeStacksOutput) (string * option error) :=
  match responses with
  | [] => ([DescribeStacksCall req], AwaitingResponse, [])
  | inl err :: rest => ([DescribeStacksCall req], Finished ("", Some err), rest)
  | inr resp :: rest =>
      match Stacks resp with
      | [] => ([DescribeStacksCall req], Finished ("", Some "stack not found"), rest)
      | stack0 :: _ =>
          let statusString := aws.StringValue (StackStatus stack0) in
          if String.eqb statusString ResourceStatusUpdateComplete then
            ([DescribeStacksCall req], Finished (uso_String updateOutput, None), rest)
          else if String.eqb statusString ResourceStatusUpdateFailed
                  || String.eqb statusString StackStatusUpdateRollbackComplete
                  || String.eqb statusString StackStatusUpdateRollbackFailed then
            let errMsg := ("Stack status: " ++ statusString ++ " : "
                             ++ aws.StringValue (StackStatusReason stack0))%string in
            ([DescribeStacksCall req], Finished ("", Some errMsg), rest)
          else if String.eqb statusString ResourceStatusUpdateInProgress then
            let '(t, p, rest') := Update_poll updateOutput req rest in
            (DescribeStacksCall req :: Sleep (3 * Second) :: t, p, rest')
          else
            ([DescribeStacksCall req],
             Finished ("", Some ("unexpected stack status: " ++ statusString)%string),
             rest)
      end
  end.

Definition Update (ssvc : StackServices) (c : Cluster) (stackBody : string)
    (responses : list (error + DescribeStacksOutput))
    : list StackEvent * Progress (string * option error)
      * list (error + DescribeStacksOutput) :=
  let input := {| usi_Capabilities := [Some CapabilityCapabilityIam];
                  usi_StackName := Some (ClusterName c);
                  usi_TemplateBody := Some stackBody |} in
  match UpdateStack ssvc input with
  | inl err =>
      ([UpdateStackCall input],
       Finished ("", Some ("error updating cloudformation stack: " ++ err)%string),
       responses)
  | inr updateOutput =>
      let req := {| dsi_StackName := uso_StackId updateOutput |} in
      let '(t, p, rest) := Update_poll updateOutput req responses in
      (UpdateStackCall input :: map Polling t, p, rest)
  end.

Definition Destroy (ssvc : StackServices) (c : Cluster) : list StackEvent * option error :=
  let dreq := {| dli_StackName := Some (ClusterName c) |} in
  ([DeleteStackCall dreq],
   match DeleteStack ssvc dreq with
   | inl err => Some err
   | inr _ => None
   end).

(** ** Vocabulary of the further statements *)

(** The two events a polling loop causes. *)
Definition pollEvent (req : DescribeStacksInput) (e : Event) : Prop :=
  e = DescribeStacksCall req \/ e = Sleep (3 * Second).

Definition updateInProgress (r : error + DescribeStacksOutput) : Prop :=
  statusOf r = Some ResourceStatusUpdateInProgress.

(** The statuses [Update] takes for a failed update. *)
Definition updateFailure (status : string) : bool :=
  String.eqb status ResourceStatusUpdateFailed
  || String.eqb status StackStatusUpdateRollbackComplete
  || String.eqb status StackStatusUpdateRollbackFailed.

(** The request [Create] submits. *)
Definition createRequest (c : Cluster) (stackBody : string) : CreateStackInput :=
  {| csi_StackName := Some (ClusterName c);
     csi_OnFailure := Some "DO_NOTHING";
     csi_Capabilities := [Some CapabilityCapabilityIam];
     csi_TemplateBody := Some stackBody |}.

(** The request [Update] submits. *)
Definition updateRequest (c : Cluster) (stackBody : string) : UpdateStackInput :=
  {| usi_Capabilities := [Some CapabilityCapabilityIam];
     usi_StackName := Some (ClusterName c);
     usi_TemplateBody := Some stackBody |}.

(** The physical id of the last controller-address resource listed, or the
    empty string when there is none. *)
Definition lastControllerIP (resources : list StackResourceSummary) : string :=
  last (map (fun r => aws.StringValue (PhysicalResourceId r))
            (filter isController resources)) "".

Definition populated (r : StackResourceSummary) : Prop :=
  isController r = true -> PhysicalResourceId r <> None.

(** A stack answer with a status and no reason. *)
Definition stackIn (status : string) : error + DescribeStacksOutput :=
  inr {| Stacks := [ {| StackStatus := Some status; StackStatusReason := None |} ] |}.

Definition stackServices (update : error + UpdateStackOutput)
    (delete : error + DeleteStackOutput) : StackServices :=
  {| UpdateStack := fun _ => update; DeleteStack := fun _ => delete |}.

(** Bytes a cluster name may hold without meaning anything to the regular
    expression: ASCII, and neither a metacharacter nor a dot. *)
Definition plainByte (c : ascii) : bool := isASCII c && negb (isMeta c).

(** [body] is an initial segment of [subject]. *)
Fixpoint hasPrefix (body subject : string) : bool :=
  match body, subject with
  | EmptyString, _ => true
  | String p body', String c subject' => Ascii.eqb c p && hasPrefix body' subject'
  | String _ _, EmptyString => false
  end.

(** The dotted-quad text of four bytes, as [IP.String] prints it. *)
Definition dottedQuad (a b c d : Z) : string :=
  (uitoa a ++ "." ++ uitoa b ++ "." ++ uitoa c ++ "." ++ uitoa d)%string.

(** What the parsers need to know of the decimal text of a number. *)
Definition decimalFacts (v : Z) : Prop :=
  (forall rest, net.dtoi (uitoa v ++ String "." rest)
                = (v, len (uitoa v), true)) /\
  net.dtoi (uitoa v) = (v, len (uitoa v), true) /\
  byteIndex (uitoa v) "/" = None /\
  len (uitoa v) <> 0%nat.
(** * Verification *)

Lemma fragmentEngine_sound : DotLiteralSound fragmentEngine.
Proof.
  intros body Hbody. exists body. split.
  - cbn. rewrite Hbody. reflexivity.
  - reflexivity.
Qed.

(** ** The polling loop of [Create] *)

Section CreateLoop.

Variable req : DescribeStacksInput.

Lemma pollAndSleep_counts (pre : list (error + DescribeStacksOutput)) :
  delays (pollAndSleep req pre) = length pre /\
  polls (pollAndSleep req pre) = length pre.
Proof.
  unfold delays, polls, pollAndSleep.
  induction pre as [|r pre [IHd IHp]]; cbn; auto.
Qed.

Lemma Create_poll_in_progress r rest :
  inProgress r ->
  Create_poll req (r :: rest) =
    let '(t, p, rest') := Create_poll req rest in
    (DescribeStacksCall req :: Sleep (3 * Second) :: t, p, rest').
Proof.
  unfold inProgress, statusOf.
  destruct r as [e|resp]; [discriminate|].
  cbn [Create_poll]. destruct (Stacks resp) as [|stack0 others]; [discriminate|].
  intros [= ->]. reflexivity.
Qed.

Lemma Create_poll_after_in_progress pre tail :
  Forall inProgress pre ->
  Create_poll req (pre ++ tail) =
    let '(t, p, rest') := Create_poll req tail in
    (pollAndSleep req pre ++ t, p, rest').
Proof.
  induction 1 as [|r pre Hr _ IH]; cbn [app].
  - destruct (Create_poll req tail) as [[t p] rest']. reflexivity.
  - rewrite (Create_poll_in_progress _ _ Hr), IH.
    destruct (Create_poll req tail) as [[t p] rest']. reflexivity.
Qed.

Lemma Create_poll_terminal r rest status :
  statusOf r = Some status ->
  status <> ResourceStatusCreateInProgress ->
  Create_poll req (r :: rest) =
    ([DescribeStacksCall req],
     Finished
       (if String.eqb status ResourceStatusCreateComplete then None
        else if String.eqb status ResourceStatusCreateFailed then
          Some ("Stack creation failed: " ++ status ++ " : " ++ reasonOf r)%string
        else Some ("unexpected stack status: " ++ status)%string),
     rest).
Proof.
  unfold statusOf, reasonOf.
  destruct r as [e|resp]; [discriminate|].
  cbn [Create_poll]. destruct (Stacks resp) as [|stack0 others]; [discriminate|].
  intros [= <-] Hnot.
  destruct (String.eqb _ ResourceStatusCreateComplete); [reflexivity|].
  destruct (String.eqb _ ResourceStatusCreateFailed); [reflexivity|].
  destruct (String.eqb_spec (aws.StringValue (StackStatus stack0))
              ResourceStatusCreateInProgress) as [E|_]; [contradiction|reflexivity].
Qed.

(** The polling loop on its own, for a request [req]: run on answers in
    progress it sleeps three seconds after each and asks again; the first
    answer of another status ends it, with the answers behind left
    unconsumed. *)
Lemma Create_poll_run
    (pre : list (error + DescribeStacksOutput))
    (r : error + DescribeStacksOutput)
    (rest : list (error + DescribeStacksOutput)) :
  Forall inProgress pre ->
  let t := pollAndSleep req pre ++ [DescribeStacksCall req] in
  (delays t = length pre /\ polls t = S (length pre)) /\
  Create_poll req pre = (t, AwaitingResponse, []) /\
  (statusOf r = Some ResourceStatusCreateComplete ->
     Create_poll req (pre ++ r :: rest) = (t, Finished None, rest)) /\
  (statusOf r = Some ResourceStatusCreateFailed ->
     Create_poll req (pre ++ r :: rest) =
       (t, Finished (Some ("Stack creation failed: CREATE_FAILED : " ++ reasonOf r)%string),
        rest)) /\
  (forall status,
     statusOf r = Some status ->
     status <> ResourceStatusCreateInProgress ->
     status <> ResourceStatusCreateComplete ->
     status <> ResourceStatusCreateFailed ->
     Create_poll req (pre ++ r :: rest) =
       (t, Finished (Some ("unexpected stack status: " ++ status)%string), rest)) /\
  (forall reason1 reason2 reason3,
     let answers := [stackWithStatus ResourceStatusCreateInProgress reason1;
                     stackWithStatus ResourceStatusCreateInProgress reason2;
                     stackWithStatus ResourceStatusCreateComplete reason3] in
     exists t3, Create_poll req (answers ++ rest) = (t3, Finished None, rest) /\
                delays t3 = 2%nat /\ polls t3 = 3%nat).
Proof.
  intros Hpre t.
  assert (Hterm : forall status,
            statusOf r = Some status ->
            status <> ResourceStatusCreateInProgress ->
            Create_poll req (pre ++ r :: rest) =
              (t, Finished
                    (if String.eqb status ResourceStatusCreateComplete then None
                     else if String.eqb status ResourceStatusCreateFailed then
                       Some ("Stack creation failed: " ++ status ++ " : " ++ reasonOf r)%string
                     else Some ("unexpected stack status: " ++ status)%string),
               rest)).
  { intros status Hs Hnot.
    rewrite (Create_poll_after_in_progress pre (r :: rest) Hpre),
            (Create_poll_terminal r rest status Hs Hnot).
    reflexivity. }
  repeat split.
  - unfold delays, t. rewrite filter_app, length_app.
    fold (delays (pollAndSleep req pre)).
    rewrite (proj1 (pollAndSleep_counts pre)). cbn. lia.
  - unfold polls, t. rewrite filter_app, length_app.
    fold (polls (pollAndSleep req pre)).
    rewrite (proj2 (pollAndSleep_counts pre)). cbn. lia.
  - rewrite <- (app_nil_r pre) at 1.
    rewrite (Create_poll_after_in_progress pre [] Hpre). reflexivity.
  - intros Hs. rewrite (Hterm _ Hs); [reflexivity|discriminate].
  - intros Hs. rewrite (Hterm _ Hs); [reflexivity|discriminate].
  - intros status Hs Hip Hc Hf. rewrite (Hterm _ Hs Hip).
    destruct (String.eqb_spec status ResourceStatusCreateComplete); [contradiction|].
    destruct (String.eqb_spec status ResourceStatusCreateFailed); [contradiction|].
    reflexivity.
  - intros. eexists. split; [reflexivity|]. split; reflexivity.
Qed.

End CreateLoop.

(** [Create] submits the stack once and then runs the polling loop on the
    stack id the provider returned; when the submission fails it returns that
    error without polling. *)
Lemma Create_submits_then_polls svc c stackBody responses :
  let creq := {| csi_StackName := Some (ClusterName c);
                 csi_OnFailure := Some "DO_NOTHING";
                 csi_Capabilities := [Some CapabilityCapabilityIam];
                 csi_TemplateBody := Some stackBody |} in
  match CreateStack svc creq with
  | inl err =>
      Create svc c stackBody responses
        = ([CreateStackCall creq], Finished (Some err), responses)
  | inr resp =>
      Create svc c stackBody responses
        = (CreateStackCall creq
             :: fst (fst (Create_poll {| dsi_StackName := cso_StackId resp |} responses)),
           snd (fst (Create_poll {| dsi_StackName := cso_StackId resp |} responses)),
           snd (Create_poll {| dsi_StackName := cso_StackId resp |} responses))
  end.
Proof.
  intros creq. unfold Create. fold creq.
  destruct (CreateStack svc creq) as [err|resp]; [reflexivity|].
  destruct (Create_poll _ responses) as [[t p] rest]. reflexivity.
Qed.

(** C2.  [Create] as a function of the sequence of [DescribeStacks] answers,
    once the provider has accepted the stack: the stack is submitted once and
    the polling addresses the stack id the provider returned.  Every
    CREATE_IN_PROGRESS answer costs exactly one three-second sleep and is
    followed by another poll; the first CREATE_COMPLETE returns nil; the
    first CREATE_FAILED returns an error that carries the provider's status
    reason; any other status returns the unexpected-status error.  In the
    three terminal cases the answers behind the terminal one are left
    unconsumed: no further poll is issued.  Two answers in progress and then
    completion give success after exactly two delays. *)
Theorem Create_lifecycle (svc : Services) (c : Cluster) (stackBody : string)
    (resp : CreateStackOutput)
    (pre : list (error + DescribeStacksOutput))
    (r : error + DescribeStacksOutput)
    (rest : list (error + DescribeStacksOutput)) :
  CreateStack svc (createRequest c stackBody) = inr resp ->
  Forall inProgress pre ->
  let req := {| dsi_StackName := cso_StackId resp |} in
  let t := CreateStackCall (createRequest c stackBody)
             :: pollAndSleep req pre ++ [DescribeStacksCall req] in
  (delays t = length pre /\ polls t = S (length pre)) /\
  Create svc c stackBody pre = (t, AwaitingResponse, []) /\
  (statusOf r = Some ResourceStatusCreateComplete ->
     Create svc c stackBody (pre ++ r :: rest) = (t, Finished None, rest)) /\
  (statusOf r = Some ResourceStatusCreateFailed ->
     Create svc c stackBody (pre ++ r :: rest) =
       (t, Finished (Some ("Stack creation failed: CREATE_FAILED : " ++ reasonOf r)%string),
        rest)) /\
  (forall status,
     statusOf r = Some status ->
     status <> ResourceStatusCreateInProgress ->
     status <> ResourceStatusCreateComplete ->
     status <> ResourceStatusCreateFailed ->
     Create svc c stackBody (pre ++ r :: rest) =
       (t, Finished (Some ("unexpected stack status: " ++ status)%string), rest)) /\
  (forall reason1 reason2 reason3,
     let answers := [stackWithStatus ResourceStatusCreateInProgress reason1;
                     stackWithStatus ResourceStatusCreateInProgress reason2;
                     stackWithStatus ResourceStatusCreateComplete reason3] in
     exists t3, Create svc c stackBody (answers ++ rest) = (t3, Finished None, rest) /\
                delays t3 = 2%nat /\ polls t3 = 3%nat).
Proof.
  intros Hsubmit Hpre req t.
  assert (Hrun : forall responses,
            Create svc c stackBody responses =
              (CreateStackCall (createRequest c stackBody)
                 :: fst (fst (Create_poll req responses)),
               snd (fst (Create_poll req responses)),
               snd (Create_poll req responses))).
  { intros responses.
    pose proof (Create_submits_then_polls svc c stackBody responses) as H.
    cbv zeta in H. fold (createRequest c stackBody) in H.
    rewrite Hsubmit in H. exact H. }
  destruct (Create_poll_run req pre r rest Hpre)
    as ((Hd & Hp) & Hwait & Hdone & Hfail & Hother & Hthree).
  cbv zeta in Hd, Hp, Hwait, Hdone, Hfail, Hother.
  split; [|split; [|split; [|split; [|split]]]].
  - split.
    + unfold t, delays. cbn [filter isSleep]. exact Hd.
    + unfold t, polls. cbn [filter isPoll]. exact Hp.
  - rewrite Hrun, Hwait. reflexivity.
  - intros Hs. rewrite Hrun, (Hdone Hs). reflexivity.
  - intros Hs. rewrite Hrun, (Hfail Hs). reflexivity.
  - intros status Hs Hip Hc Hf. rewrite Hrun, (Hother status Hs Hip Hc Hf). reflexivity.
  - intros reason1 reason2 reason3 answers.
    destruct (Hthree reason1 reason2 reason3) as (t3 & Hrun3 & Hd3 & Hp3).
    exists (CreateStackCall (createRequest c stackBody) :: t3).
    split; [|split].
    + rewrite Hrun. fold answers in Hrun3. rewrite Hrun3. reflexivity.
    + unfold delays. cbn [filter isSleep]. exact Hd3.
    + unfold polls. cbn [filter isPoll]. exact Hp3.
Qed.

Lemma Create_lifecycle_witness :
  let P := provider (notFound "mycluster") [] (unpaged []) in
  let body := "{ Resources: {} }" in
  let submit := CreateStackCall (createRequest mycluster body) in
  let req := {| dsi_StackName := Some (ClusterName mycluster) |} in
  let pending := stackWithStatus ResourceStatusCreateInProgress "User Initiated" in
  Create P mycluster body [pending; pending; stackWithStatus ResourceStatusCreateComplete ""]
    = ([submit;
        DescribeStacksCall req; Sleep 3000000000;
        DescribeStacksCall req; Sleep 3000000000;
        DescribeStacksCall req], Finished None, []) /\
  Create P mycluster body [pending; stackWithStatus ResourceStatusCreateFailed "X"; pending]
    = ([submit; DescribeStacksCall req; Sleep 3000000000; DescribeStacksCall req],
       Finished (Some "Stack creation failed: CREATE_FAILED : X"), [pending]) /\
  Create P mycluster body [stackWithStatus "ROLLBACK_IN_PROGRESS" ""; pending]
    = ([submit; DescribeStacksCall req],
       Finished (Some "unexpected stack status: ROLLBACK_IN_PROGRESS"), [pending]).
Proof.
  intros P body submit req pending.
  assert (Hs : CreateStack P (createRequest mycluster body)
               = inr {| cso_StackId := Some (ClusterName mycluster) |}) by reflexivity.
  split; [|split].
  - apply (Create_lifecycle P mycluster body _ [pending; pending]
             (stackWithStatus ResourceStatusCreateComplete "") [] Hs).
    + repeat constructor.
    + reflexivity.
  - apply (Create_lifecycle P mycluster body _ [pending]
             (stackWithStatus ResourceStatusCreateFailed "X") [pending] Hs).
    + repeat constructor.
    + reflexivity.
  - destruct (Create_lifecycle P mycluster body _ []
                (stackWithStatus "ROLLBACK_IN_PROGRESS" "") [pending] Hs
                (Forall_nil _)) as (_ & _ & _ & _ & Hother & _).
    apply (Hother "ROLLBACK_IN_PROGRESS"); [reflexivity| | |]; discriminate.
Defined.

(** ** [Info]: listing and scanning the stack's resources *)

Section InfoListing.

Variable c : Cluster.

Lemma Info_list_complete pages final rest :
  Forall morePages pages -> finalPage final ->
  forall first resources,
    Info_list c first resources (map inr pages ++ inr final :: rest) =
      (listingCalls c first pages,
       Finished (inr (resources ++ listed pages final)), rest).
Proof.
  unfold listed, listingCalls.
  induction 1 as [|p pages Hp _ IH]; intros Hfinal first resources.
  - cbn [map app Info_list flat_map]. rewrite Hfinal, app_nil_r. reflexivity.
  - cbn [map app Info_list flat_map].
    destruct (String.eqb_spec (aws.StringValue (lsro_NextToken p)) "") as [E|_];
      [contradiction|].
    rewrite (IH Hfinal), app_assoc. reflexivity.
Qed.

Lemma Info_complete pages final rest :
  Forall morePages pages -> finalPage final ->
  Info c (listing pages final ++ rest) =
    (listingCalls c None pages,
     Finished (Info_scan {| Name := ""; ControllerIP := "" |} (listed pages final)),
     rest).
Proof.
  intros Hpages Hfinal. unfold Info, listing.
  rewrite <- app_assoc. cbn [app].
  rewrite (Info_list_complete pages final rest Hpages Hfinal). reflexivity.
Qed.

Lemma Info_scan_incomplete resources :
  (exists r, In r resources /\ isController r = true /\ PhysicalResourceId r = None) ->
  forall info, Info_scan info resources = (None, Some IncompleteStackError).
Proof.
  unfold isController.
  induction resources as [|x resources IH]; intros (r & Hin & Hc & Hp) info.
  - destruct Hin.
  - cbn [Info_scan]. destruct Hin as [->|Hin].
    + rewrite Hc, Hp. reflexivity.
    + destruct (String.eqb (aws.StringValue (LogicalResourceId x)) "EIPController").
      * destruct (PhysicalResourceId x); [|reflexivity].
        apply IH. now exists r.
      * apply IH. now exists r.
Qed.

Lemma Info_scan_no_controller resources :
  Forall (fun r => isController r = false) resources ->
  forall info, Info_scan info resources = (Some info, None).
Proof.
  unfold isController.
  induction 1 as [|x resources Hx _ IH]; intros info; cbn [Info_scan].
  - reflexivity.
  - rewrite Hx. apply IH.
Qed.

Lemma Info_scan_populated before :
  Forall (fun r => isController r = true -> PhysicalResourceId r <> None) before ->
  forall info, exists ip,
    forall tail, Info_scan info (before ++ tail) =
                 Info_scan {| Name := Name info; ControllerIP := ip |} tail.
Proof.
  unfold isController.
  induction 1 as [|x before Hx _ IH]; intros info.
  - exists (ControllerIP info). intros tail. destruct info; reflexivity.
  - cbn [app Info_scan].
    destruct (String.eqb _ "EIPController").
    + destruct (PhysicalResourceId x) as [p|]; [|now elim Hx].
      destruct (IH {| Name := Name info; ControllerIP := p |}) as [ip Hip].
      exists ip. exact Hip.
    + destruct (IH info) as [ip Hip]. exists ip. exact Hip.
Qed.

(** The [Name] field of the info [Info] returns is never assigned. *)
Lemma Info_scan_Name resources :
  forall info info' err,
    Info_scan info resources = (Some info', err) -> Name info' = Name info.
Proof.
  induction resources as [|x resources IH]; intros info info' err; cbn [Info_scan].
  - intros [= <- _]. reflexivity.
  - destruct (String.eqb _ "EIPController").
    + destruct (PhysicalResourceId x); [|discriminate].
      intros H. apply IH in H. exact H.
    + apply IH.
Qed.

Lemma Info_Name_empty responses t info err rest :
  Info c responses = (t, Finished (Some info, err), rest) -> Name info = "".
Proof.
  unfold Info.
  destruct (Info_list c None [] responses) as [[t' [[e|resources]|]] rest'];
    try discriminate.
  intros [= _ H _]. apply Info_scan_Name in H. exact H.
Qed.

(** C8.  When a listed resource with logical id EIPController has no
    physical id, [Info] returns the incomplete-stack error and no info, though
    the listing succeeded; when the resource is listed with a physical id
    (and no such resource lacks one), [Info] returns that id as
    [ControllerIP], with a nil error. *)
Theorem Info_controller_physical_id pages final rest :
  Forall morePages pages -> finalPage final ->
  ((exists r, In r (listed pages final) /\ isController r = true
              /\ PhysicalResourceId r = None) ->
   Info c (listing pages final ++ rest) =
     (listingCalls c None pages, Finished (None, Some IncompleteStackError), rest))
  /\
  (forall before r after physical,
     listed pages final = before ++ r :: after ->
     isController r = true -> PhysicalResourceId r = Some physical ->
     Forall (fun x => isController x = true -> PhysicalResourceId x <> None) before ->
     Forall (fun x => isController x = false) after ->
     exists info,
       Info c (listing pages final ++ rest) =
         (listingCalls c None pages, Finished (Some info, None), rest)
       /\ ControllerIP info = physical).
Proof.
  intros Hpages Hfinal.
  rewrite (Info_complete pages final rest Hpages Hfinal). split.
  - intros Hex. rewrite (Info_scan_incomplete _ Hex). reflexivity.
  - intros before r after physical -> Hr Hphys Hbefore Hafter.
    destruct (Info_scan_populated before Hbefore {| Name := ""; ControllerIP := "" |})
      as [ip Hip].
    rewrite Hip. cbn [Info_scan Name]. unfold isController in Hr. rewrite Hr, Hphys.
    rewrite (Info_scan_no_controller after Hafter).
    eexists. split; reflexivity.
Qed.

(** C9.  When no listed resource has logical id EIPController (the empty
    listing included), [Info] succeeds: nil error and an info whose
    [ControllerIP] is the empty string. *)
Theorem Info_without_controller pages final rest :
  Forall morePages pages -> finalPage final ->
  Forall (fun r => isController r = false) (listed pages final) ->
  exists info,
    Info c (listing pages final ++ rest) =
      (listingCalls c None pages, Finished (Some info, None), rest)
    /\ ControllerIP info = "".
Proof.
  intros Hpages Hfinal Hnone.
  rewrite (Info_complete pages final rest Hpages Hfinal).
  rewrite (Info_scan_no_controller _ Hnone).
  eexists. split; reflexivity.
Qed.

End InfoListing.

Lemma Info_controller_physical_id_witness :
  Info mycluster
    [inr (page [resource "VPC" (Some "vpc-1")] (Some "t1"));
     inr (page [resource "EIPController" None] None)]
    = ([ListStackResourcesCall {| lsri_StackName := Some "mycluster"; lsri_NextToken := None |};
        ListStackResourcesCall {| lsri_StackName := Some "mycluster"; lsri_NextToken := Some "t1" |}],
       Finished (None, Some IncompleteStackError), [])
  /\
  exists info,
    Info mycluster
      [inr (page [resource "VPC" (Some "vpc-1")] (Some "t1"));
       inr (page [resource "EIPController" (Some "203.0.113.10");
                  resource "InstanceController" None] None)]
      = ([ListStackResourcesCall {| lsri_StackName := Some "mycluster"; lsri_NextToken := None |};
          ListStackResourcesCall {| lsri_StackName := Some "mycluster"; lsri_NextToken := Some "t1" |}],
         Finished (Some info, None), [])
    /\ ControllerIP info = "203.0.113.10".
Proof.
  split.
  - refine (proj1 (Info_controller_physical_id mycluster
                     [page [resource "VPC" (Some "vpc-1")] (Some "t1")]
                     (page [resource "EIPController" None] None) [] _ _) _).
    + repeat constructor. discriminate.
    + reflexivity.
    + exists (resource "EIPController" None). cbn. auto.
  - refine (proj2 (Info_controller_physical_id mycluster
                     [page [resource "VPC" (Some "vpc-1")] (Some "t1")]
                     (page [resource "EIPController" (Some "203.0.113.10");
                            resource "InstanceController" None] None) [] _ _)
                  [resource "VPC" (Some "vpc-1")]
                  (resource "EIPController" (Some "203.0.113.10"))
                  [resource "InstanceController" None]
                  "203.0.113.10" _ _ _ _ _).
    + repeat constructor. discriminate.
    + reflexivity.
    + reflexivity.
    + reflexivity.
    + reflexivity.
    + repeat constructor. discriminate.
    + repeat constructor.
Defined.

Lemma Info_without_controller_witness :
  (exists info,
     Info mycluster [inr (page [] None)]
       = ([ListStackResourcesCall {| lsri_StackName := Some "mycluster"; lsri_NextToken := None |}],
          Finished (Some info, None), [])
     /\ ControllerIP info = "")
  /\
  (exists info,
     Info mycluster [inr (page [resource "VPC" (Some "vpc-1")] (Some "t1"));
                     inr (page [resource "InstanceController" None] None)]
       = ([ListStackResourcesCall {| lsri_StackName := Some "mycluster"; lsri_NextToken := None |};
           ListStackResourcesCall {| lsri_StackName := Some "mycluster"; lsri_NextToken := Some "t1" |}],
          Finished (Some info, None), [])
     /\ ControllerIP info = "").
Proof.
  split.
  - apply (Info_without_controller mycluster [] (page [] None) []).
    + constructor.
    + reflexivity.
    + constructor.
  - apply (Info_without_controller mycluster
             [page [resource "VPC" (Some "vpc-1")] (Some "t1")]
             (page [resource "InstanceController" None] None) []).
    + repeat constructor. discriminate.
    + reflexivity.
    + repeat constructor.
Defined.

(** C7.  [Info] on a stack named mycluster whose listing holds the
    controller address with physical id 203.0.113.10: the returned info has
    that address as [ControllerIP], but its [Name] is the empty string, not
    the cluster name. *)
Theorem Info_leaves_Name_unset :
  Info mycluster [inr (page [resource "EIPController" (Some "203.0.113.10")] None)]
    = ([ListStackResourcesCall {| lsri_StackName := Some "mycluster"; lsri_NextToken := None |}],
       Finished (Some {| Name := ""; ControllerIP := "203.0.113.10" |}, None), [])
  /\ Name {| Name := ""; ControllerIP := "203.0.113.10" |} <> ClusterName mycluster.
Proof.
  split; [reflexivity|discriminate].
Qed.

(** ** Sequencing *)

Lemma bind_emit {B} (e : Event) (k : M B) :
  (emit e ;;; k) = (e :: trace k, result k).
Proof. destruct k as [t o]. reflexivity. Qed.

Lemma bind_ret {A B} (a : A) (k : A -> M B) : (x <- ret a ;; k x) = k a.
Proof. unfold bind, ret. destruct (k a) as [t o]. reflexivity. Qed.

Lemma bind_panic {A B} (r : PanicReason) (k : A -> M B) :
  (x <- panic r ;; k x) = panic r.
Proof. reflexivity. Qed.

Lemma neqb_true a b : neqb a b = true <-> a <> b.
Proof.
  unfold neqb. destruct (String.eqb_spec a b); cbn; split; congruence.
Qed.

Lemma neqb_false a b : neqb a b = false <-> a = b.
Proof.
  unfold neqb. destruct (String.eqb_spec a b); cbn; split; congruence.
Qed.

(** ** [ValidateStack] *)

Section Validation.

Context {RE : RegexpEngine}.
Variable svc : Services.

Lemma validateExistingVPC_opens_with_lookup c :
  exists t, trace (validateExistingVPC svc c) = describeVpcsCall c :: t.
Proof.
  unfold validateExistingVPC. rewrite bind_emit. eexists. reflexivity.
Qed.

Lemma ValidateStack_cases c stackBody :
  let vt := validateTemplateCall stackBody in
  let ds := describeByNameCall c in
  match ValidateTemplate svc {| vti_TemplateBody := Some stackBody |} with
  | inl err =>
      ValidateStack svc c stackBody
        = ([vt], Return ("", Some ("invalid cloudformation stack: " ++ err)%string))
  | inr report =>
      match Compile (stackNotExistPattern (ClusterName c)) with
      | inl why =>
          ValidateStack svc c stackBody
            = ([vt], Panic (MustCompileFailed (stackNotExistPattern (ClusterName c)) why))
      | inr re =>
          match stackExistsOf c re
                  (DescribeStacks svc {| dsi_StackName := Some (ClusterName c) |}) with
          | inl err => ValidateStack svc c stackBody = ([vt; ds], Return ("", Some err))
          | inr stackExists =>
              if neqb (VPCID c) "" && negb stackExists then
                ValidateStack svc c stackBody
                  = (vt :: ds :: existingVpcNotice :: trace (validateExistingVPC svc c),
                     afterConflictCheck report (result (validateExistingVPC svc c)))
              else
                ValidateStack svc c stackBody = ([vt; ds], Return (vto_String report, None))
          end
      end
  end.
Proof.
  intros vt ds. unfold ValidateStack. rewrite bind_emit.
  destruct (ValidateTemplate svc _) as [err|report]; [reflexivity|].
  unfold MustCompile.
  destruct (Compile _) as [why|re]; [reflexivity|].
  rewrite bind_ret, bind_emit.
  destruct (stackExistsOf c re _) as [err|stackExists]; [reflexivity|].
  destruct (neqb (VPCID c) "" && negb stackExists); [|reflexivity].
  rewrite bind_emit.
  destruct (validateExistingVPC svc c) as [t [[err|]|r]];
    cbn [bind ret trace result fst snd afterConflictCheck];
    rewrite ?app_nil_r; reflexivity.
Qed.

(** C1.  [ValidateStack] invokes the network-conflict check exactly when the
    VPC id is configured (non-empty) and the describe-by-name call classified
    the stack as absent; it then returns what the check returns as an error,
    or the report when the check finds nothing.  When no VPC id is
    configured, or the stack exists, no call of the check is issued and the
    validation report is returned as it is. *)
Theorem ValidateStack_conflict_check_gate c stackBody :
  (conflictCheckInvoked (trace (ValidateStack svc c stackBody)) = true <->
     VPCID c <> "" /\ exists report, classifiedAbsent svc c stackBody report) /\
  (forall report,
     VPCID c <> "" -> classifiedAbsent svc c stackBody report ->
     ValidateStack svc c stackBody
       = (validateTemplateCall stackBody :: describeByNameCall c :: existingVpcNotice
            :: trace (validateExistingVPC svc c),
          afterConflictCheck report (result (validateExistingVPC svc c)))) /\
  (forall report,
     classifiedPresent svc c stackBody report \/
     (VPCID c = "" /\ classifiedAbsent svc c stackBody report) ->
     ValidateStack svc c stackBody
       = ([validateTemplateCall stackBody; describeByNameCall c],
          Return (vto_String report, None))).
Proof.
  pose proof (ValidateStack_cases c stackBody) as H. cbv zeta in H.
  unfold classifiedAbsent, classifiedPresent.
  destruct (ValidateTemplate svc _) as [verr|report].
  { rewrite H. split; [split|split].
    - discriminate.
    - intros (_ & report & [=] & _).
    - intros report _ ([=] & _).
    - intros report [([=] & _)|(_ & [=] & _)]. }
  destruct (Compile _) as [why|re].
  { rewrite H. split; [split|split].
    - discriminate.
    - intros (_ & report' & _ & re & err & [=] & _).
    - intros report' _ (_ & re & err & [=] & _).
    - intros report' [(_ & re & d & [=] & _)|(_ & _ & re & err & [=] & _)]. }
  unfold stackExistsOf in H.
  destruct (DescribeStacks svc _) as [err|described].
  - destruct (Match re err) eqn:HM.
    + (* classified as absent *)
      destruct (neqb (VPCID c) "") eqn:HN; cbn [andb negb] in H; rewrite H.
      * apply neqb_true in HN. split; [split|split].
        -- intros _. split; [exact HN|]. exists report. split; [reflexivity|].
           exists re, err. auto.
        -- intros _. destruct (validateExistingVPC_opens_with_lookup c) as [t ->].
           reflexivity.
        -- intros report' _ ([= <-] & _). reflexivity.
        -- intros report' [(_ & re' & d & _ & [=] & _)|(Hempty & _)]. contradiction.
      * apply neqb_false in HN. split; [split|split].
        -- discriminate.
        -- intros (Hne & _). contradiction.
        -- intros report' Hne. contradiction.
        -- intros report' [([= <-] & _)|(_ & [= <-] & _)]; reflexivity.
    + rewrite H. split; [split|split].
      * discriminate.
      * intros (_ & report' & _ & re' & err' & [= <-] & [= <-] & HM').
        rewrite HM in HM'. discriminate.
      * intros report' _ (_ & re' & err' & [= <-] & [= <-] & HM').
        rewrite HM in HM'. discriminate.
      * intros report' [(_ & re' & d & _ & [=] & _)
                       |(_ & _ & re' & err' & [= <-] & [= <-] & HM')].
        rewrite HM in HM'. discriminate.
  - destruct (Nat.ltb_spec 1 (length (Stacks described))) as [Hmany|Hfew].
    + rewrite H. split; [split|split].
      * discriminate.
      * intros (_ & report' & _ & re' & err' & _ & [=] & _).
      * intros report' _ (_ & re' & err' & _ & [=] & _).
      * intros report' [(_ & re' & d & _ & [= <-] & Hle)
                       |(_ & _ & re' & err' & _ & [=] & _)]. lia.
    + rewrite andb_false_r in H. rewrite H. split; [split|split].
      * discriminate.
      * intros (_ & report' & _ & re' & err' & _ & [=] & _).
      * intros report' _ (_ & re' & err' & _ & [=] & _).
      * intros report' [([= <-] & _)|(_ & [= <-] & _)]; reflexivity.
Qed.

End Validation.

(** ** [validateExistingVPC] *)

Section ConflictCheck.

Variable svc : Services.
Variable c : Cluster.

(** C3.  When the VPC found carries a CIDR string that differs from the
    configured one, [validateExistingVPC] returns the stale-topology error,
    and its only call to the provider is the VPC lookup: it fails before any
    subnet listing is requested.  The comparison is on the strings. *)
Theorem validateExistingVPC_stale_topology vpcOutput existingVPC liveCidr :
  DescribeVpcs svc {| VpcIds := [Some (VPCID c)] |} = inr vpcOutput ->
  Vpcs vpcOutput = [existingVPC] ->
  vpc_CidrBlock existingVPC = Some liveCidr ->
  liveCidr <> VPCCIDR c ->
  validateExistingVPC svc c
    = ([describeVpcsCall c], Return (Some (StaleTopologyError c liveCidr)))
  /\ existsb isSubnetListing (trace (validateExistingVPC svc c)) = false.
Proof.
  intros Hvpcs Hone Hcidr Hneq.
  assert (E : validateExistingVPC svc c
              = ([describeVpcsCall c], Return (Some (StaleTopologyError c liveCidr)))).
  { unfold validateExistingVPC. rewrite bind_emit, Hvpcs, Hone, Hcidr.
    cbn [deref]. rewrite bind_ret.
    apply neqb_true in Hneq. rewrite Hneq. reflexivity. }
  rewrite E. split; reflexivity.
Qed.

Lemma scanSubnets_silent subnetIP subnetNet subnets :
  trace (scanSubnets subnetIP subnetNet subnets) = [].
Proof.
  induction subnets as [|s subnets IH]; cbn [scanSubnets]; [reflexivity|].
  destruct (CidrBlock s) as [cidr|]; [|reflexivity].
  cbn [deref]. rewrite bind_ret.
  destruct (net.ParseCIDR cidr) as [err|[eip enet]]; [reflexivity|].
  destruct (overlaps eip enet subnetIP subnetNet); [|exact IH].
  destruct (SubnetId s); reflexivity.
Qed.

Lemma scanSubnets_pass subnetIP subnetNet s rest :
  clearOf subnetIP subnetNet s ->
  scanSubnets subnetIP subnetNet (s :: rest) = scanSubnets subnetIP subnetNet rest.
Proof.
  intros (cidr & eip & enet & Hc & Hp & Ho).
  cbn [scanSubnets]. rewrite Hc. cbn [deref]. rewrite bind_ret, Hp, Ho. reflexivity.
Qed.

Lemma scanSubnets_first_conflict subnetIP subnetNet pre s post cidr eip enet id :
  Forall (clearOf subnetIP subnetNet) pre ->
  CidrBlock s = Some cidr ->
  net.ParseCIDR cidr = inr (eip, enet) ->
  overlaps eip enet subnetIP subnetNet = true ->
  SubnetId s = Some id ->
  scanSubnets subnetIP subnetNet (pre ++ s :: post)
    = ([], Return (Some (SubnetConflictError subnetNet id enet))).
Proof.
  intros Hpre Hc Hp Ho Hid.
  induction Hpre as [|x pre Hx _ IH]; cbn [app].
  - cbn [scanSubnets]. rewrite Hc. cbn [deref]. rewrite bind_ret, Hp, Ho, Hid.
    reflexivity.
  - rewrite (scanSubnets_pass _ _ _ _ Hx). exact IH.
Qed.

Lemma scanSubnets_nil_iff subnetIP subnetNet subnets :
  result (scanSubnets subnetIP subnetNet subnets) = Return None
  <-> Forall (clearOf subnetIP subnetNet) subnets.
Proof.
  induction subnets as [|s subnets IH].
  - split; [constructor|reflexivity].
  - split.
    + intros H. cbn [scanSubnets] in H.
      destruct (CidrBlock s) as [cidr|] eqn:Hc; [|discriminate].
      cbn [deref] in H. rewrite bind_ret in H.
      destruct (net.ParseCIDR cidr) as [err|[eip enet]] eqn:Hp; [discriminate|].
      destruct (overlaps eip enet subnetIP subnetNet) eqn:Ho.
      * destruct (SubnetId s); discriminate.
      * constructor; [|now apply IH]. now exists cidr, eip, enet.
    + intros H. inversion H as [|? ? Hs Hrest]; subst.
      rewrite (scanSubnets_pass _ _ _ _ Hs). now apply IH.
Qed.

Section PastTheVpcChecks.

Variables (vpcOutput : DescribeVpcsOutput) (existingVPC : Vpc).
Variables (subnetOutput : DescribeSubnetsOutput).
Variables (subnetIP : net.IP) (subnetNet : net.IPNet).

Hypothesis vpc_found : DescribeVpcs svc {| VpcIds := [Some (VPCID c)] |} = inr vpcOutput.
Hypothesis vpc_unique : Vpcs vpcOutput = [existingVPC].
Hypothesis vpc_cidr_matches : vpc_CidrBlock existingVPC = Some (VPCCIDR c).
Hypothesis subnets_listed :
  DescribeSubnets svc (subnetsInput existingVPC) = inr subnetOutput.
Hypothesis instance_cidr_parses :
  net.ParseCIDR (InstanceCIDR c) = inr (subnetIP, subnetNet).

Lemma validateExistingVPC_scans :
  validateExistingVPC svc c
    = ([describeVpcsCall c; DescribeSubnetsCall (subnetsInput existingVPC)],
       result (scanSubnets subnetIP subnetNet (Subnets subnetOutput))).
Proof.
  unfold validateExistingVPC.
  rewrite bind_emit, vpc_found, vpc_unique, vpc_cidr_matches.
  cbn [deref]. rewrite bind_ret.
  rewrite (proj2 (neqb_false _ _) eq_refl).
  fold (subnetsInput existingVPC).
  rewrite bind_emit, subnets_listed, instance_cidr_parses.
  cbn [trace result fst snd].
  change (fst (scanSubnets subnetIP subnetNet (Subnets subnetOutput)))
    with (trace (scanSubnets subnetIP subnetNet (Subnets subnetOutput))).
  rewrite scanSubnets_silent. reflexivity.
Qed.

(** C4, as the code has it.  The subnets are scanned in the order of the
    provider's answer, unsorted: the conflict reported is with the first
    overlapping subnet of the answer, and the error names that subnet's id,
    the instance network and the subnet's network. *)
Theorem validateExistingVPC_first_conflict pre s post cidr eip enet id :
  Subnets subnetOutput = pre ++ s :: post ->
  Forall (clearOf subnetIP subnetNet) pre ->
  CidrBlock s = Some cidr ->
  net.ParseCIDR cidr = inr (eip, enet) ->
  overlaps eip enet subnetIP subnetNet = true ->
  SubnetId s = Some id ->
  validateExistingVPC svc c
    = ([describeVpcsCall c; DescribeSubnetsCall (subnetsInput existingVPC)],
       Return (Some (SubnetConflictError subnetNet id enet))).
Proof.
  intros Hsub Hpre Hc Hp Ho Hid.
  rewrite validateExistingVPC_scans, Hsub.
  rewrite (scanSubnets_first_conflict _ _ pre s post cidr eip enet id Hpre Hc Hp Ho Hid).
  reflexivity.
Qed.


End PastTheVpcChecks.

End ConflictCheck.

Lemma validateExistingVPC_stale_topology_witness :
  let P := provider (notFound "mycluster") [vpc1 "10.0.0.0/16"] (unpaged twoSubnets) in
  let C := inVpc "10.1.0.0/16" "10.1.0.0/24" in
  validateExistingVPC P C
    = ([DescribeVpcsCall {| VpcIds := [Some "vpc-1"] |}],
       Return (Some ("configured vpcCidr (10.1.0.0/16) does not match "
                       ++ "actual existing vpc cidr (10.0.0.0/16)")%string))
  /\ existsb isSubnetListing (trace (validateExistingVPC P C)) = false.
Proof.
  intros P C.
  apply (validateExistingVPC_stale_topology P C
           {| Vpcs := [vpc1 "10.0.0.0/16"] |} (vpc1 "10.0.0.0/16") "10.0.0.0/16").
  - reflexivity.
  - reflexivity.
  - reflexivity.
  - discriminate.
Defined.

(** The comparison is textual: two spellings of one network are a mismatch. *)
Example stale_topology_on_equal_networks :
  let P := provider (notFound "mycluster") [vpc1 "10.0.0.0/16"] (unpaged []) in
  let C := inVpc "10.0.0.0/016" "10.0.0.0/24" in
  (exists ip1 ip2 n, net.ParseCIDR "10.0.0.0/16" = inr (ip1, n)
                     /\ net.ParseCIDR "10.0.0.0/016" = inr (ip2, n))
  /\ validateExistingVPC P C
       = ([DescribeVpcsCall {| VpcIds := [Some "vpc-1"] |}],
          Return (Some (StaleTopologyError C "10.0.0.0/16"))).
Proof.
  split; [do 3 eexists; split; reflexivity | reflexivity].
Qed.

Lemma validateExistingVPC_first_conflict_witness :
  let subnets := [subnet "subnet-a" "10.0.1.0/24"; subnet "subnet-b" "10.0.2.0/24"] in
  let P := provider (notFound "mycluster") [vpc1 "10.0.0.0/16"] (unpaged subnets) in
  validateExistingVPC P (inVpc "10.0.0.0/16" "10.0.1.128/25")
    = ([DescribeVpcsCall {| VpcIds := [Some "vpc-1"] |};
        DescribeSubnetsCall (subnetsInput (vpc1 "10.0.0.0/16"))],
       Return (Some ("instance cidr (10.0.1.128/25) conflicts with "
                       ++ "existing subnet subnet-a, cidr=10.0.1.0/24")%string))
  /\
  validateExistingVPC P (inVpc "10.0.0.0/16" "10.0.2.0/26")
    = ([DescribeVpcsCall {| VpcIds := [Some "vpc-1"] |};
        DescribeSubnetsCall (subnetsInput (vpc1 "10.0.0.0/16"))],
       Return (Some ("instance cidr (10.0.2.0/26) conflicts with "
                       ++ "existing subnet subnet-b, cidr=10.0.2.0/24")%string)).
Proof.
  intros subnets P. split.
  - refine (validateExistingVPC_first_conflict P (inVpc "10.0.0.0/16" "10.0.1.128/25")
              {| Vpcs := [vpc1 "10.0.0.0/16"] |} (vpc1 "10.0.0.0/16")
              {| Subnets := subnets |}
              _ _ eq_refl eq_refl eq_refl eq_refl eq_refl
              [] (subnet "subnet-a" "10.0.1.0/24") [subnet "subnet-b" "10.0.2.0/24"]
              "10.0.1.0/24" _ _ "subnet-a" eq_refl _ eq_refl eq_refl _ eq_refl).
    + constructor.
    + reflexivity.
  - refine (validateExistingVPC_first_conflict P (inVpc "10.0.0.0/16" "10.0.2.0/26")
              {| Vpcs := [vpc1 "10.0.0.0/16"] |} (vpc1 "10.0.0.0/16")
              {| Subnets := subnets |}
              _ _ eq_refl eq_refl eq_refl eq_refl eq_refl
              [subnet "subnet-a" "10.0.1.0/24"] (subnet "subnet-b" "10.0.2.0/24") []
              "10.0.2.0/24" _ _ "subnet-b" eq_refl _ eq_refl eq_refl _ eq_refl).
    + constructor; [|constructor].
      exists "10.0.1.0/24". do 2 eexists. repeat split; reflexivity.
    + reflexivity.
Defined.

(** C4, as the claim has it, fails: the provider lists subnet-2 before
    subnet-1 and the instance CIDR overlaps both; the code reports subnet-2,
    a scan in sorted subnet-id order would report subnet-1. *)
Lemma validateExistingVPC_scan_is_unsorted :
  let P := provider (notFound "mycluster") [vpc1 "10.0.0.0/16"] (unpaged twoSubnets) in
  let C := inVpc "10.0.0.0/16" "10.0.0.0/22" in
  result (validateExistingVPC P C)
    = Return (Some ("instance cidr (10.0.0.0/22) conflicts with "
                      ++ "existing subnet subnet-2, cidr=10.0.1.0/24")%string)
  /\ sortedScan (InstanceCIDR C) twoSubnets
    = Return (Some ("instance cidr (10.0.0.0/22) conflicts with "
                      ++ "existing subnet subnet-1, cidr=10.0.2.0/24")%string)
  /\ result (validateExistingVPC P C) <> sortedScan (InstanceCIDR C) twoSubnets.
Proof.
  intros P C. split; [reflexivity|]. split; [reflexivity|].
  vm_compute. discriminate.
Qed.


(** ** Classification of the describe-by-name error *)

Section Absence.

Context {RE : RegexpEngine}.

(** C10.  An error of the describe-by-name call counts as absence of the
    stack exactly when its text matches the expression compiled from
    [^ValidationError: Stack with id <name> does not exist], the cluster name
    being spliced in as pattern text, unescaped; otherwise [ValidateStack]
    returns the describe error.  Hence, with an engine that treats a dot as
    Go does, the cluster name my.cluster takes the not-found message of the
    stack my-cluster for absence of its own stack. *)
Theorem absence_is_unescaped_pattern_match :
  (forall name,
     stackNotExistPattern name
       = ("^ValidationError: Stack with id " ++ name ++ " does not exist")%string) /\
  (forall svc c stackBody report re err,
     ValidateTemplate svc {| vti_TemplateBody := Some stackBody |} = inr report ->
     Compile (stackNotExistPattern (ClusterName c)) = inr re ->
     DescribeStacks svc {| dsi_StackName := Some (ClusterName c) |} = inl err ->
     (stackExistsOf c re (inl err) = inr false <-> Match re err = true) /\
     (classifiedAbsent svc c stackBody report <-> Match re err = true) /\
     (Match re err = false ->
      ValidateStack svc c stackBody
        = ([validateTemplateCall stackBody; describeByNameCall c],
           Return ("", Some ("error describing stack: " ++ err)%string)))) /\
  (DotLiteralSound RE ->
   "my-cluster" <> ClusterName dottedCluster /\
   exists re,
     Compile (stackNotExistPattern (ClusterName dottedCluster)) = inr re /\
     stackExistsOf dottedCluster re (notFound "my-cluster") = inr false /\
     forall svc stackBody report,
       ValidateTemplate svc {| vti_TemplateBody := Some stackBody |} = inr report ->
       DescribeStacks svc {| dsi_StackName := Some "my.cluster" |} = notFound "my-cluster" ->
       ValidateStack svc dottedCluster stackBody
         = ([validateTemplateCall stackBody; describeByNameCall dottedCluster],
            Return (vto_String report, None))).
Proof.
  split; [reflexivity|]. split.
  - intros svc c stackBody report re err HV HC HD.
    assert (Hexists : stackExistsOf c re (inl err) = inr false <-> Match re err = true).
    { cbn [stackExistsOf]. destruct (Match re err); split; congruence. }
    split; [exact Hexists|]. split.
    + unfold classifiedAbsent. split.
      * intros (_ & re' & err' & HC' & HD' & HM).
        rewrite HC in HC'. rewrite HD in HD'.
        injection HC' as <-. injection HD' as <-. exact HM.
      * intros HM. split; [exact HV|]. exists re, err. auto.
    + intros HM.
      pose proof (ValidateStack_cases svc c stackBody) as H. cbv zeta in H.
      rewrite HV, HC, HD in H. cbn [stackExistsOf] in H. rewrite HM in H.
      exact H.
  - intros Hsound. split; [discriminate|].
    destruct (Hsound "ValidationError: Stack with id my.cluster does not exist" eq_refl)
      as (re & Hre & Hmatch).
    assert (HM : Match re "ValidationError: Stack with id my-cluster does not exist" = true).
    { rewrite Hmatch; reflexivity. }
    exists re. split; [exact Hre|]. split.
    + cbn [stackExistsOf notFound]. cbn [append]. rewrite HM. reflexivity.
    + intros svc stackBody report HV HD.
      pose proof (ValidateStack_cases svc dottedCluster stackBody) as H. cbv zeta in H.
      cbn [ClusterName dottedCluster] in H.
      change (stackNotExistPattern "my.cluster")
        with (String "^" "ValidationError: Stack with id my.cluster does not exist") in H.
      rewrite HV, Hre, HD in H.
      cbn [stackExistsOf notFound append] in H. rewrite HM in H.
      exact H.
Qed.

End Absence.

Lemma absence_is_unescaped_pattern_match_witness :
  let P := provider (notFound "my-cluster") [] (unpaged []) in
  @ValidateStack fragmentEngine P dottedCluster "{}"
    = ([validateTemplateCall "{}"; describeByNameCall dottedCluster],
       Return ("{ Description: kubernetes }", None))
  /\
  let Q := provider (inl "Throttling: Rate exceeded") [] (unpaged []) in
  @ValidateStack fragmentEngine Q mycluster "{}"
    = ([validateTemplateCall "{}"; describeByNameCall mycluster],
       Return ("", Some "error describing stack: Throttling: Rate exceeded")).
Proof.
  destruct (@absence_is_unescaped_pattern_match fragmentEngine) as (_ & Hclass & Hdot).
  intros P. split.
  - destruct (Hdot fragmentEngine_sound) as (_ & re & _ & _ & Hv).
    apply (Hv P "{}" {| vto_String := "{ Description: kubernetes }" |});
      reflexivity.
  - intros Q.
    apply (Hclass Q mycluster "{}" {| vto_String := "{ Description: kubernetes }" |}
             "ValidationError: Stack with id mycluster does not exist"
             "Throttling: Rate exceeded"); reflexivity.
Defined.

Lemma ValidateStack_conflict_check_gate_witness :
  let body := "{}" in
  let report := {| vto_String := "{ Description: kubernetes }" |} in
  let subnets := [subnet "subnet-a" "10.0.1.0/24"; subnet "subnet-b" "10.0.2.0/24"] in
  let absent := provider (notFound "mycluster") [vpc1 "10.0.0.0/16"] (unpaged subnets) in
  let present := provider (inr {| Stacks := [ {| StackStatus := Some "CREATE_COMPLETE";
                                                StackStatusReason := None |} ] |})
                          [vpc1 "10.0.0.0/16"] (unpaged subnets) in
  (* absent stack, VPC configured: the check runs and finds the conflict *)
  conflictCheckInvoked
    (trace (@ValidateStack fragmentEngine absent (inVpc "10.0.0.0/16" "10.0.1.128/25") body))
    = true
  /\ @ValidateStack fragmentEngine absent (inVpc "10.0.0.0/16" "10.0.1.128/25") body
      = ([validateTemplateCall body; describeByNameCall mycluster; existingVpcNotice;
          DescribeVpcsCall {| VpcIds := [Some "vpc-1"] |};
          DescribeSubnetsCall (subnetsInput (vpc1 "10.0.0.0/16"))],
         Return ("", Some ("instance cidr (10.0.1.128/25) conflicts with "
                             ++ "existing subnet subnet-a, cidr=10.0.1.0/24")%string))
  (* absent stack, no VPC configured: no check, the report as it is *)
  /\ @ValidateStack fragmentEngine absent mycluster body
      = ([validateTemplateCall body; describeByNameCall mycluster],
         Return ("{ Description: kubernetes }", None))
  (* existing stack, VPC configured: no check, the report as it is *)
  /\ @ValidateStack fragmentEngine present (inVpc "10.0.0.0/16" "10.0.1.128/25") body
      = ([validateTemplateCall body; describeByNameCall mycluster],
         Return ("{ Description: kubernetes }", None)).
Proof.
  intros body report subnets absent present.
  assert (Habsent : forall c, ClusterName c = "mycluster" ->
                       @classifiedAbsent fragmentEngine absent c body report).
  { intros c Hc. split; [reflexivity|].
    exists "ValidationError: Stack with id mycluster does not exist",
           "ValidationError: Stack with id mycluster does not exist".
    rewrite Hc. repeat split; reflexivity. }
  split; [|split; [|split]].
  - apply (proj1 (@ValidateStack_conflict_check_gate fragmentEngine absent
                    (inVpc "10.0.0.0/16" "10.0.1.128/25") body)).
    split; [discriminate|]. exists report. apply Habsent. reflexivity.
  - apply (proj1 (proj2 (@ValidateStack_conflict_check_gate fragmentEngine absent
                           (inVpc "10.0.0.0/16" "10.0.1.128/25") body)) report).
    + discriminate.
    + apply Habsent. reflexivity.
  - apply (proj2 (proj2 (@ValidateStack_conflict_check_gate fragmentEngine absent
                           mycluster body)) report).
    right. split; [reflexivity|]. apply Habsent. reflexivity.
  - apply (proj2 (proj2 (@ValidateStack_conflict_check_gate fragmentEngine present
                           (inVpc "10.0.0.0/16" "10.0.1.128/25") body)) report).
    left. split; [reflexivity|].
    exists "ValidationError: Stack with id mycluster does not exist".
    eexists. split; [reflexivity|]. split; [reflexivity|]. cbn. lia.
Defined.

(** ** The [net] package: what [ParseCIDR] returns *)

(** The two examples of the package documentation: the address as written,
    and the network it lies in. *)
Example ParseCIDR_documented :
  (exists ip n, net.ParseCIDR "192.0.2.1/24" = inr (ip, n)
                /\ net.IP_String ip = "192.0.2.1"
                /\ net.IPNet_String n = "192.0.2.0/24") /\
  (exists ip n, net.ParseCIDR "2001:db8:a0b:12f0::1/32" = inr (ip, n)
                /\ net.IP_String ip = "2001:db8:a0b:12f0::1"
                /\ net.IPNet_String n = "2001:db8::/32") /\
  net.ParseCIDR "192.0.2.1" = inl "invalid CIDR address: 192.0.2.1" /\
  net.ParseCIDR "192.0.2.256/24" = inl "invalid CIDR address: 192.0.2.256/24" /\
  net.ParseCIDR "2001:db8::1::/32" = inl "invalid CIDR address: 2001:db8::1::/32".
Proof.
  repeat split; try reflexivity; do 2 eexists; repeat split; reflexivity.
Qed.


Module netFacts.
Import net netDefs.

Lemma isByte_0 : isByte 0.
Proof. unfold isByte. lia. Qed.

Lemma isByte_land_255 x : isByte (Z.land x 255).
Proof.
  change 255 with (Z.ones 8). rewrite Z.land_ones by lia.
  unfold isByte. pose proof (Z.mod_pos_bound x (2 ^ 8) eq_refl). lia.
Qed.

Lemma land_255_byte x : isByte x -> Z.land x 255 = x.
Proof.
  intros H. change 255 with (Z.ones 8). rewrite Z.land_ones by lia.
  apply Z.mod_small. unfold isByte in H. change (2 ^ 8) with 256. lia.
Qed.

Lemma idx_isByte p i : Forall isByte p -> isByte (idx p i).
Proof.
  intros H. unfold idx. revert i.
  induction H as [|x p Hx _ IH]; intros [|i]; cbn; auto using isByte_0.
Qed.

Lemma isDigit_value c : isDigit c = true -> 0 <= code c - code "0" <= 9.
Proof.
  unfold isDigit. intros H. apply andb_prop in H as [H1 H2].
  apply Z.leb_le in H1, H2. change (code "9") with 57 in H2.
  change (code "0") with 48 in *. lia.
Qed.

Lemma dtoi_loop_nonneg s : forall n i,
  0 <= n -> 0 <= fst (fst (dtoi_loop s n i)).
Proof.
  induction s as [|c s IH]; intros n i Hn; cbn [dtoi_loop]; [exact Hn|].
  destruct (isDigit c) eqn:Hd; [|exact Hn].
  destruct (big <=? _); [cbn; unfold big; lia|].
  apply IH. pose proof (isDigit_value c Hd). lia.
Qed.

Lemma dtoi_nonneg s n c : dtoi s = (n, c, true) -> 0 <= n.
Proof.
  unfold dtoi. pose proof (dtoi_loop_nonneg s 0 O (Z.le_refl 0)) as H.
  destruct (dtoi_loop s 0 O) as [[n' i] ok]. cbn in H.
  destruct ok; cbn [negb]; [|discriminate].
  destruct (i =? 0)%nat; [discriminate|].
  intros [= <- _]. exact H.
Qed.

Lemma parseIPv4_loop_bytes k : forall i s p s' p',
  Forall isByte p ->
  parseIPv4_loop k i s p = Some (s', p') -> Forall isByte p'.
Proof.
  induction k as [|k IH]; intros i s p s' p' Hp; cbn [parseIPv4_loop].
  - intros [= _ <-]. exact Hp.
  - destruct (len s =? 0)%nat; [discriminate|].
    destruct (negb _); [discriminate|].
    destruct (dtoi _) as [[n c] ok] eqn:Hd.
    destruct ok; cbn [negb orb]; [|discriminate].
    destruct (255 <? n) eqn:Hn; [discriminate|].
    apply IH. apply Forall_app. split; [exact Hp|].
    constructor; [|constructor].
    apply dtoi_nonneg in Hd. apply Z.ltb_ge in Hn. unfold isByte. lia.
Qed.

Lemma parseIPv4_shape s ip :
  parseIPv4 s = Some ip ->
  exists a b c d, ip = IPv4 a b c d /\ isByte a /\ isByte b /\ isByte c /\ isByte d.
Proof.
  unfold parseIPv4.
  destruct (parseIPv4_loop 4 0 s []) as [[s' p]|] eqn:Hl; [|discriminate].
  destruct (negb _); [discriminate|]. intros [= <-].
  apply parseIPv4_loop_bytes in Hl; [|constructor].
  exists (idx p 0), (idx p 1), (idx p 2), (idx p 3).
  repeat split; try apply idx_isByte; assumption.
Qed.

Lemma parseIPv6_loop_stored rounds : forall s i ip e s' i' ip' e',
  stored i ip ->
  parseIPv6_loop rounds s i ip e = Some (s', i', ip', e') ->
  stored i' ip'.
Proof.
  induction rounds as [|rounds IH]; intros s i ip e s' i' ip' e' Hst;
    cbn [parseIPv6_loop].
  - destruct (negb _); intros [= _ <- <- _]; exact Hst.
  - destruct (i <? IPv6len)%nat eqn:Hi; cbn [negb];
      [|intros [= _ <- <- _]; exact Hst].
    apply Nat.ltb_lt in Hi. unfold IPv6len in Hi.
    destruct Hst as (Hlen & Heven & Hle & Hbytes).
    destruct (xtoi s) as [[n c] ok].
    destruct (negb ok || (65535 <? n)); [discriminate|].
    destruct ((c <? len s)%nat && Ascii.eqb (at_ s c) ".").
    + destruct (_ && negb (i =? IPv6len - IPv4len)%nat); [discriminate|].
      destruct (IPv6len <? i + IPv4len)%nat eqn:Hroom; [discriminate|].
      apply Nat.ltb_ge in Hroom. unfold IPv6len, IPv4len in Hroom.
      destruct (parseIPv4 s) as [ip4|] eqn:H4; [|discriminate].
      intros [= _ <- <- _].
      apply parseIPv4_shape in H4 as (a & b & c0 & d & -> & Ha & Hb & Hc & Hd).
      unfold stored, IPv4len. rewrite length_app, Hlen. cbn [length].
      repeat split; try lia.
      * destruct Heven as [k ->]. exists (k + 2)%nat. lia.
      * apply Forall_app. split; [exact Hbytes|].
        unfold idx, IPv4. cbn [nth app v4InV6Prefix].
        repeat (constructor; [assumption|]). constructor.
    + assert (Hst' : stored (i + 2)
                       (ip ++ [Z.land (Z.shiftr n 8) 255; Z.land n 255])).
      { unfold stored. rewrite length_app, Hlen. cbn [length].
        destruct Heven as [k ->]. repeat split; try lia.
        - exists (k + 1)%nat. lia.
        - apply Forall_app. split; [exact Hbytes|].
          repeat (constructor; [apply isByte_land_255|]). constructor. }
      destruct (len (drop c s) =? 0)%nat; [intros [= _ <- <- _]; exact Hst'|].
      destruct (negb _ || _); [discriminate|].
      destruct (Ascii.eqb (at_ (drop 1 (drop c s)) 0) ":").
      * destruct e; [discriminate|].
        destruct (len _ =? 0)%nat; [intros [= _ <- <- _]; exact Hst'|].
        apply IH. exact Hst'.
      * apply IH. exact Hst'.
Qed.

Lemma Forall_repeat {A} (P : A -> Prop) x n : P x -> Forall P (repeat x n).
Proof. intros H. induction n; cbn; constructor; auto. Qed.

Lemma parseIPv6_shape s ip :
  parseIPv6 s = Some ip -> length ip = 16%nat /\ Forall isByte ip.
Proof.
  unfold parseIPv6.
  set (lead := (2 <=? len s)%nat && _ && _).
  destruct (lead && _).
  { intros [= <-]. split; [reflexivity|]. apply Forall_repeat, isByte_0. }
  destruct (parseIPv6_loop 8 _ 0 [] _) as [[[[s' i] ip'] e]|] eqn:Hl; [|discriminate].
  apply parseIPv6_loop_stored in Hl.
  2:{ repeat split; [exists 0%nat; reflexivity|lia|constructor]. }
  destruct Hl as (Hlen & _ & Hle & Hbytes).
  destruct (negb _); [discriminate|].
  destruct (i <? IPv6len)%nat eqn:Hi.
  - destruct e as [e|]; [|discriminate].
    remember (IPv6len - i)%nat as gap eqn:Hgap. unfold IPv6len in Hgap.
    intros [= <-]. split.
    + rewrite !length_app, length_firstn, length_skipn.
      unfold zeros. rewrite repeat_length. lia.
    + apply Forall_app. split.
      * rewrite <- (firstn_skipn e ip') in Hbytes.
        apply Forall_app in Hbytes. tauto.
      * apply Forall_app. split; [apply Forall_repeat, isByte_0|].
        rewrite <- (firstn_skipn e ip') in Hbytes.
        apply Forall_app in Hbytes. tauto.
  - destruct e; [discriminate|]. intros [= <-].
    apply Nat.ltb_ge in Hi. unfold IPv6len in Hi. split; [lia|exact Hbytes].
Qed.

Lemma ParseCIDR_shape s ip n :
  ParseCIDR s = inr (ip, n) ->
  (exists p a b c d, parsedAs ip n 32 p /\ ip = IPv4 a b c d) \/
  (exists p, parsedAs ip n 128 p).
Proof.
  unfold ParseCIDR.
  destruct (byteIndex s "/") as [i|]; [|discriminate].
  destruct (dtoi _) as [[p j] ok] eqn:Hdtoi.
  destruct (parseIPv4 (take i s)) as [ip4|] eqn:H4.
  - destruct (negb ok || _ || (p <? 0) || _) eqn:Hbad; [discriminate|].
    intros [= <- <-].
    apply orb_false_elim in Hbad as [Hbad Hhi].
    apply orb_false_elim in Hbad as [_ Hlo].
    apply Z.ltb_ge in Hhi, Hlo. unfold IPv4len in Hhi.
    apply parseIPv4_shape in H4 as (a & b & c & d & -> & Ha & Hb & Hc & Hd).
    left. exists p, a, b, c, d. split; [|reflexivity].
    unfold parsedAs. change (8 * Z.of_nat IPv4len) with 32.
    split; [lia|]. split; [reflexivity|]. split; [reflexivity|].
    unfold IPv4. cbn [app v4InV6Prefix].
    repeat (constructor; [first [assumption | unfold isByte; lia]|]). constructor.
  - destruct (parseIPv6 (take i s)) as [ip6|] eqn:H6; [|discriminate].
    destruct (negb ok || _ || (p <? 0) || _) eqn:Hbad; [discriminate|].
    intros [= <- <-].
    apply orb_false_elim in Hbad as [Hbad Hhi].
    apply orb_false_elim in Hbad as [_ Hlo].
    apply Z.ltb_ge in Hhi, Hlo. unfold IPv6len in Hhi.
    apply parseIPv6_shape in H6 as [Hlen Hbytes].
    right. exists p. unfold parsedAs. change (8 * Z.of_nat IPv6len) with 128.
    repeat split; try lia; assumption.
Qed.

(** *** Masks of leading ones, checked over all prefix lengths *)

Lemma checked_upTo (f : Z -> bool) (k : nat) :
  forallb f (upTo k) = true ->
  forall p, 0 <= p <= Z.of_nat k -> f p = true.
Proof.
  intros H p Hp. rewrite forallb_forall in H. apply H.
  unfold upTo. rewrite <- (Z2Nat.id p) by lia.
  apply in_map, in_seq. lia.
Qed.

Lemma bytesEqual_eq a : forall b, bytesEqual a b = true -> a = b.
Proof.
  induction a as [|x a IH]; intros [|y b]; cbn; try discriminate; [reflexivity|].
  intros H. apply andb_prop in H as [Hx Hr].
  apply Z.eqb_eq in Hx. f_equal; auto.
Qed.

Lemma CIDRMask32_length p : 0 <= p <= 32 -> length (CIDRMask p 32) = 4%nat.
Proof.
  intros Hp. apply Nat.eqb_eq.
  apply (checked_upTo maskCheck32 32); [vm_compute; reflexivity|exact Hp].
Qed.

Lemma CIDRMask128_facts p :
  0 <= p <= 128 ->
  length (CIDRMask p 128) = 16%nat /\
  simpleMaskLength (CIDRMask p 128) = p /\
  (96 <= p -> CIDRMask p 128 = repeat 255 12 ++ CIDRMask (p - 96) 32) /\
  (p < 96 -> 0 <= idx (CIDRMask p 128) 11 < 255).
Proof.
  intros Hp.
  pose proof (checked_upTo maskCheck128 128 ltac:(vm_compute; reflexivity) p Hp) as H.
  unfold maskCheck128 in H. cbv zeta in H.
  apply andb_prop in H as [H H3]. apply andb_prop in H as [H1 H2].
  apply Nat.eqb_eq in H1. apply Z.eqb_eq in H2.
  split; [exact H1|]. split; [exact H2|]. split.
  - intros Hge. apply Z.leb_le in Hge. rewrite Hge in H3.
    apply bytesEqual_eq. exact H3.
  - intros Hlt. apply Z.leb_gt in Hlt. rewrite Hlt in H3.
    apply andb_prop in H3 as [Ha Hb].
    apply Z.leb_le in Ha. apply Z.ltb_lt in Hb. lia.
Qed.

Lemma partialByte_nested p q :
  0 <= p -> p <= q -> q < 8 ->
  Z.land (partialByte p) (partialByte q) = partialByte p /\
  Z.land (partialByte p) 255 = partialByte p.
Proof.
  intros H0 Hpq Hq.
  assert (Hall : forallb (fun a => forallb (fun b =>
                    (b <? a)
                    || ((Z.land (partialByte a) (partialByte b) =? partialByte a)
                        && (Z.land (partialByte a) 255 =? partialByte a)))
                    (upTo 7)) (upTo 7) = true) by (vm_compute; reflexivity).
  pose proof (checked_upTo _ _ Hall p ltac:(lia)) as Hp. cbv beta in Hp.
  pose proof (checked_upTo _ _ Hp q ltac:(lia)) as Hpq'. cbv beta in Hpq'.
  apply orb_prop in Hpq' as [Hlt|Hin]; [apply Z.ltb_lt in Hlt; lia|].
  apply andb_prop in Hin as [Ha Hb]. apply Z.eqb_eq in Ha, Hb. auto.
Qed.

Lemma CIDRMask_loop_nested l : forall p q i,
  0 <= p -> p <= q ->
  Z.land (idx (CIDRMask_loop l p) i) (idx (CIDRMask_loop l q) i)
    = idx (CIDRMask_loop l p) i.
Proof.
  unfold idx.
  induction l as [|l IH]; intros p q i H0 Hpq; cbn [CIDRMask_loop].
  - destruct i; reflexivity.
  - fold (partialByte p). fold (partialByte q).
    destruct (Z.leb_spec 8 p) as [Hp|Hp]; destruct (Z.leb_spec 8 q) as [Hq|Hq];
      try lia; destruct i as [|i]; cbn [nth].
    + reflexivity.
    + apply IH; lia.
    + apply (partialByte_nested p p); lia.
    + apply IH; lia.
    + apply (partialByte_nested p q); lia.
    + apply IH; lia.
Qed.

Lemma CIDRMask_nested bits p q i :
  bits = 32 \/ bits = 128 ->
  0 <= p -> p <= q -> q <= bits ->
  Z.land (idx (CIDRMask p bits) i) (idx (CIDRMask q bits) i) = idx (CIDRMask p bits) i.
Proof.
  intros Hbits H0 Hpq Hq. unfold CIDRMask.
  assert (Hb : negb (bits =? 8 * 4) && negb (bits =? 8 * 16) = false)
    by (destruct Hbits as [-> | ->]; reflexivity).
  rewrite Hb.
  assert (Hp' : (p <? 0) || (bits <? p) = false)
    by (apply orb_false_intro; [apply Z.ltb_ge|apply Z.ltb_ge]; lia).
  assert (Hq' : (q <? 0) || (bits <? q) = false)
    by (apply orb_false_intro; [apply Z.ltb_ge|apply Z.ltb_ge]; lia).
  rewrite Hp', Hq'. apply CIDRMask_loop_nested; assumption.
Qed.

(** *** Networks as [Contains] sees them *)

Lemma land_same a m : Z.land (Z.land a m) m = Z.land a m.
Proof. rewrite <- Z.land_assoc, Z.land_diag. reflexivity. Qed.

Lemma land_below_255 x m : 0 <= m < 255 -> Z.land x m <> 255.
Proof.
  intros Hm E. pose proof (land_same x m) as H. rewrite E in H.
  rewrite Z.land_comm, land_255_byte in H by (unfold isByte; lia). lia.
Qed.

Lemma app_same_length (a : list Z) : forall c b d,
  length a = length c -> a ++ b = c ++ d -> a = c /\ b = d.
Proof.
  induction a as [|x a IH]; intros [|y c] b d; cbn; try discriminate; auto.
  intros [= Hl] [= -> H]. destruct (IH _ _ _ Hl H) as [-> ->]. auto.
Qed.

Lemma length4 (l : list Z) :
  length l = 4%nat -> exists a b c d, l = [a; b; c; d].
Proof.
  destruct l as [|a [|b [|c [|d [|? ?]]]]]; try discriminate.
  intros _. now exists a, b, c, d.
Qed.

Lemma agree_refl (a m : list Z) (k : nat) :
  forallb (fun i => Z.land (idx (andBytes a m) i) (idx m i) =? Z.land (idx a i) (idx m i))
          (seq 0 k) = true.
Proof.
  apply forallb_forall. intros i _. apply Z.eqb_eq. unfold idx.
  revert m i. induction a as [|x a IH]; intros [|y m] [|i]; cbn [andBytes nth];
    rewrite ?Z.land_0_r, ?Z.land_0_l; auto using land_same.
Qed.

Lemma andBytes_length a : forall m,
  length a = length m -> length (andBytes a m) = length a.
Proof.
  induction a as [|x a IH]; intros [|y m]; cbn; try discriminate; auto.
Qed.

Lemma andBytes_app a1 : forall m1 a2 m2,
  length a1 = length m1 ->
  andBytes (a1 ++ a2) (m1 ++ m2) = andBytes a1 m1 ++ andBytes a2 m2.
Proof.
  induction a1 as [|x a1 IH]; intros [|y m1] a2 m2; cbn; try discriminate; auto.
  intros [= H]. f_equal. auto.
Qed.

Lemma andBytes_allFF a : forall k,
  Forall isByte a -> length a = k -> andBytes a (repeat 255 k) = a.
Proof.
  induction a as [|x a IH]; intros [|k] Hb; cbn; try discriminate; auto.
  intros [= H]. inversion Hb; subst. f_equal; [apply land_255_byte; assumption|auto].
Qed.

Lemma Contains_iff n nn m x :
  networkNumberAndMask n = (nn, m) ->
  (Contains n x = true <->
   length (norm x) = length nn /\
   forall i, (i < length nn)%nat ->
     Z.land (idx nn i) (idx m i) = Z.land (idx (norm x) i) (idx m i)).
Proof.
  intros Hn. unfold Contains. rewrite Hn. fold (norm x).
  destruct (Nat.eqb_spec (length (norm x)) (length nn)) as [E|E]; cbn [negb].
  - rewrite forallb_forall. split.
    + intros H. split; [exact E|]. intros i Hi.
      apply Z.eqb_eq, H, in_seq. lia.
    + intros [_ H] i Hi. apply in_seq in Hi. apply Z.eqb_eq, H. lia.
  - split; [discriminate|]. intros [E' _]. contradiction.
Qed.

Lemma seenAs_contains ip n len bits q :
  seenAs ip n len bits q -> Contains n ip = true.
Proof.
  intros (Hn & Hip & Hm & _ & _).
  apply (Contains_iff _ _ _ _ Hn). split.
  - rewrite andBytes_length; congruence.
  - intros i _.
    pose proof (agree_refl (norm ip) (CIDRMask q bits) (S i)) as H.
    rewrite forallb_forall in H. apply Z.eqb_eq, H, in_seq. lia.
Qed.

Lemma parsed_dotted ip n p a b c d :
  parsedAs ip n 32 p -> ip = IPv4 a b c d ->
  mappedBelow96 ip n = false /\ seenAs ip n 4 32 p.
Proof.
  intros (Hp & -> & _ & _) ->.
  pose proof (CIDRMask32_length p Hp) as Hlen.
  destruct (length4 _ Hlen) as (m0 & m1 & m2 & m3 & Hm).
  unfold seenAs. rewrite Hm. split; [reflexivity|].
  split; [reflexivity|]. split; [reflexivity|]. split; [reflexivity|].
  split; [auto|lia].
Qed.

Lemma To4_12_4 (h t : list Z) :
  length h = 12%nat -> length t = 4%nat ->
  To4 (h ++ t) = if bytesEqual h v4InV6Prefix then t else [].
Proof.
  intros Hh Ht.
  destruct (length4 t Ht) as (t0 & t1 & t2 & t3 & ->).
  destruct (bytesEqual h v4InV6Prefix) eqn:E.
  - apply bytesEqual_eq in E. subst h. reflexivity.
  - destruct h as [|h0 [|h1 [|h2 [|h3 [|h4 [|h5 [|h6 [|h7 [|h8 [|h9 [|h10 [|h11 [|? ?]]]]]]]]]]]]];
      try discriminate.
    unfold To4. cbn [app length Nat.eqb IPv4len IPv6len andb slice skipn firstn Nat.sub idx nth isZeros forallb].
    destruct (_ && _) eqn:E'; [|reflexivity].
    exfalso. apply andb_prop in E' as [E' H11]. apply andb_prop in E' as [E' H10].
    repeat (apply andb_prop in E' as [?H E']).
    repeat match goal with H : (_ =? _) = true |- _ => apply Z.eqb_eq in H end.
    subst. discriminate E.
Qed.

Lemma IP_Mask_16 (ip m : list Z) :
  length ip = 16%nat -> length m = 16%nat -> IP_Mask ip m = andBytes ip m.
Proof.
  intros Hi Hm. unfold IP_Mask, IPv4len, IPv6len. rewrite Hi, Hm.
  change (16 =? 4)%nat with false. change (16 =? 16)%nat with true.
  cbn [andb]. rewrite Hm. change (16 =? 4)%nat with false.
  cbn [andb]. rewrite Hi. reflexivity.
Qed.

Lemma split_12_4 (l : list Z) :
  length l = 16%nat ->
  exists h t, l = h ++ t /\ length h = 12%nat /\ length t = 4%nat.
Proof.
  intros H. exists (firstn 12 l), (skipn 12 l).
  rewrite firstn_skipn, length_firstn, length_skipn, H. auto.
Qed.

Lemma nn_mask_16 (nnip m : list Z) :
  length nnip = 16%nat -> length m = 16%nat -> To4 nnip = [] ->
  networkNumberAndMask (mkIPNet nnip m) = (nnip, m).
Proof.
  intros Hn Hm H4. unfold networkNumberAndMask. cbn [IPNet_IP IPNet_Mask].
  rewrite H4, Hn, Hm. cbn [is_nil]. rewrite Hn. reflexivity.
Qed.

Lemma parsed_colon ip n p :
  parsedAs ip n 128 p ->
  (mappedBelow96 ip n = true /\ Contains n ip = false) \/
  (mappedBelow96 ip n = false /\
   ((96 <= p /\ seenAs ip n 4 32 (p - 96)) \/ seenAs ip n 16 128 p)).
Proof.
  intros (Hp & -> & Hlen & Hbytes).
  destruct (CIDRMask128_facts p Hp) as (Hmlen & Hsimple & Hhigh & Hlow).
  set (m := CIDRMask p 128) in *.
  rewrite (IP_Mask_16 ip m Hlen Hmlen).
  destruct (split_12_4 ip Hlen) as (h & t & Hip & Hh & Ht).
  destruct (split_12_4 m Hmlen) as (mh & mt & Hm & Hmh & Hmt).
  assert (Hand : andBytes ip m = andBytes h mh ++ andBytes t mt).
  { rewrite Hip, Hm. apply andBytes_app. congruence. }
  assert (Hto4 : To4 ip = if bytesEqual h v4InV6Prefix then t else []).
  { rewrite Hip. apply To4_12_4; assumption. }
  assert (Hnet4 : To4 (andBytes ip m)
                  = if bytesEqual (andBytes h mh) v4InV6Prefix then andBytes t mt else []).
  { rewrite Hand. apply To4_12_4; rewrite andBytes_length; congruence. }
  assert (Hbelow : mappedBelow96 ip (mkIPNet (andBytes ip m) m)
                   = bytesEqual h v4InV6Prefix && (p <? 96)).
  { unfold mappedBelow96. cbn [IPNet_Mask]. rewrite Hto4, Hmlen, Hsimple.
    destruct (bytesEqual h v4InV6Prefix); [|reflexivity].
    destruct (length4 t Ht) as (t0 & t1 & t2 & t3 & ->). reflexivity. }
  assert (Hnorm : norm ip = if bytesEqual h v4InV6Prefix then t else ip).
  { unfold norm. rewrite Hto4. destruct (bytesEqual h v4InV6Prefix); [|reflexivity].
    destruct (length4 t Ht) as (t0 & t1 & t2 & t3 & ->). reflexivity. }
  rewrite Hbelow.
  assert (Hhb : Forall isByte h).
  { rewrite Hip in Hbytes. apply Forall_app in Hbytes. tauto. }
  destruct (Z.ltb_spec p 96) as [Hp96|Hp96].
  - (* the mask ends inside the first twelve bytes *)
    assert (Hnn : To4 (andBytes ip m) = []).
    { rewrite Hnet4. destruct (bytesEqual (andBytes h mh) v4InV6Prefix) eqn:E; [|reflexivity].
      exfalso. apply bytesEqual_eq in E.
      assert (E11 : idx (andBytes h mh) 11 = 255) by (rewrite E; reflexivity).
      specialize (Hlow Hp96).
      assert (Hm11 : idx m 11 = idx mh 11).
      { rewrite Hm. unfold idx. apply app_nth1. lia. }
      rewrite Hm11 in Hlow.
      assert (Hidx : idx (andBytes h mh) 11 = Z.land (idx h 11) (idx mh 11)).
      { clear -Hh Hmh.
        do 12 (destruct h as [|? h]; [discriminate|]).
        do 12 (destruct mh as [|? mh]; [discriminate|]). reflexivity. }
      rewrite Hidx in E11.
      exact (land_below_255 _ _ Hlow E11). }
    pose proof (nn_mask_16 (andBytes ip m) m
                  ltac:(rewrite andBytes_length; congruence) Hmlen Hnn) as Hnm.
    destruct (bytesEqual h v4InV6Prefix) eqn:Emapped; cbn [andb].
    + left. split; [reflexivity|].
      destruct (Contains (mkIPNet (andBytes ip m) m) ip) eqn:Ec; [|reflexivity].
      apply (Contains_iff _ _ _ _ Hnm) in Ec as [Elen _].
      rewrite Hnorm, andBytes_length in Elen; congruence.
    + right. split; [reflexivity|]. right.
      unfold seenAs. fold m. rewrite Hnorm.
      split; [exact Hnm|]. split; [exact Hlen|]. split; [exact Hmlen|].
      split; [auto|lia].
  - (* the mask covers the first twelve bytes *)
    rewrite andb_false_r. right. split; [reflexivity|].
    specialize (Hhigh Hp96).
    assert (Hmh' : mh = repeat 255 12 /\ mt = CIDRMask (p - 96) 32).
    { rewrite Hm in Hhigh. apply app_same_length in Hhigh; [exact Hhigh|].
      rewrite repeat_length. exact Hmh. }
    destruct Hmh' as [-> Hmt'].
    rewrite (andBytes_allFF h 12 Hhb Hh) in Hnet4, Hand.
    destruct (bytesEqual h v4InV6Prefix) eqn:Emapped.
    + left. split; [exact Hp96|].
      unfold seenAs. rewrite Hnorm, <- Hmt'.
      split; [|split; [exact Ht|split; [exact Hmt|split; [auto|lia]]]].
      unfold networkNumberAndMask. cbn [IPNet_IP IPNet_Mask].
      rewrite Hnet4, Hmlen.
      destruct (length4 t Ht) as (t0 & t1 & t2 & t3 & ->).
      destruct (length4 mt Hmt) as (k0 & k1 & k2 & k3 & Hk).
      rewrite Hk. cbn [andBytes is_nil andb length Nat.eqb IPv4len IPv6len negb].
      rewrite Hm, Hk. rewrite skipn_app, skipn_all2 by (rewrite repeat_length; lia).
      rewrite repeat_length. reflexivity.
    + right. unfold seenAs. fold m. rewrite Hnorm.
      split; [|split; [exact Hlen|split; [exact Hmlen|split; [auto|lia]]]].
      apply nn_mask_16; [rewrite andBytes_length; congruence|exact Hmlen|].
      exact Hnet4.
Qed.

End netFacts.

(** ** The overlap test *)

Section Overlap.

Import net netDefs netFacts.

Lemma agree_point (a m : list Z) (i : nat) :
  Z.land (idx (andBytes a m) i) (idx m i) = Z.land (idx a i) (idx m i).
Proof.
  pose proof (agree_refl a m (S i)) as H. rewrite forallb_forall in H.
  apply Z.eqb_eq, H, in_seq. lia.
Qed.

Lemma land_transfer x y mA mB :
  Z.land mA mB = mA -> Z.land x mB = Z.land y mB -> Z.land x mA = Z.land y mA.
Proof.
  intros Hnest H. rewrite <- Hnest, (Z.land_comm mA mB), !Z.land_assoc, H.
  reflexivity.
Qed.

Lemma parsed_cases s ip n :
  ParseCIDR s = inr (ip, n) ->
  (mappedBelow96 ip n = true /\ Contains n ip = false) \/
  (mappedBelow96 ip n = false /\ exists len bits q, seenAs ip n len bits q).
Proof.
  intros H. apply ParseCIDR_shape in H as [(p & a & b & c & d & Hp & Hip)|(p & Hp)].
  - right. destruct (parsed_dotted ip n p a b c d Hp Hip) as [Hb Hs].
    split; [exact Hb|]. now exists 4%nat, 32, p.
  - destruct (parsed_colon ip n p Hp) as [Hirr|(Hb & [(_ & Hs)|Hs])].
    + left. exact Hirr.
    + right. split; [exact Hb|]. now exists 4%nat, 32, (p - 96).
    + right. split; [exact Hb|]. now exists 16%nat, 128, p.
Qed.

(** Of two networks that share an address, the one with the shorter prefix
    contains every address that the other, read as [seenAs] says, contains
    as its own. *)
Lemma shared_address_wider ipA netA ipB netB len bitsA qA bitsB qB x :
  seenAs ipA netA len bitsA qA ->
  seenAs ipB netB len bitsB qB ->
  qA <= qB ->
  Contains netA x = true -> Contains netB x = true ->
  Contains netA ipB = true.
Proof.
  intros (HnA & HlA & HmA & HbA & HqA) (HnB & HlB & HmB & HbB & HqB) Hle HxA HxB.
  assert (Hbits : bitsA = bitsB) by (destruct HbA as [[? ?]|[? ?]], HbB as [[? ?]|[? ?]]; lia).
  subst bitsB.
  apply (Contains_iff _ _ _ _ HnA) in HxA as [HxlA HxA].
  apply (Contains_iff _ _ _ _ HnB) in HxB as [HxlB HxB].
  rewrite andBytes_length in HxlA, HxA, HxlB, HxB by congruence.
  apply (Contains_iff _ _ _ _ HnA).
  rewrite andBytes_length by congruence.
  split; [congruence|]. intros i Hi.
  rewrite (HxA i Hi).
  apply (land_transfer _ _ _ (idx (CIDRMask qB bitsA) i)).
  - apply CIDRMask_nested; [|lia..].
    destruct HbA as [[_ ->]|[_ ->]]; auto.
  - rewrite <- (HxB i ltac:(lia)). apply agree_point.
Qed.

End Overlap.

(** * Further properties of the package *)

(** ** [Create]: every answer sequence *)

Section CreateRuns.

Variable req : DescribeStacksInput.

Lemma pollAndSleep_events pre : Forall (pollEvent req) (pollAndSleep req pre).
Proof.
  unfold pollAndSleep. induction pre as [|r pre IH]; cbn [flat_map app].
  - constructor.
  - constructor; [left; reflexivity|]. constructor; [right; reflexivity|exact IH].
Qed.

(** X1.  Whatever the provider answers, the polling loop of [Create] causes
    nothing but polls of the one request and three-second sleeps, one poll
    more than sleeps; it consumes the answers from the front, one per poll,
    and when it is left waiting it has consumed them all and issued one poll
    more. *)
Theorem Create_poll_accounting (responses : list (error + DescribeStacksOutput)) :
  let '(t, p, rest) := Create_poll req responses in
  Forall (pollEvent req) t /\
  polls t = S (delays t) /\
  exists consumed,
    responses = consumed ++ rest /\
    match p with
    | Finished _ => polls t = length consumed
    | AwaitingResponse => rest = [] /\ polls t = S (length consumed)
    end.
Proof.
  assert (Hcall : Forall (pollEvent req) [DescribeStacksCall req])
    by (constructor; [left; reflexivity|constructor]).
  induction responses as [|r responses IH]; cbn [Create_poll].
  - split; [exact Hcall|]. split; [reflexivity|]. exists []. auto.
  - assert (Hstop : forall o,
              Forall (pollEvent req) [DescribeStacksCall req] /\
              polls [DescribeStacksCall req] = S (delays [DescribeStacksCall req]) /\
              exists consumed,
                r :: responses = consumed ++ responses /\
                match (Finished o : Progress (option error)) with
                | Finished _ => polls [DescribeStacksCall req] = length consumed
                | AwaitingResponse =>
                    responses = [] /\ polls [DescribeStacksCall req] = S (length consumed)
                end).
    { intros o. split; [exact Hcall|]. split; [reflexivity|]. exists [r]. auto. }
    destruct r as [err|resp]; [exact (Hstop None)|].
    destruct (Stacks resp) as [|stack0 others] eqn:Hs; [exact (Hstop None)|].
    destruct (String.eqb _ ResourceStatusCreateComplete); [exact (Hstop None)|].
    destruct (String.eqb _ ResourceStatusCreateFailed); [exact (Hstop None)|].
    destruct (String.eqb _ ResourceStatusCreateInProgress); [|exact (Hstop None)].
    destruct (Create_poll req responses) as [[t p] rest].
    destruct IH as (Hev & Hcount & consumed & -> & Hp).
    split.
    { constructor; [left; reflexivity|]. constructor; [right; reflexivity|exact Hev]. }
    split.
    { unfold polls, delays in *. cbn. lia. }
    exists (inr resp :: consumed). split; [reflexivity|].
    unfold polls in *. destruct p; cbn in *; [lia|]. destruct Hp as [-> Hp]. split; [reflexivity|lia].
Qed.

(** X2.  When the polling loop of [Create] returns, it does so on the first
    answer that is not an in-progress status: the answers before it were all
    in progress, each paid with one sleep, the answers behind it are left,
    and the error is nil exactly when that answer carried CREATE_COMPLETE. *)
Theorem Create_poll_returns_on_first_terminal
    (responses : list (error + DescribeStacksOutput)) t o rest :
  Create_poll req responses = (t, Finished o, rest) ->
  exists pre r,
    responses = pre ++ r :: rest /\
    Forall inProgress pre /\ ~ inProgress r /\
    t = pollAndSleep req pre ++ [DescribeStacksCall req] /\
    (o = None <-> statusOf r = Some ResourceStatusCreateComplete).
Proof.
  revert t. induction responses as [|r responses IH]; intros t; cbn [Create_poll].
  - discriminate.
  - assert (Hstop : forall o',
              ~ inProgress r ->
              (o' = None <-> statusOf r = Some ResourceStatusCreateComplete) ->
              ([DescribeStacksCall req], Finished o', responses) = (t, Finished o, rest) ->
              exists pre r0,
                r :: responses = pre ++ r0 :: rest /\
                Forall inProgress pre /\ ~ inProgress r0 /\
                t = pollAndSleep req pre ++ [DescribeStacksCall req] /\
                (o = None <-> statusOf r0 = Some ResourceStatusCreateComplete)).
    { intros o' Hnot Hiff [= <- <- <-]. exists [], r. repeat split; auto; apply Hiff. }
    unfold inProgress in *.
    destruct r as [err|resp].
    { apply Hstop; cbn; [discriminate|split; discriminate]. }
    cbn [statusOf] in *.
    destruct (Stacks resp) as [|stack0 others] eqn:Hs; rewrite ?Hs in Hstop.
    { apply Hstop; [discriminate|split; discriminate]. }
    destruct (String.eqb_spec (aws.StringValue (StackStatus stack0))
                ResourceStatusCreateComplete) as [Ec|Ec].
    { apply Hstop; [rewrite Ec; discriminate|]. rewrite Ec. split; reflexivity. }
    destruct (String.eqb_spec (aws.StringValue (StackStatus stack0))
                ResourceStatusCreateFailed) as [Ef|Ef].
    { apply Hstop; [rewrite Ef; discriminate|]. split; [discriminate|].
      intros [= E]. contradiction. }
    destruct (String.eqb_spec (aws.StringValue (StackStatus stack0))
                ResourceStatusCreateInProgress) as [Ep|Ep].
    2:{ apply Hstop; [intros [= E]; contradiction|]. split; [discriminate|].
        intros [= E]. contradiction. }
    destruct (Create_poll req responses) as [[t' p'] rest'].
    intros [= <- -> <-].
    destruct (IH t' eq_refl) as (pre & r0 & -> & Hpre & Hr0 & -> & Hiff).
    exists (inr resp :: pre), r0. split; [reflexivity|]. split.
    { constructor; [|exact Hpre]. cbn. rewrite Hs. f_equal. exact Ep. }
    split; [exact Hr0|]. split; [reflexivity|exact Hiff].
Qed.

(** X3.  An error of a poll, or an answer without any stack, ends the polling
    loop of [Create] at once, after any number of in-progress answers: the
    error is returned as it came (or says that the stack was not found), and
    no answer behind it is consumed. *)
Theorem Create_poll_failed_poll_is_final
    (pre : list (error + DescribeStacksOutput)) rest :
  Forall inProgress pre ->
  (forall err,
     Create_poll req (pre ++ inl err :: rest)
       = (pollAndSleep req pre ++ [DescribeStacksCall req], Finished (Some err), rest)) /\
  (forall resp,
     Stacks resp = [] ->
     Create_poll req (pre ++ inr resp :: rest)
       = (pollAndSleep req pre ++ [DescribeStacksCall req],
          Finished (Some "stack not found"), rest)).
Proof.
  intros Hpre. split.
  - intros err. rewrite (Create_poll_after_in_progress req pre _ Hpre). reflexivity.
  - intros resp Hs. rewrite (Create_poll_after_in_progress req pre _ Hpre).
    cbn [Create_poll]. rewrite Hs. reflexivity.
Qed.

End CreateRuns.

Lemma Create_poll_returns_on_first_terminal_witness :
  let req := {| dsi_StackName := Some "stack-id" |} in
  exists pre r,
    [stackIn "CREATE_IN_PROGRESS"; stackIn "CREATE_FAILED"; stackIn "CREATE_COMPLETE"]
      = pre ++ r :: [stackIn "CREATE_COMPLETE"] /\
    Forall inProgress pre /\ ~ inProgress r /\
    [DescribeStacksCall req; Sleep (3 * Second); DescribeStacksCall req]
      = pollAndSleep req pre ++ [DescribeStacksCall req] /\
    (Some "Stack creation failed: CREATE_FAILED : "%string = None
     <-> statusOf r = Some ResourceStatusCreateComplete).
Proof.
  intros req.
  apply (Create_poll_returns_on_first_terminal req
           [stackIn "CREATE_IN_PROGRESS"; stackIn "CREATE_FAILED"; stackIn "CREATE_COMPLETE"]).
  reflexivity.
Defined.

Lemma Create_poll_failed_poll_is_final_witness :
  let req := {| dsi_StackName := Some "stack-id" |} in
  let pending := stackIn "CREATE_IN_PROGRESS" in
  Create_poll req [pending; inl "RequestError: send request failed"; pending]
    = ([DescribeStacksCall req; Sleep (3 * Second); DescribeStacksCall req],
       Finished (Some "RequestError: send request failed"), [pending])
  /\ Create_poll req [pending; inr {| Stacks := [] |}; pending]
    = ([DescribeStacksCall req; Sleep (3 * Second); DescribeStacksCall req],
       Finished (Some "stack not found"), [pending]).
Proof.
  intros req pending.
  destruct (Create_poll_failed_poll_is_final req [pending] [pending])
    as [Herr Hnone]; [repeat constructor|].
  split; [apply Herr|apply Hnone; reflexivity].
Defined.

(** X4.  [Create] submits the stack once, under the cluster name, with
    on-failure policy DO_NOTHING and the IAM capability.  When the submission
    fails it returns that error as it came, polls nothing and consumes no
    answer; otherwise everything that follows is the polling loop on the
    stack id the submission returned. *)
Theorem Create_submits_once svc c stackBody
    (responses : list (error + DescribeStacksOutput)) :
  match CreateStack svc (createRequest c stackBody) with
  | inl err =>
      Create svc c stackBody responses
        = ([CreateStackCall (createRequest c stackBody)], Finished (Some err), responses)
  | inr resp =>
      let req := {| dsi_StackName := cso_StackId resp |} in
      let '(t, p, rest) := Create svc c stackBody responses in
      exists t',
        t = CreateStackCall (createRequest c stackBody) :: t' /\
        (t', p, rest) = Create_poll req responses /\
        Forall (pollEvent req) t'
  end.
Proof.
  pose proof (Create_submits_then_polls svc c stackBody responses) as H.
  cbv zeta in H. fold (createRequest c stackBody) in H.
  destruct (CreateStack svc (createRequest c stackBody)) as [err|resp]; [exact H|].
  cbv zeta. rewrite H.
  pose proof (Create_poll_accounting {| dsi_StackName := cso_StackId resp |} responses) as Hacc.
  destruct (Create_poll _ responses) as [[t p] rest]. cbn [fst snd].
  exists t. split; [reflexivity|]. split; [reflexivity|]. apply Hacc.
Qed.

(** ** [Update] *)

Section UpdateRuns.

Variable updateOutput : UpdateStackOutput.
Variable req : DescribeStacksInput.

Lemma Update_poll_in_progress r rest :
  updateInProgress r ->
  Update_poll updateOutput req (r :: rest) =
    let '(t, p, rest') := Update_poll updateOutput req rest in
    (DescribeStacksCall req :: Sleep (3 * Second) :: t, p, rest').
Proof.
  unfold updateInProgress, statusOf.
  destruct r as [e|resp]; [discriminate|].
  cbn [Update_poll]. destruct (Stacks resp) as [|stack0 others]; [discriminate|].
  intros [= ->]. reflexivity.
Qed.

Lemma Update_poll_after_in_progress pre tail :
  Forall updateInProgress pre ->
  Update_poll updateOutput req (pre ++ tail) =
    let '(t, p, rest') := Update_poll updateOutput req tail in
    (pollAndSleep req pre ++ t, p, rest').
Proof.
  induction 1 as [|r pre Hr _ IH]; cbn [app].
  - destruct (Update_poll updateOutput req tail) as [[t p] rest']. reflexivity.
  - rewrite (Update_poll_in_progress _ _ Hr), IH.
    destruct (Update_poll updateOutput req tail) as [[t p] rest']. reflexivity.
Qed.

Lemma Update_poll_terminal r rest status :
  statusOf r = Some status ->
  status <> ResourceStatusUpdateInProgress ->
  Update_poll updateOutput req (r :: rest) =
    ([DescribeStacksCall req],
     Finished
       (if String.eqb status ResourceStatusUpdateComplete then
          (uso_String updateOutput, None)
        else if updateFailure status then
          ("", Some ("Stack status: " ++ status ++ " : " ++ reasonOf r)%string)
        else ("", Some ("unexpected stack status: " ++ status)%string)),
     rest).
Proof.
  unfold statusOf, reasonOf, updateFailure.
  destruct r as [e|resp]; [discriminate|].
  cbn [Update_poll]. destruct (Stacks resp) as [|stack0 others]; [discriminate|].
  intros [= <-] Hnot.
  destruct (String.eqb _ ResourceStatusUpdateComplete); [reflexivity|].
  destruct (_ || _); [reflexivity|].
  destruct (String.eqb_spec (aws.StringValue (StackStatus stack0))
              ResourceStatusUpdateInProgress) as [E|_]; [contradiction|reflexivity].
Qed.

(** X5.  The polling loop of [Update] over the answers of the provider:
    every UPDATE_IN_PROGRESS answer costs one three-second sleep and another
    poll; the first UPDATE_COMPLETE returns the rendering of the update
    response with a nil error; UPDATE_FAILED, UPDATE_ROLLBACK_COMPLETE and
    UPDATE_ROLLBACK_FAILED return an error with the status and the
    provider's reason; every other status, the provider's other in-progress
    statuses among them, returns the unexpected-status error; an error of a
    poll is returned as it came.  No answer behind the terminal one is
    consumed, and an error comes with the empty string. *)
Theorem Update_poll_lifecycle
    (pre : list (error + DescribeStacksOutput))
    (r : error + DescribeStacksOutput)
    (rest : list (error + DescribeStacksOutput)) :
  Forall updateInProgress pre ->
  let t := pollAndSleep req pre ++ [DescribeStacksCall req] in
  Update_poll updateOutput req pre = (t, AwaitingResponse, []) /\
  (statusOf r = Some ResourceStatusUpdateComplete ->
     Update_poll updateOutput req (pre ++ r :: rest)
       = (t, Finished (uso_String updateOutput, None), rest)) /\
  (forall status,
     statusOf r = Some status -> updateFailure status = true ->
     Update_poll updateOutput req (pre ++ r :: rest)
       = (t, Finished ("", Some ("Stack status: " ++ status ++ " : " ++ reasonOf r)%string),
          rest)) /\
  (forall status,
     statusOf r = Some status ->
     status <> ResourceStatusUpdateInProgress ->
     status <> ResourceStatusUpdateComplete ->
     updateFailure status = false ->
     Update_poll updateOutput req (pre ++ r :: rest)
       = (t, Finished ("", Some ("unexpected stack status: " ++ status)%string), rest)) /\
  (forall err,
     Update_poll updateOutput req (pre ++ inl err :: rest)
       = (t, Finished ("", Some err), rest)) /\
  (forall resp,
     Stacks resp = [] ->
     Update_poll updateOutput req (pre ++ inr resp :: rest)
       = (t, Finished ("", Some "stack not found"), rest)).
Proof.
  intros Hpre t.
  assert (Hterm : forall status,
            statusOf r = Some status ->
            status <> ResourceStatusUpdateInProgress ->
            Update_poll updateOutput req (pre ++ r :: rest) =
              (t, Finished
                    (if String.eqb status ResourceStatusUpdateComplete then
                       (uso_String updateOutput, None)
                     else if updateFailure status then
                       ("", Some ("Stack status: " ++ status ++ " : " ++ reasonOf r)%string)
                     else ("", Some ("unexpected stack status: " ++ status)%string)),
               rest)).
  { intros status Hs Hnot.
    rewrite (Update_poll_after_in_progress pre (r :: rest) Hpre),
            (Update_poll_terminal r rest status Hs Hnot).
    reflexivity. }
  split; [|split; [|split; [|split; [|split]]]].
  - rewrite <- (app_nil_r pre) at 1.
    rewrite (Update_poll_after_in_progress pre [] Hpre). reflexivity.
  - intros Hs. rewrite (Hterm _ Hs); [reflexivity|discriminate].
  - intros status Hs Hf. rewrite (Hterm _ Hs).
    + destruct (String.eqb_spec status ResourceStatusUpdateComplete) as [->|_];
        [discriminate Hf|]. rewrite Hf. reflexivity.
    + intros ->. discriminate Hf.
  - intros status Hs Hip Hc Hf. rewrite (Hterm _ Hs Hip).
    destruct (String.eqb_spec status ResourceStatusUpdateComplete); [contradiction|].
    rewrite Hf. reflexivity.
  - intros err. rewrite (Update_poll_after_in_progress pre _ Hpre). reflexivity.
  - intros resp Hs. rewrite (Update_poll_after_in_progress pre _ Hpre).
    cbn [Update_poll]. rewrite Hs. reflexivity.
Qed.

(** X6.  When the polling loop of [Update] returns, it does so on the first
    answer that is not UPDATE_IN_PROGRESS; it returns a nil error exactly
    when that answer carried UPDATE_COMPLETE, then with the rendering of the
    update response, and with the empty string otherwise. *)
Theorem Update_poll_returns_on_first_terminal
    (responses : list (error + DescribeStacksOutput)) t out o rest :
  Update_poll updateOutput req responses = (t, Finished (out, o), rest) ->
  exists pre r,
    responses = pre ++ r :: rest /\
    Forall updateInProgress pre /\ ~ updateInProgress r /\
    t = pollAndSleep req pre ++ [DescribeStacksCall req] /\
    (o = None <-> statusOf r = Some ResourceStatusUpdateComplete) /\
    out = match o with Some _ => "" | None => uso_String updateOutput end.
Proof.
  revert t. induction responses as [|r responses IH]; intros t; cbn [Update_poll].
  - discriminate.
  - assert (Hstop : forall out' o',
              ~ updateInProgress r ->
              (o' = None <-> statusOf r = Some ResourceStatusUpdateComplete) ->
              out' = match o' with Some _ => "" | None => uso_String updateOutput end ->
              ([DescribeStacksCall req], Finished (out', o'), responses)
                = (t, Finished (out, o), rest) ->
              exists pre r0,
                r :: responses = pre ++ r0 :: rest /\
                Forall updateInProgress pre /\ ~ updateInProgress r0 /\
                t = pollAndSleep req pre ++ [DescribeStacksCall req] /\
                (o = None <-> statusOf r0 = Some ResourceStatusUpdateComplete) /\
                out = match o with Some _ => "" | None => uso_String updateOutput end).
    { intros out' o' Hnot Hiff Hout [= <- <- <- <-]. exists [], r.
      repeat split; auto; apply Hiff. }
    unfold updateInProgress in *.
    destruct r as [err|resp].
    { apply Hstop; cbn; [discriminate|split; discriminate|reflexivity]. }
    cbn [statusOf] in *.
    destruct (Stacks resp) as [|stack0 others] eqn:Hs; rewrite ?Hs in Hstop.
    { apply Hstop; [discriminate|split; discriminate|reflexivity]. }
    destruct (String.eqb_spec (aws.StringValue (StackStatus stack0))
                ResourceStatusUpdateComplete) as [Ec|Ec].
    { apply Hstop; [rewrite Ec; discriminate| |reflexivity].
      rewrite Ec. split; reflexivity. }
    destruct (_ || _) eqn:Ef.
    { apply Hstop; [|split; [discriminate|intros [= E]; contradiction]|reflexivity].
      intros [= E]. rewrite E in Ef. discriminate Ef. }
    destruct (String.eqb_spec (aws.StringValue (StackStatus stack0))
                ResourceStatusUpdateInProgress) as [Ep|Ep].
    2:{ apply Hstop; [intros [= E]; contradiction| |reflexivity].
        split; [discriminate|]. intros [= E]. contradiction. }
    destruct (Update_poll updateOutput req responses) as [[t' p'] rest'].
    intros [= <- -> <-].
    destruct (IH t' eq_refl) as (pre & r0 & -> & Hpre & Hr0 & -> & Hiff & Hout).
    exists (inr resp :: pre), r0. split; [reflexivity|]. split.
    { constructor; [|exact Hpre]. cbn. rewrite Hs. f_equal. exact Ep. }
    split; [exact Hr0|]. split; [reflexivity|]. split; [exact Hiff|exact Hout].
Qed.

End UpdateRuns.

Lemma Update_poll_lifecycle_witness :
  let out := {| uso_StackId := Some "stack-id"; uso_String := "{ StackId: stack-id }" |} in
  let req := {| dsi_StackName := Some "stack-id" |} in
  let pending := stackIn "UPDATE_IN_PROGRESS" in
  Update_poll out req [pending; pending; stackIn "UPDATE_COMPLETE"; pending]
    = ([DescribeStacksCall req; Sleep (3 * Second);
        DescribeStacksCall req; Sleep (3 * Second);
        DescribeStacksCall req],
       Finished ("{ StackId: stack-id }", None), [pending])
  /\ Update_poll out req [pending; stackWithStatus "UPDATE_ROLLBACK_COMPLETE" "X"]
    = ([DescribeStacksCall req; Sleep (3 * Second); DescribeStacksCall req],
       Finished ("", Some "Stack status: UPDATE_ROLLBACK_COMPLETE : X"), [])
  /\ Update_poll out req [pending; stackIn "UPDATE_COMPLETE_CLEANUP_IN_PROGRESS"; pending]
    = ([DescribeStacksCall req; Sleep (3 * Second); DescribeStacksCall req],
       Finished ("", Some "unexpected stack status: UPDATE_COMPLETE_CLEANUP_IN_PROGRESS"),
       [pending]).
Proof.
  intros out req pending.
  assert (Hp : updateInProgress pending) by reflexivity.
  split; [|split].
  - destruct (Update_poll_lifecycle out req [pending; pending]
                (stackIn "UPDATE_COMPLETE") [pending])
      as (_ & Hc & _); [repeat constructor|].
    apply Hc. reflexivity.
  - destruct (Update_poll_lifecycle out req [pending]
                (stackWithStatus "UPDATE_ROLLBACK_COMPLETE" "X") [])
      as (_ & _ & Hf & _); [repeat constructor|].
    apply (Hf "UPDATE_ROLLBACK_COMPLETE"); reflexivity.
  - destruct (Update_poll_lifecycle out req [pending]
                (stackIn "UPDATE_COMPLETE_CLEANUP_IN_PROGRESS") [pending])
      as (_ & _ & _ & Hu & _); [repeat constructor|].
    apply (Hu "UPDATE_COMPLETE_CLEANUP_IN_PROGRESS"); [reflexivity| | |reflexivity];
      discriminate.
Defined.

Lemma Update_poll_returns_on_first_terminal_witness :
  let out := {| uso_StackId := Some "stack-id"; uso_String := "{ StackId: stack-id }" |} in
  let req := {| dsi_StackName := Some "stack-id" |} in
  exists pre r,
    [stackIn "UPDATE_IN_PROGRESS"; stackIn "UPDATE_COMPLETE"; stackIn "UPDATE_FAILED"]
      = pre ++ r :: [stackIn "UPDATE_FAILED"] /\
    Forall updateInProgress pre /\ ~ updateInProgress r /\
    [DescribeStacksCall req; Sleep (3 * Second); DescribeStacksCall req]
      = pollAndSleep req pre ++ [DescribeStacksCall req] /\
    (@None error = None <-> statusOf r = Some ResourceStatusUpdateComplete) /\
    "{ StackId: stack-id }" = "{ StackId: stack-id }".
Proof.
  intros out req.
  apply (Update_poll_returns_on_first_terminal out req
           [stackIn "UPDATE_IN_PROGRESS"; stackIn "UPDATE_COMPLETE"; stackIn "UPDATE_FAILED"]).
  reflexivity.
Defined.

Lemma Update_poll_events updateOutput req
    (responses : list (error + DescribeStacksOutput)) :
  Forall (pollEvent req) (fst (fst (Update_poll updateOutput req responses))).
Proof.
  assert (Hcall : Forall (pollEvent req) [DescribeStacksCall req])
    by (constructor; [left; reflexivity|constructor]).
  induction responses as [|r responses IH]; cbn [Update_poll]; [exact Hcall|].
  destruct r as [err|resp]; [exact Hcall|].
  destruct (Stacks resp) as [|stack0 others]; [exact Hcall|].
  destruct (String.eqb _ ResourceStatusUpdateComplete); [exact Hcall|].
  destruct (_ || _); [exact Hcall|].
  destruct (String.eqb _ ResourceStatusUpdateInProgress); [|exact Hcall].
  destruct (Update_poll updateOutput req responses) as [[t p] rest]. cbn [fst] in *.
  constructor; [left; reflexivity|]. constructor; [right; reflexivity|exact IH].
Qed.

(** X7.  [Update] submits the update once, under the cluster name and with
    the IAM capability.  When the submission fails it returns the empty
    string and the error under the prefix [error updating cloudformation
    stack: ], polls nothing and consumes no answer; otherwise everything that
    follows is the polling loop on the stack id the submission returned:
    polls of that id and three-second sleeps, nothing else. *)
Theorem Update_submits_once ssvc c stackBody
    (responses : list (error + DescribeStacksOutput)) :
  match UpdateStack ssvc (updateRequest c stackBody) with
  | inl err =>
      Update ssvc c stackBody responses
        = ([UpdateStackCall (updateRequest c stackBody)],
           Finished ("", Some ("error updating cloudformation stack: " ++ err)%string),
           responses)
  | inr updateOutput =>
      let req := {| dsi_StackName := uso_StackId updateOutput |} in
      let '(t, p, rest) := Update ssvc c stackBody responses in
      exists t',
        t = UpdateStackCall (updateRequest c stackBody) :: map Polling t' /\
        (t', p, rest) = Update_poll updateOutput req responses /\
        Forall (pollEvent req) t'
  end.
Proof.
  unfold Update. fold (updateRequest c stackBody).
  destruct (UpdateStack ssvc (updateRequest c stackBody)) as [err|out]; [reflexivity|].
  cbv zeta.
  pose proof (Update_poll_events out {| dsi_StackName := uso_StackId out |} responses) as Hev.
  destruct (Update_poll out _ responses) as [[t p] rest].
  exists t. split; [reflexivity|]. split; [reflexivity|exact Hev].
Qed.

(** ** [Info]: the listing and the scan *)

Section InfoRuns.

Variable c : Cluster.

Lemma Info_list_error pages err rest :
  Forall morePages pages ->
  forall first resources,
    Info_list c first resources (map inr pages ++ inl err :: rest)
      = (listingCalls c first pages, Finished (inl err), rest).
Proof.
  unfold listingCalls.
  induction 1 as [|p pages Hp _ IH]; intros first resources.
  - reflexivity.
  - cbn [map app Info_list].
    destruct (String.eqb_spec (aws.StringValue (lsro_NextToken p)) "") as [E|_];
      [contradiction|].
    rewrite IH. reflexivity.
Qed.

(** X8.  [Info] follows the continuation tokens: for a listing of pages that
    each announce a successor and a final page with a nil or empty token, it
    issues one call per page, the first without token and each further one
    with the token of the page before, scans the resources of all pages in
    page order, and leaves the answers behind the final page alone. *)
Theorem Info_pagination pages final rest :
  Forall morePages pages -> finalPage final ->
  let '(t, p, rest') := Info c (listing pages final ++ rest) in
  rest' = rest /\
  p = Finished (Info_scan {| Name := ""; ControllerIP := "" |}
                  (flat_map StackResourceSummaries pages ++ StackResourceSummaries final)) /\
  length t = S (length pages) /\
  nth_error t 0
    = Some (ListStackResourcesCall {| lsri_StackName := Some (ClusterName c);
                                      lsri_NextToken := None |}) /\
  forall k pg,
    nth_error pages k = Some pg ->
    nth_error t (S k)
      = Some (ListStackResourcesCall {| lsri_StackName := Some (ClusterName c);
                                        lsri_NextToken := lsro_NextToken pg |}).
Proof.
  intros Hpages Hfinal.
  rewrite (Info_complete c pages final rest Hpages Hfinal).
  split; [reflexivity|]. split.
  { unfold listed. rewrite flat_map_app. cbn [flat_map]. rewrite app_nil_r. reflexivity. }
  unfold listingCalls. cbn [map]. split.
  { cbn [length]. rewrite !length_map. reflexivity. }
  split; [reflexivity|].
  intros k pg Hk. cbn [nth_error]. rewrite map_map.
  rewrite (map_nth_error _ _ _ Hk). reflexivity.
Qed.

(** X9.  An error of the listing on any page ends [Info]: it returns no info
    and that error as it came, drops the resources of the pages before, and
    issues no further call. *)
Theorem Info_listing_error pages err rest :
  Forall morePages pages ->
  Info c (map inr pages ++ inl err :: rest)
    = (listingCalls c None pages, Finished (None, Some err), rest).
Proof.
  intros Hpages. unfold Info. rewrite (Info_list_error pages err rest Hpages).
  reflexivity.
Qed.

(** X10.  The scan of [Info] looks at the resources with logical id
    EIPController only: dropping all other resources from the list changes
    nothing. *)
Theorem Info_scan_ignores_other_resources info resources :
  Info_scan info resources = Info_scan info (filter isController resources).
Proof.
  revert info. induction resources as [|r resources IH]; intros info; [reflexivity|].
  cbn [Info_scan filter]. unfold isController at 1.
  destruct (String.eqb (aws.StringValue (LogicalResourceId r)) "EIPController") eqn:E.
  - cbn [Info_scan]. rewrite E.
    destruct (PhysicalResourceId r); [apply IH|reflexivity].
  - apply IH.
Qed.

Lemma Info_scan_exclusive resources : forall info,
  match Info_scan info resources with
  | (Some _, None) | (None, Some _) => True
  | _ => False
  end.
Proof.
  induction resources as [|r resources IH]; intros info; cbn [Info_scan]; [exact I|].
  destruct (String.eqb _ "EIPController"); [|apply IH].
  destruct (PhysicalResourceId r); [apply IH|exact I].
Qed.

(** X11.  Whenever [Info] returns, exactly one of the info and the error is
    nil, whatever the provider answered. *)
Theorem Info_returns_info_or_error (responses : list (error + ListStackResourcesOutput)) :
  match snd (fst (Info c responses)) with
  | Finished (Some _, None) | Finished (None, Some _) | AwaitingResponse => True
  | Finished _ => False
  end.
Proof.
  unfold Info.
  destruct (Info_list c None [] responses) as [[t [[err|resources]|]] rest];
    cbn [fst snd]; try exact I.
  apply Info_scan_exclusive.
Qed.

Lemma last_cons_default {A} (a : A) (l : list A) (d : A) : last (a :: l) d = last l a.
Proof.
  revert a d. induction l as [|b l IH]; intros a d; [reflexivity|].
  change (last (a :: b :: l) d) with (last (b :: l) d).
  rewrite (IH b d), (IH b a). reflexivity.
Qed.

Lemma Info_scan_last resources : forall info,
  Forall populated resources ->
  Info_scan info resources
    = (Some {| Name := Name info;
               ControllerIP := last (map (fun r => aws.StringValue (PhysicalResourceId r))
                                         (filter isController resources))
                                    (ControllerIP info) |}, None).
Proof.
  unfold populated.
  induction resources as [|r resources IH]; intros info Hall.
  - destruct info; reflexivity.
  - inversion Hall as [|? ? Hr Hrest]; subst.
    cbn [Info_scan filter]. unfold isController at 1. unfold isController in Hr.
    destruct (String.eqb (aws.StringValue (LogicalResourceId r)) "EIPController").
    + destruct (PhysicalResourceId r) as [p|] eqn:Hp; [|now elim Hr].
      rewrite (IH _ Hrest). cbn [map Name ControllerIP].
      rewrite last_cons_default, Hp. reflexivity.
    + apply IH. exact Hrest.
Qed.

(** X12.  When every listed controller-address resource has a physical id,
    [Info] succeeds and the last of them in listing order decides
    [ControllerIP]; an earlier one is overwritten. *)
Theorem Info_last_controller_wins pages final rest :
  Forall morePages pages -> finalPage final ->
  Forall populated (listed pages final) ->
  Info c (listing pages final ++ rest)
    = (listingCalls c None pages,
       Finished (Some {| Name := "";
                         ControllerIP := lastControllerIP (listed pages final) |}, None),
       rest).
Proof.
  intros Hpages Hfinal Hall.
  rewrite (Info_complete c pages final rest Hpages Hfinal).
  rewrite (Info_scan_last _ _ Hall). reflexivity.
Qed.

End InfoRuns.

Lemma Info_pagination_witness :
  let '(t, p, rest') :=
    Info mycluster
      (listing [page [resource "VPC" (Some "vpc-1")] (Some "t1");
                page [resource "EIPController" (Some "203.0.113.10")] (Some "t2")]
               (page [resource "Subnet" (Some "subnet-1")] (Some ""))
       ++ [inl "never asked"]) in
  rest' = [inl "never asked"] /\
  p = Finished (Some {| Name := ""; ControllerIP := "203.0.113.10" |}, None) /\
  length t = 3%nat /\
  nth_error t 0
    = Some (ListStackResourcesCall {| lsri_StackName := Some "mycluster";
                                      lsri_NextToken := None |}) /\
  nth_error t 2
    = Some (ListStackResourcesCall {| lsri_StackName := Some "mycluster";
                                      lsri_NextToken := Some "t2" |}).
Proof.
  pose proof (Info_pagination mycluster
                [page [resource "VPC" (Some "vpc-1")] (Some "t1");
                 page [resource "EIPController" (Some "203.0.113.10")] (Some "t2")]
                (page [resource "Subnet" (Some "subnet-1")] (Some ""))
                [inl "never asked"]) as H.
  cbv beta iota zeta in H.
  destruct (Info mycluster _) as [[t p] rest'].
  destruct H as (Hrest & Hp & Hlen & H0 & Hk).
  - repeat constructor; discriminate.
  - reflexivity.
  - split; [exact Hrest|]. split; [exact Hp|]. split; [exact Hlen|]. split; [exact H0|].
    apply (Hk 1%nat (page [resource "EIPController" (Some "203.0.113.10")] (Some "t2"))).
    reflexivity.
Defined.

Lemma Info_listing_error_witness :
  Info mycluster
    [inr (page [resource "EIPController" (Some "203.0.113.10")] (Some "t1"));
     inl "Throttling: Rate exceeded";
     inr (page [] None)]
    = ([ListStackResourcesCall {| lsri_StackName := Some "mycluster"; lsri_NextToken := None |};
        ListStackResourcesCall {| lsri_StackName := Some "mycluster"; lsri_NextToken := Some "t1" |}],
       Finished (None, Some "Throttling: Rate exceeded"),
       [inr (page [] None)]).
Proof.
  apply (Info_listing_error mycluster
           [page [resource "EIPController" (Some "203.0.113.10")] (Some "t1")]
           "Throttling: Rate exceeded" [inr (page [] None)]).
  repeat constructor. discriminate.
Defined.

Lemma Info_last_controller_wins_witness :
  Info mycluster
    [inr (page [resource "EIPController" (Some "203.0.113.10")] (Some "t1"));
     inr (page [resource "EIPController" (Some "203.0.113.20");
                resource "VPC" None] None)]
    = ([ListStackResourcesCall {| lsri_StackName := Some "mycluster"; lsri_NextToken := None |};
        ListStackResourcesCall {| lsri_StackName := Some "mycluster"; lsri_NextToken := Some "t1" |}],
       Finished (Some {| Name := ""; ControllerIP := "203.0.113.20" |}, None), []).
Proof.
  apply (Info_last_controller_wins mycluster
           [page [resource "EIPController" (Some "203.0.113.10")] (Some "t1")]
           (page [resource "EIPController" (Some "203.0.113.20"); resource "VPC" None] None)
           []).
  - repeat constructor. discriminate.
  - reflexivity.
  - unfold listed, populated. cbn [flat_map app StackResourceSummaries page].
    repeat (apply Forall_cons; [intros H; first [discriminate H | discriminate]|]).
    apply Forall_nil.
Defined.

(** ** [validateExistingVPC]: every path *)

Lemma ParseCIDR_error s err :
  net.ParseCIDR s = inl err -> err = ("invalid CIDR address: " ++ s)%string.
Proof.
  unfold net.ParseCIDR, net.ParseError.
  destruct (byteIndex s "/") as [i|]; [|intros [= <-]; reflexivity].
  destruct (net.dtoi _) as [[n j] ok].
  destruct (net.parseIPv4 _) as [ip4|].
  - destruct (_ || _); [intros [= <-]; reflexivity|discriminate].
  - destruct (net.parseIPv6 _) as [ip6|]; [|intros [= <-]; reflexivity].
    destruct (_ || _); [intros [= <-]; reflexivity|discriminate].
Qed.

Section ConflictCheckPaths.

Variable svc : Services.
Variable c : Cluster.

Lemma validateExistingVPC_cases :
  let v := describeVpcsCall c in
  match DescribeVpcs svc {| VpcIds := [Some (VPCID c)] |} with
  | inl err =>
      validateExistingVPC svc c
        = ([v], Return (Some ("error describing existing vpc: " ++ err)%string))
  | inr vpcOutput =>
      match Vpcs vpcOutput with
      | [] =>
          validateExistingVPC svc c
            = ([v], Return (Some ("could not find vpc " ++ VPCID c
                                    ++ " in region " ++ Region c)%string))
      | _ :: _ :: _ =>
          validateExistingVPC svc c
            = ([v], Return (Some ("found more than one vpc with id " ++ VPCID c
                                    ++ ". this is NOT NORMAL.")%string))
      | [existingVPC] =>
          match vpc_CidrBlock existingVPC with
          | None => validateExistingVPC svc c = ([v], Panic NilDereference)
          | Some liveCidr =>
              if neqb liveCidr (VPCCIDR c) then
                validateExistingVPC svc c
                  = ([v], Return (Some (StaleTopologyError c liveCidr)))
              else
                let s := DescribeSubnetsCall (subnetsInput existingVPC) in
                match DescribeSubnets svc (subnetsInput existingVPC) with
                | inl err =>
                    validateExistingVPC svc c
                      = ([v; s],
                         Return (Some ("error describing subnets for vpc: " ++ err)%string))
                | inr subnetOutput =>
                    match net.ParseCIDR (InstanceCIDR c) with
                    | inl err =>
                        validateExistingVPC svc c
                          = ([v; s],
                             Return (Some ("error parsing instances cidr "
                                             ++ InstanceCIDR c ++ " : " ++ err)%string))
                    | inr (subnetIP, subnetNet) =>
                        validateExistingVPC svc c
                          = ([v; s],
                             result (scanSubnets subnetIP subnetNet (Subnets subnetOutput)))
                    end
                end
          end
      end
  end.
Proof.
  intros v. unfold validateExistingVPC. rewrite bind_emit.
  destruct (DescribeVpcs svc _) as [err|vpcOutput]; [reflexivity|].
  destruct (Vpcs vpcOutput) as [|existingVPC [|another more]]; [reflexivity| |reflexivity].
  destruct (vpc_CidrBlock existingVPC) as [liveCidr|]; [|reflexivity].
  cbn [deref]. rewrite bind_ret.
  destruct (neqb liveCidr (VPCCIDR c)); [reflexivity|].
  fold (subnetsInput existingVPC). rewrite bind_emit.
  destruct (DescribeSubnets svc _) as [err|subnetOutput]; [reflexivity|].
  destruct (net.ParseCIDR (InstanceCIDR c)) as [err|[subnetIP subnetNet]]; [reflexivity|].
  cbn [trace result fst snd].
  change (fst (scanSubnets subnetIP subnetNet (Subnets subnetOutput)))
    with (trace (scanSubnets subnetIP subnetNet (Subnets subnetOutput))).
  rewrite scanSubnets_silent. reflexivity.
Qed.

(** X13.  [validateExistingVPC] issues the VPC lookup and at most one
    subnet listing after it, and nothing else; the listing is requested
    exactly when the lookup returned a single VPC whose CIDR string is the
    configured one. *)
Theorem validateExistingVPC_calls :
  (trace (validateExistingVPC svc c) = [describeVpcsCall c] \/
   exists existingVPC,
     trace (validateExistingVPC svc c)
       = [describeVpcsCall c; DescribeSubnetsCall (subnetsInput existingVPC)]) /\
  (existsb isSubnetListing (trace (validateExistingVPC svc c)) = true <->
   exists vpcOutput existingVPC,
     DescribeVpcs svc {| VpcIds := [Some (VPCID c)] |} = inr vpcOutput /\
     Vpcs vpcOutput = [existingVPC] /\
     vpc_CidrBlock existingVPC = Some (VPCCIDR c)).
Proof.
  pose proof validateExistingVPC_cases as H. cbv zeta in H.
  destruct (DescribeVpcs svc _) as [err|vpcOutput].
  { rewrite H. split; [left; reflexivity|]. split; [discriminate|].
    intros (? & ? & [=] & _). }
  destruct (Vpcs vpcOutput) as [|existingVPC [|another more]] eqn:Hv.
  { rewrite H. split; [left; reflexivity|]. split; [discriminate|].
    intros (? & ? & [= <-] & E & _). rewrite Hv in E. discriminate. }
  2:{ rewrite H. split; [left; reflexivity|]. split; [discriminate|].
      intros (? & ? & [= <-] & E & _). rewrite Hv in E. discriminate. }
  destruct (vpc_CidrBlock existingVPC) as [liveCidr|] eqn:Hc.
  2:{ rewrite H. split; [left; reflexivity|]. split; [discriminate|].
      intros (? & ? & [= <-] & E & E'). rewrite Hv in E. injection E as <-.
      rewrite Hc in E'. discriminate. }
  destruct (neqb liveCidr (VPCCIDR c)) eqn:Hn.
  { rewrite H. split; [left; reflexivity|]. split; [discriminate|].
    intros (? & ? & [= <-] & E & E'). rewrite Hv in E. injection E as <-.
    rewrite Hc in E'. injection E' as ->.
    apply neqb_true in Hn. contradiction. }
  apply neqb_false in Hn. subst liveCidr.
  assert (Hyes : exists vpcOutput0 existingVPC0,
             inr vpcOutput = (inr vpcOutput0 : error + DescribeVpcsOutput) /\
             Vpcs vpcOutput0 = [existingVPC0] /\
             vpc_CidrBlock existingVPC0 = Some (VPCCIDR c))
    by (exists vpcOutput, existingVPC; auto).
  destruct (DescribeSubnets svc _) as [err|subnetOutput].
  { rewrite H. split; [right; now exists existingVPC|]. split; [intros _; exact Hyes|reflexivity]. }
  destruct (net.ParseCIDR (InstanceCIDR c)) as [err|[subnetIP subnetNet]];
    rewrite H; (split; [right; now exists existingVPC|]);
    (split; [intros _; exact Hyes|reflexivity]).
Qed.

(** X14.  [validateExistingVPC] returns nil only when everything checked
    out: the lookup returned a single VPC with the configured CIDR string,
    the subnet listing succeeded, the instance CIDR parsed, and every listed
    subnet has a CIDR that parses and does not overlap it; and in that case
    it does return nil. *)
Theorem validateExistingVPC_nil_iff :
  result (validateExistingVPC svc c) = Return None <->
  exists vpcOutput existingVPC subnetOutput subnetIP subnetNet,
    DescribeVpcs svc {| VpcIds := [Some (VPCID c)] |} = inr vpcOutput /\
    Vpcs vpcOutput = [existingVPC] /\
    vpc_CidrBlock existingVPC = Some (VPCCIDR c) /\
    DescribeSubnets svc (subnetsInput existingVPC) = inr subnetOutput /\
    net.ParseCIDR (InstanceCIDR c) = inr (subnetIP, subnetNet) /\
    Forall (clearOf subnetIP subnetNet) (Subnets subnetOutput).
Proof.
  split.
  - intros Hnil.
    pose proof validateExistingVPC_cases as H. cbv zeta in H.
    destruct (DescribeVpcs svc _) as [err|vpcOutput] eqn:Hd.
    { rewrite H in Hnil. discriminate. }
    destruct (Vpcs vpcOutput) as [|existingVPC [|another more]] eqn:Hv;
      [rewrite H in Hnil; discriminate| |rewrite H in Hnil; discriminate].
    destruct (vpc_CidrBlock existingVPC) as [liveCidr|] eqn:Hc;
      [|rewrite H in Hnil; discriminate].
    destruct (neqb liveCidr (VPCCIDR c)) eqn:Hn; [rewrite H in Hnil; discriminate|].
    apply neqb_false in Hn. subst liveCidr.
    destruct (DescribeSubnets svc _) as [err|subnetOutput] eqn:Hs;
      [rewrite H in Hnil; discriminate|].
    destruct (net.ParseCIDR (InstanceCIDR c)) as [err|[subnetIP subnetNet]] eqn:Hp;
      [rewrite H in Hnil; discriminate|].
    rewrite H in Hnil. cbn [result snd] in Hnil.
    exists vpcOutput, existingVPC, subnetOutput, subnetIP, subnetNet.
    repeat split; try assumption; try reflexivity.
    apply scanSubnets_nil_iff. exact Hnil.
  - intros (vpcOutput & existingVPC & subnetOutput & subnetIP & subnetNet
            & Hd & Hv & Hc & Hs & Hp & Hall).
    rewrite (validateExistingVPC_scans svc c vpcOutput existingVPC subnetOutput
               subnetIP subnetNet Hd Hv Hc Hs Hp).
    cbn [result snd]. apply scanSubnets_nil_iff. exact Hall.
Qed.

(** X15.  Unless the lookup returns exactly one VPC, [validateExistingVPC]
    fails right after it: an error of the lookup is returned under the
    prefix [error describing existing vpc: ], no VPC gives the error that
    names the VPC id and the region, more than one the error that this is
    not normal. *)
Theorem validateExistingVPC_lookup_failures :
  (forall err,
     DescribeVpcs svc {| VpcIds := [Some (VPCID c)] |} = inl err ->
     validateExistingVPC svc c
       = ([describeVpcsCall c],
          Return (Some ("error describing existing vpc: " ++ err)%string))) /\
  (forall vpcOutput,
     DescribeVpcs svc {| VpcIds := [Some (VPCID c)] |} = inr vpcOutput ->
     Vpcs vpcOutput = [] ->
     validateExistingVPC svc c
       = ([describeVpcsCall c],
          Return (Some ("could not find vpc " ++ VPCID c
                          ++ " in region " ++ Region c)%string))) /\
  (forall vpcOutput,
     DescribeVpcs svc {| VpcIds := [Some (VPCID c)] |} = inr vpcOutput ->
     (1 < length (Vpcs vpcOutput))%nat ->
     validateExistingVPC svc c
       = ([describeVpcsCall c],
          Return (Some ("found more than one vpc with id " ++ VPCID c
                          ++ ". this is NOT NORMAL.")%string))).
Proof.
  pose proof validateExistingVPC_cases as H. cbv zeta in H.
  split; [|split].
  - intros err Hd. rewrite Hd in H. exact H.
  - intros vpcOutput Hd Hv. rewrite Hd, Hv in H. exact H.
  - intros vpcOutput Hd Hv. rewrite Hd in H.
    destruct (Vpcs vpcOutput) as [|v1 [|v2 more]]; cbn in Hv; try lia. exact H.
Qed.

End ConflictCheckPaths.

Lemma validateExistingVPC_lookup_failures_witness :
  validateExistingVPC (provider (notFound "mycluster") [] (unpaged []))
                      (inVpc "10.0.0.0/16" "10.0.0.0/24")
    = ([DescribeVpcsCall {| VpcIds := [Some "vpc-1"] |}],
       Return (Some "could not find vpc vpc-1 in region us-west-1"))
  /\
  validateExistingVPC
    (provider (notFound "mycluster") [vpc1 "10.0.0.0/16"; vpc1 "10.0.0.0/16"] (unpaged []))
    (inVpc "10.0.0.0/16" "10.0.0.0/24")
    = ([DescribeVpcsCall {| VpcIds := [Some "vpc-1"] |}],
       Return (Some "found more than one vpc with id vpc-1. this is NOT NORMAL.")).
Proof.
  split.
  - apply (proj1 (proj2 (validateExistingVPC_lookup_failures
                           (provider (notFound "mycluster") [] (unpaged []))
                           (inVpc "10.0.0.0/16" "10.0.0.0/24")))
                 {| Vpcs := [] |}); reflexivity.
  - apply (proj2 (proj2 (validateExistingVPC_lookup_failures
                           (provider (notFound "mycluster")
                              [vpc1 "10.0.0.0/16"; vpc1 "10.0.0.0/16"] (unpaged []))
                           (inVpc "10.0.0.0/16" "10.0.0.0/24")))
                 {| Vpcs := [vpc1 "10.0.0.0/16"; vpc1 "10.0.0.0/16"] |});
      [reflexivity|cbn; lia].
Defined.

(** ** The scan of the subnets *)

Section SubnetScan.

Variables (subnetIP : net.IP) (subnetNet : net.IPNet).

(** X16.  Whether the scan of the subnets passes does not depend on their
    order, nor on repetitions: two listings with the same subnets are both
    passed or both refused (which conflict is reported may differ). *)
Theorem scanSubnets_verdict_ignores_order (subnets subnets' : list Subnet) :
  (forall s, In s subnets <-> In s subnets') ->
  (result (scanSubnets subnetIP subnetNet subnets) = Return None <->
   result (scanSubnets subnetIP subnetNet subnets') = Return None).
Proof.
  intros Hsame. rewrite !scanSubnets_nil_iff, !Forall_forall.
  split; intros H s Hs; apply H, Hsame, Hs.
Qed.

(** X17.  The scan stops at the first subnet it cannot pass.  A subnet whose
    CIDR does not parse, reached before any conflict, gives the parse error
    that names the CIDR, whatever comes behind it; a subnet without CIDR, or
    a conflicting subnet without subnet id, is a nil dereference. *)
Theorem scanSubnets_first_obstacle (pre : list Subnet) (s : Subnet) (post : list Subnet) :
  Forall (clearOf subnetIP subnetNet) pre ->
  (forall cidr err,
     CidrBlock s = Some cidr -> net.ParseCIDR cidr = inl err ->
     scanSubnets subnetIP subnetNet (pre ++ s :: post)
       = ([], Return (Some ("error parsing existing subnet cidr " ++ cidr
                              ++ " : invalid CIDR address: " ++ cidr)%string))) /\
  (CidrBlock s = None ->
     scanSubnets subnetIP subnetNet (pre ++ s :: post) = ([], Panic NilDereference)) /\
  (forall cidr eip enet,
     CidrBlock s = Some cidr -> net.ParseCIDR cidr = inr (eip, enet) ->
     overlaps eip enet subnetIP subnetNet = true -> SubnetId s = None ->
     scanSubnets subnetIP subnetNet (pre ++ s :: post) = ([], Panic NilDereference)).
Proof.
  intros Hpre.
  assert (Hskip : scanSubnets subnetIP subnetNet (pre ++ s :: post)
                  = scanSubnets subnetIP subnetNet (s :: post)).
  { induction Hpre as [|x pre Hx _ IH]; [reflexivity|].
    cbn [app]. rewrite (scanSubnets_pass _ _ _ _ Hx). exact IH. }
  rewrite Hskip. cbn [scanSubnets]. split; [|split].
  - intros cidr err Hc Hp. rewrite Hc. cbn [deref]. rewrite bind_ret, Hp.
    rewrite (ParseCIDR_error _ _ Hp). reflexivity.
  - intros Hc. rewrite Hc. reflexivity.
  - intros cidr eip enet Hc Hp Ho Hid. rewrite Hc. cbn [deref].
    rewrite bind_ret, Hp, Ho, Hid. reflexivity.
Qed.

End SubnetScan.

Lemma scanSubnets_verdict_ignores_order_witness :
  result (scanSubnets (net.IPv4 10 0 3 0)
            {| net.IPNet_IP := [10; 0; 3; 0]; net.IPNet_Mask := [255; 255; 255; 0] |}
            [subnet "subnet-a" "10.0.1.0/24"; subnet "subnet-b" "10.0.2.0/24"])
    = Return None
  <->
  result (scanSubnets (net.IPv4 10 0 3 0)
            {| net.IPNet_IP := [10; 0; 3; 0]; net.IPNet_Mask := [255; 255; 255; 0] |}
            [subnet "subnet-b" "10.0.2.0/24"; subnet "subnet-a" "10.0.1.0/24";
             subnet "subnet-b" "10.0.2.0/24"])
    = Return None.
Proof.
  apply scanSubnets_verdict_ignores_order.
  intros s. cbn [In]. tauto.
Defined.

Lemma scanSubnets_first_obstacle_witness :
  let ip := net.IPv4 10 0 2 0 in
  let n := {| net.IPNet_IP := [10; 0; 2; 0]; net.IPNet_Mask := [255; 255; 255; 0] |} in
  scanSubnets ip n [subnet "subnet-a" "10.0.1.0/24"; subnet "subnet-x" "10.0.2.0";
                    subnet "subnet-b" "10.0.2.0/24"]
    = ([], Return (Some ("error parsing existing subnet cidr 10.0.2.0"
                           ++ " : invalid CIDR address: 10.0.2.0")%string))
  /\
  scanSubnets ip n [subnet "subnet-a" "10.0.1.0/24";
                    {| SubnetId := None; CidrBlock := Some "10.0.2.0/25" |}]
    = ([], Panic NilDereference).
Proof.
  intros ip n.
  assert (Hpre : Forall (clearOf ip n) [subnet "subnet-a" "10.0.1.0/24"]).
  { repeat constructor. exists "10.0.1.0/24". do 2 eexists. repeat split; reflexivity. }
  split.
  - destruct (scanSubnets_first_obstacle ip n [subnet "subnet-a" "10.0.1.0/24"]
                (subnet "subnet-x" "10.0.2.0") [subnet "subnet-b" "10.0.2.0/24"] Hpre)
      as (Hparse & _).
    apply (Hparse "10.0.2.0" "invalid CIDR address: 10.0.2.0"); reflexivity.
  - destruct (scanSubnets_first_obstacle ip n [subnet "subnet-a" "10.0.1.0/24"]
                {| SubnetId := None; CidrBlock := Some "10.0.2.0/25" |} [] Hpre)
      as (_ & _ & Hid).
    eapply (Hid "10.0.2.0/25"); reflexivity.
Defined.

(** ** [validateExistingVPC]: behind the VPC checks *)

Section BehindTheVpcChecks.

Variable svc : Services.
Variable c : Cluster.
Variables (vpcOutput : DescribeVpcsOutput) (existingVPC : Vpc).

Hypothesis vpc_found : DescribeVpcs svc {| VpcIds := [Some (VPCID c)] |} = inr vpcOutput.
Hypothesis vpc_unique : Vpcs vpcOutput = [existingVPC].
Hypothesis vpc_cidr_matches : vpc_CidrBlock existingVPC = Some (VPCCIDR c).

(** X18.  Behind the VPC checks: an error of the subnet listing is returned
    under the prefix [error describing subnets for vpc: ]; and an instance
    CIDR that does not parse is refused with an error that names it, after
    the listing was fetched and whatever it holds, the empty listing
    included. *)
Theorem validateExistingVPC_listing_or_instance_cidr_fails :
  (forall err,
     DescribeSubnets svc (subnetsInput existingVPC) = inl err ->
     validateExistingVPC svc c
       = ([describeVpcsCall c; DescribeSubnetsCall (subnetsInput existingVPC)],
          Return (Some ("error describing subnets for vpc: " ++ err)%string))) /\
  (forall subnetOutput err,
     DescribeSubnets svc (subnetsInput existingVPC) = inr subnetOutput ->
     net.ParseCIDR (InstanceCIDR c) = inl err ->
     validateExistingVPC svc c
       = ([describeVpcsCall c; DescribeSubnetsCall (subnetsInput existingVPC)],
          Return (Some ("error parsing instances cidr " ++ InstanceCIDR c
                          ++ " : invalid CIDR address: " ++ InstanceCIDR c)%string))).
Proof.
  pose proof (validateExistingVPC_cases svc c) as H. cbv zeta in H.
  rewrite vpc_found, vpc_unique, vpc_cidr_matches in H.
  rewrite (proj2 (neqb_false _ _) eq_refl) in H.
  split.
  - intros err Hs. rewrite Hs in H. exact H.
  - intros subnetOutput err Hs Hp. rewrite Hs, Hp in H.
    rewrite (ParseCIDR_error _ _ Hp) in H. exact H.
Qed.

(** X19.  An existing subnet with the very CIDR of the instances is a
    conflict: when no subnet before it stops the scan, the check reports it,
    for every instance CIDR other than an IPv4-mapped IPv6 address under a
    prefix shorter than 96 bits. *)
Theorem validateExistingVPC_same_cidr_conflicts
    subnetOutput subnetIP subnetNet pre s post id :
  DescribeSubnets svc (subnetsInput existingVPC) = inr subnetOutput ->
  net.ParseCIDR (InstanceCIDR c) = inr (subnetIP, subnetNet) ->
  mappedBelow96 subnetIP subnetNet = false ->
  Subnets subnetOutput = pre ++ s :: post ->
  Forall (clearOf subnetIP subnetNet) pre ->
  CidrBlock s = Some (InstanceCIDR c) ->
  SubnetId s = Some id ->
  validateExistingVPC svc c
    = ([describeVpcsCall c; DescribeSubnetsCall (subnetsInput existingVPC)],
       Return (Some (SubnetConflictError subnetNet id subnetNet))).
Proof.
  intros Hs Hp Hreg Hsub Hpre Hc Hid.
  rewrite (validateExistingVPC_scans svc c vpcOutput existingVPC subnetOutput
             subnetIP subnetNet vpc_found vpc_unique vpc_cidr_matches Hs Hp).
  rewrite Hsub.
  assert (Ho : overlaps subnetIP subnetNet subnetIP subnetNet = true).
  { destruct (parsed_cases _ _ _ Hp) as [(E & _)|(_ & len & bits & q & Hseen)];
      [congruence|].
    unfold overlaps. rewrite (netFacts.seenAs_contains _ _ _ _ _ Hseen). reflexivity. }
  rewrite (scanSubnets_first_conflict subnetIP subnetNet pre s post
             (InstanceCIDR c) subnetIP subnetNet id Hpre Hc Hp Ho Hid).
  reflexivity.
Qed.

End BehindTheVpcChecks.

Lemma validateExistingVPC_listing_or_instance_cidr_fails_witness :
  validateExistingVPC
    (provider (notFound "mycluster") [vpc1 "10.0.0.0/16"]
       (fun _ => inl "RequestLimitExceeded"))
    (inVpc "10.0.0.0/16" "10.0.3.0/24")
    = ([DescribeVpcsCall {| VpcIds := [Some "vpc-1"] |};
        DescribeSubnetsCall (subnetsInput (vpc1 "10.0.0.0/16"))],
       Return (Some "error describing subnets for vpc: RequestLimitExceeded"))
  /\
  validateExistingVPC
    (provider (notFound "mycluster") [vpc1 "10.0.0.0/16"] (unpaged []))
    (inVpc "10.0.0.0/16" "10.0.3.0/33")
    = ([DescribeVpcsCall {| VpcIds := [Some "vpc-1"] |};
        DescribeSubnetsCall (subnetsInput (vpc1 "10.0.0.0/16"))],
       Return (Some ("error parsing instances cidr 10.0.3.0/33"
                       ++ " : invalid CIDR address: 10.0.3.0/33")%string)).
Proof.
  split.
  - apply (proj1 (validateExistingVPC_listing_or_instance_cidr_fails
                    (provider (notFound "mycluster") [vpc1 "10.0.0.0/16"]
                       (fun _ => inl "RequestLimitExceeded"))
                    (inVpc "10.0.0.0/16" "10.0.3.0/24")
                    {| Vpcs := [vpc1 "10.0.0.0/16"] |} (vpc1 "10.0.0.0/16")
                    eq_refl eq_refl eq_refl)).
    reflexivity.
  - apply (proj2 (validateExistingVPC_listing_or_instance_cidr_fails
                    (provider (notFound "mycluster") [vpc1 "10.0.0.0/16"] (unpaged []))
                    (inVpc "10.0.0.0/16" "10.0.3.0/33")
                    {| Vpcs := [vpc1 "10.0.0.0/16"] |} (vpc1 "10.0.0.0/16")
                    eq_refl eq_refl eq_refl)
                 {| Subnets := [] |}
                 "invalid CIDR address: 10.0.3.0/33"); reflexivity.
Defined.

Lemma validateExistingVPC_same_cidr_conflicts_witness :
  validateExistingVPC
    (provider (notFound "mycluster") [vpc1 "10.0.0.0/16"]
       (unpaged [subnet "subnet-a" "10.0.1.0/24"; subnet "subnet-b" "10.0.2.0/24"]))
    (inVpc "10.0.0.0/16" "10.0.2.0/24")
    = ([DescribeVpcsCall {| VpcIds := [Some "vpc-1"] |};
        DescribeSubnetsCall (subnetsInput (vpc1 "10.0.0.0/16"))],
       Return (Some ("instance cidr (10.0.2.0/24) conflicts with "
                       ++ "existing subnet subnet-b, cidr=10.0.2.0/24")%string)).
Proof.
  refine (validateExistingVPC_same_cidr_conflicts
            (provider (notFound "mycluster") [vpc1 "10.0.0.0/16"]
               (unpaged [subnet "subnet-a" "10.0.1.0/24"; subnet "subnet-b" "10.0.2.0/24"]))
            (inVpc "10.0.0.0/16" "10.0.2.0/24")
            {| Vpcs := [vpc1 "10.0.0.0/16"] |} (vpc1 "10.0.0.0/16")
            eq_refl eq_refl eq_refl
            {| Subnets := [subnet "subnet-a" "10.0.1.0/24"; subnet "subnet-b" "10.0.2.0/24"] |}
            (net.IPv4 10 0 2 0)
            {| net.IPNet_IP := [10; 0; 2; 0]; net.IPNet_Mask := [255; 255; 255; 0] |}
            [subnet "subnet-a" "10.0.1.0/24"] (subnet "subnet-b" "10.0.2.0/24") []
            "subnet-b" eq_refl eq_refl eq_refl eq_refl _ eq_refl eq_refl).
  repeat constructor. exists "10.0.1.0/24". do 2 eexists. repeat split; reflexivity.
Defined.

(** ** [ValidateStack]: every path *)

Section ValidationPaths.

Context {RE : RegexpEngine}.
Variable svc : Services.
Variables (c : Cluster) (stackBody : string).

(** X20.  [ValidateStack] fails early.  A template the provider refuses is
    returned as an error under the prefix [invalid cloudformation stack: ]
    after the one validation call, the stack never being described.  A
    cluster name that makes the not-found pattern fail to compile is a panic
    of [MustCompile], after the validation call and before the describe
    call.  More than one stack under the cluster name is an error, and no
    conflict check follows. *)
Theorem ValidateStack_early_exits :
  (forall err,
     ValidateTemplate svc {| vti_TemplateBody := Some stackBody |} = inl err ->
     ValidateStack svc c stackBody
       = ([validateTemplateCall stackBody],
          Return ("", Some ("invalid cloudformation stack: " ++ err)%string))) /\
  (forall report why,
     ValidateTemplate svc {| vti_TemplateBody := Some stackBody |} = inr report ->
     Compile (stackNotExistPattern (ClusterName c)) = inl why ->
     ValidateStack svc c stackBody
       = ([validateTemplateCall stackBody],
          Panic (MustCompileFailed (stackNotExistPattern (ClusterName c)) why))) /\
  (forall report re described,
     ValidateTemplate svc {| vti_TemplateBody := Some stackBody |} = inr report ->
     Compile (stackNotExistPattern (ClusterName c)) = inr re ->
     DescribeStacks svc {| dsi_StackName := Some (ClusterName c) |} = inr described ->
     (1 < length (Stacks described))%nat ->
     ValidateStack svc c stackBody
       = ([validateTemplateCall stackBody; describeByNameCall c],
          Return ("", Some ("expected error: found more the one stack with name "
                              ++ ClusterName c)%string))).
Proof.
  pose proof (ValidateStack_cases svc c stackBody) as H. cbv zeta in H.
  split; [|split].
  - intros err HV. rewrite HV in H. exact H.
  - intros report why HV HC. rewrite HV, HC in H. exact H.
  - intros report re described HV HC HD Hmany. rewrite HV, HC, HD in H.
    cbn [stackExistsOf] in H. apply Nat.ltb_lt in Hmany. rewrite Hmany in H. exact H.
Qed.

(** X21.  What [ValidateStack] returns is either an error with the empty
    string, or a nil error with the rendering of the report the provider
    gave for the template; it never returns a report together with an
    error. *)
Theorem ValidateStack_report_or_error :
  match result (ValidateStack svc c stackBody) with
  | Return (text, Some _) => text = ""
  | Return (text, None) =>
      exists report,
        ValidateTemplate svc {| vti_TemplateBody := Some stackBody |} = inr report /\
        text = vto_String report
  | Panic _ => True
  end.
Proof.
  pose proof (ValidateStack_cases svc c stackBody) as H. cbv zeta in H.
  destruct (ValidateTemplate svc _) as [err|report]; [rewrite H; reflexivity|].
  destruct (Compile _) as [why|re]; [rewrite H; exact I|].
  destruct (stackExistsOf c re _) as [err|stackExists]; [rewrite H; reflexivity|].
  destruct (neqb (VPCID c) "" && negb stackExists); rewrite H; cbn [result snd].
  - destruct (validateExistingVPC svc c) as [t [[err|]|r]]; cbn;
      [reflexivity|now exists report|exact I].
  - now exists report.
Qed.

End ValidationPaths.

Lemma ValidateStack_early_exits_witness :
  let refusing :=
    {| ValidateTemplate := fun _ => inl "ValidationError: Template format error";
       DescribeStacks := fun _ => notFound "mycluster";
       DescribeVpcs := fun _ => inr {| Vpcs := [] |};
       DescribeSubnets := unpaged [];
       CreateStack := fun i => inr {| cso_StackId := csi_StackName i |} |} in
  @ValidateStack fragmentEngine refusing mycluster "{"
    = ([validateTemplateCall "{"],
       Return ("", Some ("invalid cloudformation stack: "
                           ++ "ValidationError: Template format error")%string))
  /\
  @ValidateStack fragmentEngine (provider (notFound "(") [] (unpaged []))
    {| ClusterName := "("; Region := "us-west-1"; VPCID := "";
       VPCCIDR := ""; InstanceCIDR := "10.0.0.0/24" |} "{}"
    = ([validateTemplateCall "{}"],
       Panic (MustCompileFailed "^ValidationError: Stack with id ( does not exist"
                "pattern outside the literal-and-dot fragment")).
Proof.
  intros refusing. split.
  - apply (proj1 (@ValidateStack_early_exits fragmentEngine refusing mycluster "{")).
    reflexivity.
  - apply (proj1 (proj2 (@ValidateStack_early_exits fragmentEngine
                           (provider (notFound "(") [] (unpaged []))
                           {| ClusterName := "("; Region := "us-west-1"; VPCID := "";
                              VPCCIDR := ""; InstanceCIDR := "10.0.0.0/24" |} "{}"))
                 {| vto_String := "{ Description: kubernetes }" |}); reflexivity.
Defined.

(** ** Cluster names without metacharacters *)

Lemma allBytes_app p a b : allBytes p (a ++ b)%string = allBytes p a && allBytes p b.
Proof.
  induction a as [|x a IH]; cbn; [reflexivity|]. rewrite IH. apply andb_assoc.
Qed.

Lemma plainByte_plainOrDot x : plainByte x = true -> plainOrDot x = true.
Proof. unfold plainByte, plainOrDot. intros ->. apply orb_true_r. Qed.

Lemma plainByte_not_dot x : plainByte x = true -> Ascii.eqb x "." = false.
Proof.
  destruct (Ascii.eqb_spec x ".") as [->|_]; [discriminate|reflexivity].
Qed.

Lemma allBytes_weaken (p q : ascii -> bool) s :
  (forall x, p x = true -> q x = true) -> allBytes p s = true -> allBytes q s = true.
Proof.
  intros Hpq. induction s as [|x s IH]; cbn; [reflexivity|].
  intros H. apply andb_prop in H as [Hx Hs]. rewrite (Hpq _ Hx). auto.
Qed.

Lemma prefixDot_plain body : forall subject,
  allBytes plainByte body = true -> prefixDot body subject = hasPrefix body subject.
Proof.
  induction body as [|p body IH]; intros subject; cbn; [reflexivity|].
  intros H. apply andb_prop in H as [Hp Hb].
  destruct subject as [|x subject]; [reflexivity|].
  rewrite (plainByte_not_dot _ Hp), (IH _ Hb). reflexivity.
Qed.

(** X22.  For a cluster name of plain bytes (ASCII, no metacharacter, no
    dot) and an engine that treats literals as Go does, the not-found
    pattern compiles, so [MustCompile] does not panic, and an ASCII error
    text counts as absence of the stack exactly when it begins with
    [ValidationError: Stack with id <name> does not exist]. *)
Theorem plain_name_is_matched_literally {RE : RegexpEngine} (c : Cluster) :
  DotLiteralSound RE ->
  allBytes plainByte (ClusterName c) = true ->
  exists re,
    Compile (stackNotExistPattern (ClusterName c)) = inr re /\
    forall err,
      allBytes isASCII err = true ->
      (stackExistsOf c re (inl err) = inr false <->
       hasPrefix ("ValidationError: Stack with id " ++ ClusterName c ++ " does not exist")
                 err = true).
Proof.
  intros Hsound Hname.
  set (body := ("ValidationError: Stack with id " ++ ClusterName c ++ " does not exist")%string).
  assert (Hbody : allBytes plainByte body = true).
  { unfold body. rewrite !allBytes_app, Hname. reflexivity. }
  destruct (Hsound body (allBytes_weaken _ _ _ plainByte_plainOrDot Hbody))
    as (re & Hre & Hmatch).
  exists re. split; [exact Hre|].
  intros err Hascii. cbn [stackExistsOf].
  rewrite (Hmatch err Hascii), (prefixDot_plain body err Hbody).
  destruct (hasPrefix body err); split; congruence.
Qed.

Lemma plain_name_is_matched_literally_witness :
  exists re,
    @Compile fragmentEngine (stackNotExistPattern "mycluster") = inr re /\
    @stackExistsOf fragmentEngine mycluster re
      (inl "ValidationError: Stack with id mycluster does not exist") = inr false /\
    @stackExistsOf fragmentEngine mycluster re
      (inl "ValidationError: Stack with id mycluster2 does not exist")
      = inl "error describing stack: ValidationError: Stack with id mycluster2 does not exist".
Proof.
  destruct (@plain_name_is_matched_literally fragmentEngine mycluster
              fragmentEngine_sound eq_refl) as (re & Hre & Hiff).
  exists re. split; [exact Hre|]. split.
  - apply (Hiff "ValidationError: Stack with id mycluster does not exist"); reflexivity.
  - pose proof (Hiff "ValidationError: Stack with id mycluster2 does not exist" eq_refl) as H.
    cbn [stackExistsOf] in *.
    destruct (Match re _); [|reflexivity].
    destruct H as [H _]. specialize (H eq_refl). discriminate H.
Defined.

(** ** The instance CIDR counts as a network *)

Section HostBits.

Import net netDefs netFacts.

Lemma overlaps_regular_iff A B ipA netA ipB netB :
  ParseCIDR A = inr (ipA, netA) ->
  ParseCIDR B = inr (ipB, netB) ->
  mappedBelow96 ipA netA = false ->
  mappedBelow96 ipB netB = false ->
  (overlaps ipA netA ipB netB = true
   <-> exists x, Contains netA x = true /\ Contains netB x = true).
Proof.
  intros HA HB HrA HrB. unfold overlaps.
  destruct (parsed_cases A ipA netA HA) as [(E & _)|(_ & lenA & bitsA & qA & HsA)];
    [congruence|].
  destruct (parsed_cases B ipB netB HB) as [(E & _)|(_ & lenB & bitsB & qB & HsB)];
    [congruence|].
  pose proof (seenAs_contains _ _ _ _ _ HsA) as HselfA.
  pose proof (seenAs_contains _ _ _ _ _ HsB) as HselfB.
  split.
  - intros H. apply orb_prop in H as [H|H]; [exists ipB|exists ipA]; auto.
  - intros (x & HxA & HxB).
    assert (Hlen : lenA = lenB).
    { destruct HsA as (HnA & HlA & HmA & _), HsB as (HnB & HlB & HmB & _).
      apply (Contains_iff _ _ _ _ HnA) in HxA as [HxlA _].
      apply (Contains_iff _ _ _ _ HnB) in HxB as [HxlB _].
      rewrite andBytes_length in HxlA, HxlB by congruence. congruence. }
    subst lenB. apply orb_true_iff.
    destruct (Z.le_ge_cases qA qB) as [Hle|Hge].
    + left. exact (shared_address_wider _ _ _ _ _ _ _ _ _ x HsA HsB Hle HxA HxB).
    + right. exact (shared_address_wider _ _ _ _ _ _ _ _ _ x HsB HsA Hge HxB HxA).
Qed.

(** X23.  The check takes the instance CIDR for the network it lies in: two
    spellings of the instance CIDR with the same network, host bits set or
    not, get the same answer from the scan, conflict message included,
    provided the instance CIDRs and the subnets' CIDRs are none of them an
    IPv4-mapped IPv6 address under a prefix shorter than 96 bits. *)
Theorem scanSubnets_ignores_host_bits A A' ipA ipA' n (subnets : list Subnet) :
  ParseCIDR A = inr (ipA, n) ->
  ParseCIDR A' = inr (ipA', n) ->
  mappedBelow96 ipA n = false ->
  mappedBelow96 ipA' n = false ->
  (forall s cidr eip enet,
     In s subnets -> CidrBlock s = Some cidr -> ParseCIDR cidr = inr (eip, enet) ->
     mappedBelow96 eip enet = false) ->
  scanSubnets ipA n subnets = scanSubnets ipA' n subnets.
Proof.
  intros HA HA' Hr Hr' Hsub.
  induction subnets as [|s subnets IH]; [reflexivity|].
  cbn [scanSubnets].
  destruct (CidrBlock s) as [cidr|] eqn:Hc; [|reflexivity].
  cbn [deref]. rewrite !bind_ret.
  destruct (ParseCIDR cidr) as [err|[eip enet]] eqn:Hp; [reflexivity|].
  assert (Hre : mappedBelow96 eip enet = false)
    by (apply (Hsub s cidr eip enet); [left; reflexivity|assumption..]).
  assert (Hsame : overlaps eip enet ipA n = overlaps eip enet ipA' n).
  { pose proof (overlaps_regular_iff cidr A eip enet ipA n Hp HA Hre Hr) as H1.
    pose proof (overlaps_regular_iff cidr A' eip enet ipA' n Hp HA' Hre Hr') as H2.
    destruct (overlaps eip enet ipA n), (overlaps eip enet ipA' n); try reflexivity.
    - symmetry. apply H2, H1. reflexivity.
    - apply H1, H2. reflexivity. }
  rewrite Hsame.
  destruct (overlaps eip enet ipA' n); [reflexivity|].
  apply IH. intros s0 cidr0 eip0 enet0 Hin. apply Hsub. right. exact Hin.
Qed.

End HostBits.

Lemma scanSubnets_ignores_host_bits_witness :
  let n := {| net.IPNet_IP := [10; 0; 1; 0]; net.IPNet_Mask := [255; 255; 255; 0] |} in
  let subnets := [subnet "subnet-a" "10.0.2.0/24"; subnet "subnet-b" "10.0.1.128/25"] in
  scanSubnets (net.IPv4 10 0 1 0) n subnets = scanSubnets (net.IPv4 10 0 1 77) n subnets.
Proof.
  intros n subnets.
  apply (scanSubnets_ignores_host_bits "10.0.1.0/24" "10.0.1.77/24");
    try reflexivity.
  intros s cidr eip enet Hin Hc Hp.
  destruct Hin as [<-|[<-|[]]]; cbn in Hc; injection Hc as <-;
    vm_compute in Hp; injection Hp as <- <-; reflexivity.
Defined.

(** ** Printing a network and parsing it back *)

Section PrintParse.

Import net netDefs netFacts.

Lemma Forall_upTo (P : Z -> Prop) (k : nat) :
  Forall P (upTo k) -> forall v, 0 <= v <= Z.of_nat k -> P v.
Proof.
  intros H v Hv. rewrite Forall_forall in H. apply H.
  unfold upTo. rewrite <- (Z2Nat.id v) by lia. apply in_map, in_seq. lia.
Qed.

Lemma decimalFacts_byte v : 0 <= v <= 255 -> decimalFacts v.
Proof.
  apply (Forall_upTo decimalFacts 255).
  let l := eval vm_compute in (upTo 255) in change (Forall decimalFacts l).
  repeat (apply Forall_cons;
          [split; [intros rest; reflexivity
                  |split; [reflexivity|split; [reflexivity|discriminate]]]|]).
  apply Forall_nil.
Qed.

Lemma drop_app a : forall r, drop (len a) (a ++ r)%string = r.
Proof. induction a as [|x a IH]; intros r; cbn; auto. Qed.

Lemma drop_app_cons a x : forall r, drop (S (len a)) (a ++ String x r)%string = r.
Proof.
  induction a as [|y a IH]; intros r; [destruct r; reflexivity|].
  cbn. apply IH.
Qed.

Lemma take_app a : forall r, take (len a) (a ++ r)%string = a.
Proof.
  induction a as [|x a IH]; intros r; cbn; [destruct r; reflexivity|].
  rewrite IH. reflexivity.
Qed.

Lemma len_app_cons a x r : (len (a ++ String x r)%string =? 0)%nat = false.
Proof. destruct a; reflexivity. Qed.

Lemma byteIndex_app a x : forall r,
  byteIndex a x = None ->
  byteIndex (a ++ String x r)%string x = Some (len a).
Proof.
  induction a as [|y a IH]; intros r; cbn.
  - rewrite Ascii.eqb_refl. reflexivity.
  - destruct (Ascii.eqb y x); [discriminate|].
    destruct (byteIndex a x) eqn:E; [discriminate|].
    intros _. rewrite (IH r eq_refl). reflexivity.
Qed.

Lemma byteIndex_none_app a b x :
  byteIndex a x = None -> byteIndex b x = None -> byteIndex (a ++ b)%string x = None.
Proof.
  induction a as [|y a IH]; cbn; [auto|].
  destruct (Ascii.eqb y x); [discriminate|].
  destruct (byteIndex a x) eqn:E; [discriminate|].
  intros _ Hb. rewrite (IH eq_refl Hb). reflexivity.
Qed.

Lemma parseIPv4_loop_first k v r p :
  0 <= v <= 255 ->
  parseIPv4_loop (S k) 0 (uitoa v ++ String "." r) p
    = parseIPv4_loop k 1 (String "." r) (p ++ [v]).
Proof.
  intros Hv. destruct (decimalFacts_byte v Hv) as (Hdot & _).
  cbn [parseIPv4_loop]. rewrite len_app_cons.
  cbn [Nat.eqb orb negb Nat.ltb Nat.leb].
  rewrite Hdot. cbn [negb orb].
  destruct (Z.ltb_spec 255 v); [lia|]. rewrite drop_app. reflexivity.
Qed.

Lemma parseIPv4_loop_next k i v r p :
  0 <= v <= 255 ->
  parseIPv4_loop (S k) (S i) (String "." (uitoa v ++ String "." r)) p
    = parseIPv4_loop k (S (S i)) (String "." r) (p ++ [v]).
Proof.
  intros Hv. destruct (decimalFacts_byte v Hv) as (Hdot & _).
  cbn [parseIPv4_loop len String.length Nat.eqb orb negb Nat.ltb Nat.leb drop at_
       String.get Ascii.eqb Bool.eqb andb].
  rewrite Hdot. cbn [negb orb].
  destruct (Z.ltb_spec 255 v); [lia|]. rewrite drop_app. reflexivity.
Qed.

Lemma parseIPv4_loop_last i v p :
  0 <= v <= 255 ->
  parseIPv4_loop 1 (S i) (String "." (uitoa v)) p = Some (EmptyString, p ++ [v]).
Proof.
  intros Hv. destruct (decimalFacts_byte v Hv) as (_ & Hend & _).
  cbn [parseIPv4_loop len String.length Nat.eqb orb negb Nat.ltb Nat.leb drop at_
       String.get Ascii.eqb Bool.eqb andb].
  rewrite Hend. cbn [negb orb].
  destruct (Z.ltb_spec 255 v); [lia|].
  rewrite <- (drop_app (uitoa v) EmptyString) at 1.
  replace (uitoa v ++ "")%string with (uitoa v); [reflexivity|].
  clear. induction (uitoa v) as [|x s IH]; cbn; congruence.
Qed.

Lemma parseIPv4_dottedQuad a b c d :
  0 <= a <= 255 -> 0 <= b <= 255 -> 0 <= c <= 255 -> 0 <= d <= 255 ->
  parseIPv4 (dottedQuad a b c d) = Some (IPv4 a b c d).
Proof.
  intros Ha Hb Hc Hd. unfold parseIPv4, dottedQuad.
  change ("." ++ uitoa b ++ "." ++ uitoa c ++ "." ++ uitoa d)%string
    with (String "." (uitoa b ++ String "." (uitoa c ++ String "." (uitoa d)))).
  rewrite (parseIPv4_loop_first 3 a _ [] Ha).
  rewrite (parseIPv4_loop_next 2 0 b _ _ Hb).
  rewrite (parseIPv4_loop_next 1 1 c _ _ Hc).
  rewrite (parseIPv4_loop_last 2 d _ Hd).
  reflexivity.
Qed.

Lemma byteIndex_dottedQuad a b c d :
  0 <= a <= 255 -> 0 <= b <= 255 -> 0 <= c <= 255 -> 0 <= d <= 255 ->
  byteIndex (dottedQuad a b c d) "/" = None.
Proof.
  intros Ha Hb Hc Hd. unfold dottedQuad.
  destruct (decimalFacts_byte a Ha) as (_ & _ & Ia & _).
  destruct (decimalFacts_byte b Hb) as (_ & _ & Ib & _).
  destruct (decimalFacts_byte c Hc) as (_ & _ & Ic & _).
  destruct (decimalFacts_byte d Hd) as (_ & _ & Id & _).
  assert (Hdot : forall s, byteIndex s "/" = None ->
                           byteIndex ("." ++ s)%string "/" = None).
  { intros s Hs. cbn. rewrite Hs. reflexivity. }
  repeat first [assumption | reflexivity | apply byteIndex_none_app].
Qed.

Lemma ParseCIDR_dotted a b c d p :
  0 <= a <= 255 -> 0 <= b <= 255 -> 0 <= c <= 255 -> 0 <= d <= 255 ->
  0 <= p <= 32 ->
  ParseCIDR (dottedQuad a b c d ++ "/" ++ uitoa p)
    = inr (IPv4 a b c d,
           mkIPNet (IP_Mask (IPv4 a b c d) (CIDRMask p 32)) (CIDRMask p 32)).
Proof.
  intros Ha Hb Hc Hd Hp. unfold ParseCIDR.
  change ("/" ++ uitoa p)%string with (String "/" (uitoa p)).
  rewrite (byteIndex_app _ _ _ (byteIndex_dottedQuad a b c d Ha Hb Hc Hd)).
  rewrite take_app.
  rewrite drop_app_cons.
  rewrite (parseIPv4_dottedQuad a b c d Ha Hb Hc Hd).
  destruct (decimalFacts_byte p ltac:(lia)) as (_ & Hend & _).
  rewrite Hend. rewrite Nat.eqb_refl. cbn [negb orb].
  destruct (Z.ltb_spec p 0); [lia|].
  change (8 * Z.of_nat IPv4len) with 32.
  destruct (Z.ltb_spec 32 p); [lia|]. reflexivity.
Qed.

Lemma land_byte a m : 0 <= a <= 255 -> 0 <= Z.land a m <= 255.
Proof.
  intros Ha.
  rewrite <- (land_255_byte a Ha), <- Z.land_assoc, (Z.land_comm 255 m), Z.land_assoc.
  apply isByte_land_255.
Qed.

Lemma simpleMaskLength_dotted p : 0 <= p <= 32 -> simpleMaskLength (CIDRMask p 32) = p.
Proof.
  intros Hp. apply Z.eqb_eq.
  apply (checked_upTo (fun q => simpleMaskLength (CIDRMask q 32) =? q) 32); [vm_compute; reflexivity|exact Hp].
Qed.

(** X24.  A network that [ParseCIDR] read from a dotted-quad CIDR prints, by
    [IPNet.String], as a CIDR that parses back to the same network, with the
    network number as its address: the CIDRs that the conflict error shows
    stand for the networks that were compared. *)
Theorem ParseCIDR_reads_back_what_String_prints s ip n :
  ParseCIDR s = inr (ip, n) ->
  length (IPNet_Mask n) = 4%nat ->
  ParseCIDR (IPNet_String n)
    = inr (IPv4 (idx (IPNet_IP n) 0) (idx (IPNet_IP n) 1)
                (idx (IPNet_IP n) 2) (idx (IPNet_IP n) 3), n).
Proof.
  intros Hparse Hmask.
  apply ParseCIDR_shape in Hparse as [(p & a & b & c & d & Hp & ->)|(p & Hp)].
  2:{ destruct Hp as (Hp & -> & _). cbn [IPNet_Mask] in Hmask.
      rewrite (proj1 (CIDRMask128_facts p Hp)) in Hmask. discriminate. }
  destruct Hp as (Hp & -> & _ & Hbytes).
  pose proof (CIDRMask32_length p Hp) as Hlen.
  pose proof (simpleMaskLength_dotted p Hp) as Hsimple.
  destruct (length4 _ Hlen) as (m0 & m1 & m2 & m3 & Hm).
  rewrite Hm in Hsimple |- *.
  assert (Ha : 0 <= a <= 255 /\ 0 <= b <= 255 /\ 0 <= c <= 255 /\ 0 <= d <= 255).
  { unfold IPv4 in Hbytes. cbn [app v4InV6Prefix] in Hbytes.
    do 12 (apply Forall_inv_tail in Hbytes).
    inversion Hbytes as [|? ? Ha Hb']; subst.
    inversion Hb' as [|? ? Hb Hc']; subst.
    inversion Hc' as [|? ? Hc Hd']; subst.
    inversion Hd' as [|? ? Hd _]; subst. auto. }
  destruct Ha as (Ha & Hb & Hc & Hd).
  change (IP_Mask (IPv4 a b c d) [m0; m1; m2; m3])
    with [Z.land a m0; Z.land b m1; Z.land c m2; Z.land d m3].
  assert (Hprint : IPNet_String
                     {| IPNet_IP := [Z.land a m0; Z.land b m1; Z.land c m2; Z.land d m3];
                        IPNet_Mask := [m0; m1; m2; m3] |}
                   = (dottedQuad (Z.land a m0) (Z.land b m1) (Z.land c m2) (Z.land d m3)
                        ++ "/" ++ uitoa p)%string).
  { unfold IPNet_String.
    change (networkNumberAndMask _)
      with ([Z.land a m0; Z.land b m1; Z.land c m2; Z.land d m3], [m0; m1; m2; m3]).
    cbn [is_nil orb]. rewrite Hsimple.
    destruct (Z.eqb_spec p (-1)); [lia|]. reflexivity. }
  rewrite Hprint.
  rewrite (ParseCIDR_dotted _ _ _ _ p (land_byte a m0 Ha) (land_byte b m1 Hb)
             (land_byte c m2 Hc) (land_byte d m3 Hd) Hp).
  rewrite Hm.
  change (IP_Mask (IPv4 (Z.land a m0) (Z.land b m1) (Z.land c m2) (Z.land d m3))
                  [m0; m1; m2; m3])
    with [Z.land (Z.land a m0) m0; Z.land (Z.land b m1) m1;
          Z.land (Z.land c m2) m2; Z.land (Z.land d m3) m3].
  rewrite !land_same. reflexivity.
Qed.

End PrintParse.

Lemma ParseCIDR_reads_back_what_String_prints_witness :
  net.IPNet_String {| net.IPNet_IP := [10; 0; 0; 0]; net.IPNet_Mask := [255; 255; 254; 0] |}
    = "10.0.0.0/23"
  /\
  net.ParseCIDR
    (net.IPNet_String
       {| net.IPNet_IP := [10; 0; 0; 0]; net.IPNet_Mask := [255; 255; 254; 0] |})
    = inr (net.IPv4 10 0 0 0,
           {| net.IPNet_IP := [10; 0; 0; 0]; net.IPNet_Mask := [255; 255; 254; 0] |}).
Proof.
  split; [reflexivity|].
  apply (ParseCIDR_reads_back_what_String_prints "10.0.1.130/23" (net.IPv4 10 0 1 130));
    reflexivity.
Defined.

(** ** One handle, one stack *)

Section OneStack.

Variable c : Cluster.

Lemma Info_list_names_the_stack (responses : list (error + ListStackResourcesOutput)) :
  forall token resources,
    Forall (fun e => exists token',
              e = ListStackResourcesCall {| lsri_StackName := Some (ClusterName c);
                                            lsri_NextToken := token' |})
           (fst (fst (Info_list c token resources responses))).
Proof.
  induction responses as [|r responses IH]; intros token resources; cbn [Info_list].
  - repeat constructor. now exists token.
  - destruct r as [err|resp]; [repeat constructor; now exists token|].
    destruct (String.eqb _ ""); [repeat constructor; now exists token|].
    specialize (IH (lsro_NextToken resp) (resources ++ StackResourceSummaries resp)).
    destruct (Info_list c _ _ responses) as [[t p] rest]. cbn [fst] in *.
    constructor; [now exists token|exact IH].
Qed.

(** X25.  All operations of a cluster handle address the stack of the
    cluster's name: [Create] and [Update] submit under it, [Destroy] deletes
    it with a single call whose error it returns as it came, without
    polling, and every listing call of [Info] names it, whatever the
    provider answers. *)
Theorem operations_address_the_cluster_stack :
  (forall svc stackBody responses,
     exists i t,
       fst (fst (Create svc c stackBody responses)) = CreateStackCall i :: t /\
       csi_StackName i = Some (ClusterName c)) /\
  (forall ssvc stackBody responses,
     exists i t,
       fst (fst (Update ssvc c stackBody responses)) = UpdateStackCall i :: t /\
       usi_StackName i = Some (ClusterName c)) /\
  (forall ssvc,
     fst (Destroy ssvc c) = [DeleteStackCall {| dli_StackName := Some (ClusterName c) |}] /\
     (forall err,
        DeleteStack ssvc {| dli_StackName := Some (ClusterName c) |} = inl err ->
        snd (Destroy ssvc c) = Some err) /\
     (forall out,
        DeleteStack ssvc {| dli_StackName := Some (ClusterName c) |} = inr out ->
        snd (Destroy ssvc c) = None)) /\
  (forall responses,
     Forall (fun e => exists token,
               e = ListStackResourcesCall {| lsri_StackName := Some (ClusterName c);
                                             lsri_NextToken := token |})
            (fst (fst (Info c responses)))).
Proof.
  split; [|split; [|split]].
  - intros svc stackBody responses. unfold Create.
    destruct (CreateStack svc _) as [err|resp].
    + do 2 eexists. split; reflexivity.
    + destruct (Create_poll _ responses) as [[t p] rest].
      do 2 eexists. split; reflexivity.
  - intros ssvc stackBody responses. unfold Update.
    destruct (UpdateStack ssvc _) as [err|out].
    + do 2 eexists. split; reflexivity.
    + destruct (Update_poll _ _ responses) as [[t p] rest].
      do 2 eexists. split; reflexivity.
  - intros ssvc. unfold Destroy. cbn [fst snd]. split; [reflexivity|].
    split; [intros err ->; reflexivity|intros out ->; reflexivity].
  - intros responses. unfold Info.
    pose proof (Info_list_names_the_stack responses None []) as H.
    destruct (Info_list c None [] responses) as [[t [[err|resources]|]] rest];
      exact H.
Qed.

(** X26.  [Info] has no bound on the pages it asks for: as long as every
    answer announces a successor it goes on listing, and when the answers
    run out it has asked for the page after the last one. *)
Theorem Info_keeps_listing (pages : list ListStackResourcesOutput) :
  Forall morePages pages ->
  Info c (map inr pages) = (listingCalls c None pages, AwaitingResponse, []).
Proof.
  intros Hpages. unfold Info.
  assert (H : forall first resources,
            Info_list c first resources (map inr pages)
              = (listingCalls c first pages, AwaitingResponse, [])).
  { unfold listingCalls.
    induction Hpages as [|p pages Hp _ IH]; intros first resources; [reflexivity|].
    cbn [map Info_list].
    destruct (String.eqb_spec (aws.StringValue (lsro_NextToken p)) "") as [E|_];
      [contradiction|].
    rewrite IH. reflexivity. }
  rewrite H. reflexivity.
Qed.

End OneStack.

Lemma Info_keeps_listing_witness :
  Info mycluster [inr (page [] (Some "t1")); inr (page [] (Some "t2"))]
    = ([ListStackResourcesCall {| lsri_StackName := Some "mycluster"; lsri_NextToken := None |};
        ListStackResourcesCall {| lsri_StackName := Some "mycluster"; lsri_NextToken := Some "t1" |};
        ListStackResourcesCall {| lsri_StackName := Some "mycluster"; lsri_NextToken := Some "t2" |}],
       AwaitingResponse, []).
Proof.
  apply (Info_keeps_listing mycluster [page [] (Some "t1"); page [] (Some "t2")]).
  repeat constructor; discriminate.
Defined.

(** ** The overlap test and the address ranges of prefixes *)

Section PrefixRanges.

Import net netDefs netFacts.

Lemma partialByte_bits n j :
  0 <= n -> 0 <= j ->
  Z.testbit (partialByte n) j = (8 - n <=? j) && (j <? 8).
Proof.
  intros Hn Hj. unfold partialByte.
  rewrite Z.lxor_spec, Z.shiftr_spec by exact Hj.
  change 255 with (Z.ones 8).
  rewrite !Z.testbit_ones_nonneg by lia.
  destruct (Z.ltb_spec j 8), (Z.ltb_spec (j + n) 8), (Z.leb_spec (8 - n) j);
    try reflexivity; lia.
Qed.

Lemma CIDRMask_loop_idx l : forall q i,
  0 <= q -> (i < l)%nat ->
  idx (CIDRMask_loop l q) i = partialByte (Z.min 8 (Z.max 0 (q - 8 * Z.of_nat i))).
Proof.
  induction l as [|l IH]; intros q i Hq Hi; [lia|].
  cbn [CIDRMask_loop]. fold (partialByte q).
  destruct (Z.leb_spec 8 q) as [H8|H8]; destruct i as [|i].
  - cbn [idx nth]. replace (Z.min 8 (Z.max 0 (q - 8 * Z.of_nat 0))) with 8 by lia.
    reflexivity.
  - unfold idx in *. cbn [nth]. rewrite IH by lia. f_equal. lia.
  - cbn [idx nth]. f_equal. lia.
  - unfold idx in *. cbn [nth]. rewrite IH by lia. f_equal. lia.
Qed.

Lemma CIDRMask_bits bits q i j :
  bits = 32 \/ bits = 128 -> 0 <= q <= bits ->
  (Z.of_nat i < bits / 8) -> 0 <= j ->
  Z.testbit (idx (CIDRMask q bits) i) j
    = (8 * Z.of_nat i + 7 - j <? q) && (j <? 8).
Proof.
  intros Hbits Hq Hi Hj.
  assert (E : CIDRMask q bits = CIDRMask_loop (Z.to_nat (bits / 8)) q).
  { unfold CIDRMask.
    destruct Hbits as [-> | ->]; cbn [Z.eqb negb andb Z.mul Pos.mul Pos.eqb];
      (destruct (Z.ltb_spec q 0); [lia|]);
      match goal with |- context [?b <? q] => destruct (Z.ltb_spec b q); [lia|] end;
      reflexivity. }
  rewrite E, CIDRMask_loop_idx by lia.
  rewrite partialByte_bits by lia.
  destruct (Z.ltb_spec j 8); [|rewrite !andb_false_r; reflexivity].
  rewrite !andb_true_r.
  destruct (Z.leb_spec (8 - Z.min 8 (Z.max 0 (q - 8 * Z.of_nat i))) j),
           (Z.ltb_spec (8 * Z.of_nat i + 7 - j) q); try reflexivity; lia.
Qed.

Lemma land_agree_bits u v m :
  Z.land u m = Z.land v m
  <-> forall j, 0 <= j -> Z.testbit m j = true -> Z.testbit u j = Z.testbit v j.
Proof.
  split.
  - intros H j Hj Hm.
    apply (f_equal (fun z => Z.testbit z j)) in H.
    rewrite !Z.land_spec, Hm, !andb_true_r in H. exact H.
  - intros H. apply Z.bits_inj'. intros j Hj. rewrite !Z.land_spec.
    destruct (Z.testbit m j) eqn:Hm.
    + rewrite (H j Hj Hm). reflexivity.
    + rewrite !andb_false_r. reflexivity.
Qed.

(** Agreement of two byte sequences under the mask of [q] leading ones is
    agreement of their first [q] bits. *)
Lemma masked_bytes_bits bits q (a b : list Z) :
  bits = 32 \/ bits = 128 -> 0 <= q <= bits ->
  (forall i, (Z.of_nat i < bits / 8) ->
     Z.land (idx a i) (idx (CIDRMask q bits) i)
       = Z.land (idx b i) (idx (CIDRMask q bits) i))
  <-> (forall k : nat, Z.of_nat k < q -> addressBit a k = addressBit b k).
Proof.
  intros Hbits Hq. split.
  - intros H k Hk. unfold addressBit.
    pose proof (Nat.div_mod_eq k 8) as Hdm.
    pose proof (Nat.mod_upper_bound k 8 ltac:(lia)) as Hr.
    remember (k / 8)%nat as d. remember (k mod 8)%nat as r.
    assert (Hd : Z.of_nat d < bits / 8).
    { destruct Hbits as [-> | ->].
      - change (32 / 8) with 4. lia.
      - change (128 / 8) with 16. lia. }
    apply (proj1 (land_agree_bits _ _ _) (H d Hd)); [lia|].
    rewrite CIDRMask_bits by (auto; lia).
    apply andb_true_intro. split; apply Z.ltb_lt; lia.
  - intros H i Hi. apply land_agree_bits. intros j Hj Hm.
    rewrite CIDRMask_bits in Hm by (auto; lia).
    apply andb_prop in Hm as [Hlt H8].
    apply Z.ltb_lt in Hlt, H8.
    pose proof (H (8 * i + (7 - Z.to_nat j))%nat ltac:(lia)) as Hk.
    unfold addressBit in Hk.
    rewrite <- (Nat.div_unique (8 * i + (7 - Z.to_nat j)) 8 i (7 - Z.to_nat j)) in Hk
      by lia.
    rewrite <- (Nat.mod_unique (8 * i + (7 - Z.to_nat j)) 8 i (7 - Z.to_nat j)) in Hk
      by lia.
    replace (7 - Z.of_nat (7 - Z.to_nat j)) with j in Hk by lia.
    exact Hk.
Qed.

Lemma addressBit_app (h t : list Z) (k : nat) :
  length h = 12%nat ->
  addressBit (h ++ t) k
    = if (k <? 96)%nat then addressBit h k else addressBit t (k - 96).
Proof.
  intros Hh. unfold addressBit, idx.
  pose proof (Nat.div_mod_eq k 8) as Hdm.
  pose proof (Nat.mod_upper_bound k 8 ltac:(lia)) as Hr.
  destruct (Nat.ltb_spec k 96) as [Hk|Hk].
  - rewrite app_nth1 by lia. reflexivity.
  - rewrite app_nth2 by lia. rewrite Hh.
    rewrite <- (Nat.div_unique (k - 96) 8 (k / 8 - 12) (k mod 8)) by lia.
    rewrite <- (Nat.mod_unique (k - 96) 8 (k / 8 - 12) (k mod 8)) by lia.
    reflexivity.
Qed.

Lemma norm_cases (y : list Z) :
  length y = 16%nat ->
  (exists t, y = v4InV6Prefix ++ t /\ length t = 4%nat /\ norm y = t /\
             bytesEqual (firstn 12 y) v4InV6Prefix = true)
  \/ (norm y = y /\ bytesEqual (firstn 12 y) v4InV6Prefix = false).
Proof.
  intros Hy. destruct (split_12_4 y Hy) as (h & t & -> & Hh & Ht).
  unfold norm. rewrite (To4_12_4 h t Hh Ht).
  rewrite firstn_app, Hh, Nat.sub_diag, firstn_O, app_nil_r, <- Hh, firstn_all.
  destruct (bytesEqual h v4InV6Prefix) eqn:E.
  - left. exists t. apply bytesEqual_eq in E. subst h.
    destruct t; [discriminate|]. auto.
  - right. auto.
Qed.

(** The bits [Contains] compares, on the forms [norm] gives the addresses,
    are the first bits of the addresses themselves. *)
Lemma norm_bits (ip y : list Z) (len : nat) (bits q : Z) :
  length ip = 16%nat -> length y = 16%nat ->
  length (norm ip) = len -> length (norm y) = len ->
  (len = 4%nat /\ bits = 32) \/ (len = 16%nat /\ bits = 128) ->
  0 <= q ->
  (forall k : nat, Z.of_nat k < q -> addressBit (norm ip) k = addressBit (norm y) k)
  <-> (forall k : nat, Z.of_nat k < q + (128 - bits) -> addressBit y k = addressBit ip k).
Proof.
  intros Hip Hy Hnip Hny Hlen Hq.
  destruct (norm_cases ip Hip) as [(t & Eip & Ht & Enip & _)|(Enip & _)];
    destruct (norm_cases y Hy) as [(ty & Ey & Hty & Eny & _)|(Eny & _)];
    rewrite Enip in *; rewrite Eny in *;
    destruct Hlen as [[-> ->]|[-> ->]]; try lia.
  - rewrite Eip, Ey. split.
    + intros H k Hk. rewrite !addressBit_app by reflexivity.
      destruct (Nat.ltb_spec k 96); [reflexivity|].
      symmetry. apply H. lia.
    + intros H k Hk. specialize (H (k + 96)%nat ltac:(lia)).
      rewrite !addressBit_app in H by reflexivity.
      destruct (Nat.ltb_spec (k + 96) 96); [lia|].
      replace (k + 96 - 96)%nat with k in H by lia. symmetry. exact H.
  - split; intros H k Hk; symmetry; apply H; lia.
Qed.

(** A parsed CIDR other than an IPv4-mapped IPv6 address under a prefix
    shorter than 96 bits, as [Contains] sees it, with the length of its
    prefix. *)
Lemma regular_view s ip n :
  ParseCIDR s = inr (ip, n) ->
  mappedBelow96 ip n = false ->
  exists len bits q,
    seenAs ip n len bits q /\ length ip = 16%nat /\ Forall isByte ip /\
    prefixLength n = q + (128 - bits).
Proof.
  intros H Hreg.
  apply ParseCIDR_shape in H as [(p & a & b & c & d & Hp & Hip)|(p & Hp)].
  - destruct (parsed_dotted ip n p a b c d Hp Hip) as [_ Hs].
    exists 4%nat, 32, p. split; [exact Hs|].
    destruct Hp as (Hr & -> & Hl & Hb).
    split; [exact Hl|]. split; [exact Hb|].
    unfold prefixLength. cbn [IPNet_Mask].
    rewrite (CIDRMask32_length p Hr), simpleMaskLength_dotted by exact Hr.
    reflexivity.
  - assert (Hpl : prefixLength n = p).
    { destruct Hp as (Hr & -> & _). unfold prefixLength. cbn [IPNet_Mask].
      destruct (CIDRMask128_facts p Hr) as (-> & -> & _). cbn. lia. }
    destruct (parsed_colon ip n p Hp) as [(E & _)|(_ & [(H96 & Hs)|Hs])];
      [congruence| |]; destruct Hp as (Hr & _ & Hl & Hb).
    + exists 4%nat, 32, (p - 96). split; [exact Hs|].
      split; [exact Hl|]. split; [exact Hb|]. lia.
    + exists 16%nat, 128, p. split; [exact Hs|].
      split; [exact Hl|]. split; [exact Hb|]. lia.
Qed.

(** What [Contains] answers for a sixteen-byte address: whether the address
    is of the network's family and lies in the range of the prefix. *)
Lemma Contains_inPrefix ip n len bits q y :
  seenAs ip n len bits q ->
  length ip = 16%nat ->
  prefixLength n = q + (128 - bits) ->
  length y = 16%nat -> Forall isByte y ->
  (Contains n y = true <-> length (norm y) = len /\ inPrefix ip n y).
Proof.
  intros (Hn & Hl & Hm & Hb & Hq) Hip Hpl Hy Hby.
  rewrite (Contains_iff _ _ _ _ Hn).
  rewrite andBytes_length by congruence. rewrite Hl.
  assert (Hstep : forall a : list Z,
            (forall i, (i < len)%nat ->
               Z.land (idx (andBytes (norm ip) (CIDRMask q bits)) i)
                      (idx (CIDRMask q bits) i)
               = Z.land (idx a i) (idx (CIDRMask q bits) i))
            <-> (forall k : nat, Z.of_nat k < q ->
                   addressBit (norm ip) k = addressBit a k)).
  { intros a.
    rewrite <- (masked_bytes_bits bits q (norm ip) a)
      by (destruct Hb as [[_ ->]|[_ ->]]; auto || lia).
    assert (Hi : forall i, (i < len)%nat <-> Z.of_nat i < bits / 8).
    { intros i. destruct Hb as [[-> ->]|[-> ->]].
      - change (32 / 8) with 4. lia.
      - change (128 / 8) with 16. lia. }
    split; intros H i Hlt.
    + rewrite <- agree_point. apply H, Hi, Hlt.
    + rewrite agree_point. apply H, Hi, Hlt. }
  unfold inPrefix. rewrite Hpl.
  split.
  - intros [Hly H]. split; [exact Hly|]. split; [exact Hy|]. split; [exact Hby|].
    apply (norm_bits ip y len bits q Hip Hy Hl Hly Hb (proj1 Hq)).
    apply Hstep, H.
  - intros (Hly & _ & _ & H). split; [exact Hly|].
    apply Hstep.
    apply (norm_bits ip y len bits q Hip Hy Hl Hly Hb (proj1 Hq)), H.
Qed.

Lemma seenAs_family ipA netA lenA bitsA qA ipB netB lenB bitsB qB :
  seenAs ipA netA lenA bitsA qA -> length ipA = 16%nat ->
  seenAs ipB netB lenB bitsB qB -> length ipB = 16%nat ->
  (sameFamily ipA ipB = true <-> lenA = lenB).
Proof.
  intros (_ & HlA & _ & HbA & _) HA (_ & HlB & _ & HbB & _) HB.
  unfold sameFamily.
  destruct (norm_cases ipA HA) as [(tA & _ & HtA & EA & ->)|(EA & ->)];
    destruct (norm_cases ipB HB) as [(tB & _ & HtB & EB & ->)|(EB & ->)];
    rewrite EA in HlA; rewrite EB in HlB; cbn [Bool.eqb];
    split; intros H; try reflexivity; try discriminate; lia.
Qed.

Lemma inPrefix_own_address ip n :
  length ip = 16%nat -> Forall isByte ip -> inPrefix ip n ip.
Proof. intros Hl Hb. repeat split; auto. Qed.

Lemma sameBits_spec k x y :
  sameBits k x y = true ->
  forall i : nat, (i < k)%nat -> addressBit x i = addressBit y i.
Proof.
  unfold sameBits. rewrite forallb_forall. intros H i Hi.
  apply eqb_prop, H, in_seq. lia.
Qed.

(** C5, as the code has it.  The two-way containment test is symmetric.  It
    holds of a CIDR against itself exactly when the CIDR is not an
    IPv4-mapped IPv6 address under a prefix shorter than 96 bits; and for two
    CIDRs other than those it holds exactly when the two are of one address
    family and the address ranges of their prefixes intersect. *)
Theorem overlaps_symmetric_reflexive_within_family A B ipA netA ipB netB :
  ParseCIDR A = inr (ipA, netA) ->
  ParseCIDR B = inr (ipB, netB) ->
  overlaps ipA netA ipB netB = overlaps ipB netB ipA netA /\
  overlaps ipA netA ipA netA = negb (mappedBelow96 ipA netA) /\
  (mappedBelow96 ipA netA = false -> mappedBelow96 ipB netB = false ->
   (overlaps ipA netA ipB netB = true
    <-> sameFamily ipA ipB = true /\ prefixesIntersect ipA netA ipB netB)).
Proof.
  intros HA HB. split; [apply orb_comm|]. split.
  - unfold overlaps.
    destruct (parsed_cases A ipA netA HA) as [(-> & ->)|(-> & len & bits & q & Hs)];
      [reflexivity|].
    rewrite (seenAs_contains _ _ _ _ _ Hs). reflexivity.
  - intros HrA HrB.
    destruct (regular_view A ipA netA HA HrA)
      as (lenA & bitsA & qA & HsA & HlA & HbA & HpA).
    destruct (regular_view B ipB netB HB HrB)
      as (lenB & bitsB & qB & HsB & HlB & HbB & HpB).
    pose proof (seenAs_family _ _ _ _ _ _ _ _ _ _ HsA HlA HsB HlB) as Hfam.
    pose proof (Contains_inPrefix ipA netA lenA bitsA qA ipB HsA HlA HpA HlB HbB) as HcA.
    pose proof (Contains_inPrefix ipB netB lenB bitsB qB ipA HsB HlB HpB HlA HbA) as HcB.
    assert (HnA : length (norm ipA) = lenA) by apply HsA.
    assert (HnB : length (norm ipB) = lenB) by apply HsB.
    unfold overlaps, prefixesIntersect. rewrite orb_true_iff, HcA, HcB, Hfam.
    split.
    + intros [[Hlen Hin]|[Hlen Hin]]; (split; [congruence|]).
      * exists ipB. split; [exact Hin|]. now apply inPrefix_own_address.
      * exists ipA. split; [|exact Hin]. now apply inPrefix_own_address.
    + intros (Hlen & x & (_ & _ & HxA) & (_ & _ & HxB)).
      destruct (Z.le_ge_cases (prefixLength netA) (prefixLength netB)) as [Hle|Hge].
      * left. split; [congruence|]. repeat split; auto.
        intros k Hk. rewrite <- (HxA k Hk). symmetry. apply HxB. lia.
      * right. split; [congruence|]. repeat split; auto.
        intros k Hk. rewrite <- (HxB k Hk). symmetry. apply HxA. lia.
Qed.

End PrefixRanges.

Lemma overlaps_symmetric_reflexive_within_family_witness :
  (exists ipA netA ipB netB,
     net.ParseCIDR "10.0.1.128/25" = inr (ipA, netA) /\
     net.ParseCIDR "10.0.1.0/24" = inr (ipB, netB) /\
     overlaps ipA netA ipB netB = overlaps ipB netB ipA netA /\
     overlaps ipA netA ipA netA = true /\
     sameFamily ipA ipB = true /\ prefixesIntersect ipA netA ipB netB) /\
  (exists ipA netA ipB netB,
     net.ParseCIDR "2001:db8::/32" = inr (ipA, netA) /\
     net.ParseCIDR "::ffff:10.0.0.0/104" = inr (ipB, netB) /\
     overlaps ipA netA ipB netB = overlaps ipB netB ipA netA /\
     overlaps ipB netB ipB netB = true /\
     (overlaps ipA netA ipB netB = true
      <-> sameFamily ipA ipB = true /\ prefixesIntersect ipA netA ipB netB)).
Proof.
  split.
  - do 4 eexists. split; [reflexivity|]. split; [reflexivity|].
    match goal with
    | |- overlaps ?ipA ?netA ?ipB ?netB = _ /\ _ =>
        destruct (overlaps_symmetric_reflexive_within_family
                    "10.0.1.128/25" "10.0.1.0/24" ipA netA ipB netB eq_refl eq_refl)
          as (Hsym & Hrefl & Hiff)
    end.
    split; [exact Hsym|]. split; [exact Hrefl|]. apply Hiff; reflexivity.
  - do 4 eexists. split; [reflexivity|]. split; [reflexivity|].
    match goal with
    | |- overlaps ?ipA ?netA ?ipB ?netB = _ /\ _ =>
        destruct (overlaps_symmetric_reflexive_within_family
                    "2001:db8::/32" "::ffff:10.0.0.0/104" ipA netA ipB netB eq_refl eq_refl)
          as (Hsym & _ & Hiff);
        destruct (overlaps_symmetric_reflexive_within_family
                    "::ffff:10.0.0.0/104" "::ffff:10.0.0.0/104" ipB netB ipB netB
                    eq_refl eq_refl)
          as (_ & Hrefl & _)
    end.
    split; [exact Hsym|]. split; [exact Hrefl|]. apply Hiff; reflexivity.
Defined.

(** C5, as the claim has it, fails on two counts.  A CIDR whose address is an
    IPv4-mapped IPv6 address under a 64-bit prefix does not overlap itself,
    and [validateExistingVPC] finds no conflict between that instance CIDR
    and an existing subnet with the same CIDR.  And ::/0 does not overlap
    ::ffff:10.0.0.0/104, a network of the other family, although the address
    ::ffff:10.0.0.1 lies in the address ranges of both prefixes. *)
Lemma overlaps_not_reflexive_nor_range_intersection :
  (exists ip n,
     net.ParseCIDR "0:0:0:0:0:ffff:a00:0/64" = inr (ip, n) /\
     overlaps ip n ip n = false) /\
  (let P := provider (notFound "mycluster") [vpc1 "10.0.0.0/16"]
              (unpaged [subnet "subnet-1" "0:0:0:0:0:ffff:a00:0/64"]) in
   result (validateExistingVPC P (inVpc "10.0.0.0/16" "0:0:0:0:0:ffff:a00:0/64"))
     = Return None) /\
  (exists ipA netA ipB netB,
     net.ParseCIDR "::/0" = inr (ipA, netA) /\
     net.ParseCIDR "::ffff:10.0.0.0/104" = inr (ipB, netB) /\
     prefixLength netA = 0 /\ prefixLength netB = 104 /\
     inPrefix ipA netA (net.IPv4 10 0 0 1) /\
     inPrefix ipB netB (net.IPv4 10 0 0 1) /\
     overlaps ipA netA ipB netB = false).
Proof.
  split; [do 2 eexists; split; reflexivity|].
  split; [reflexivity|].
  do 4 eexists. split; [reflexivity|]. split; [reflexivity|].
  split; [reflexivity|]. split; [reflexivity|].
  assert (Hbytes : Forall isByte (net.IPv4 10 0 0 1))
    by (repeat constructor; unfold isByte; lia).
  split; [|split].
  - split; [reflexivity|]. split; [exact Hbytes|].
    intros k Hk. change (Z.of_nat k < 0) in Hk. lia.
  - split; [reflexivity|]. split; [exact Hbytes|].
    intros k Hk. change (Z.of_nat k < 104) in Hk.
    apply (sameBits_spec 104); [vm_compute; reflexivity|lia].
  - reflexivity.
Qed.
